(** * DynamicEQ: a shallow embedding of the signal-processing core

    The development follows the C++ sources:
    - [Source/DSP/DynamicEQBand.h]   : [BandParams], [EnvelopeFollower],
      [DynamicEQBand], [SpectrumAnalyzer];
    - [Source/PluginProcessor.{h,cpp}] : [DynamicEQAudioProcessor];
    - [Source/UI/SpectrumComponent.h] : the curve cache of [SpectrumComponent].

    C++ [float] and [double] values are IEEE-754 binary32 and binary64 values,
    represented by [spec_float] and computed with the operations of
    [SpecFloat] at precision 24 / 53.  Everything that lives in JUCE or in
    <cmath> (transcendental functions, the IIR coefficient factories, the
    filter kernel) is a field of the class [Juce]. *)

From Stdlib Require Import ZArith Bool Lia String SpecFloat.
From stdpp Require Import base list.

Open Scope Z_scope.

(** ** IEEE-754 numbers *)

Abbreviation float := spec_float (only parsing).
Abbreviation double := spec_float (only parsing).

Definition is_finite (x : spec_float) : bool :=
  match x with
  | S754_zero _ | S754_finite _ _ _ => true
  | S754_infinity _ | S754_nan => false
  end.

Definition is_nan (x : spec_float) : bool :=
  match x with S754_nan => true | _ => false end.

(** binary32 arithmetic, the C++ operators on [float]. *)
Module F32.
Definition prec : Z := 24.
Definition emax : Z := 128.

Definition add : float -> float -> float := SFadd prec emax.
Definition sub : float -> float -> float := SFsub prec emax.
Definition mul : float -> float -> float := SFmul prec emax.
Definition div : float -> float -> float := SFdiv prec emax.

(** [static_cast<float> (int)] *)
Definition of_Z (z : Z) : float := binary_normalize prec emax z 0 false.

(** [static_cast<float> (double)]: round to nearest even. *)
Definition of_double (x : double) : float :=
  match x with
  | S754_finite s m e => binary_round prec emax s m e
  | _ => x
  end.

(** [static_cast<int> (float)]: truncation towards zero.  The C++
    conversion is undefined for NaN and the infinities; 0 is returned. *)
Definition to_int (x : float) : Z :=
  match x with
  | S754_finite s m e =>
      cond_Zopp s (if 0 <=? e then Z.shiftl (Zpos m) e else Z.shiftr (Zpos m) (- e))
  | _ => 0
  end.

Definition zero : float := S754_zero false.
Definition one : float := Eval vm_compute in of_Z 1.
Definition two : float := Eval vm_compute in of_Z 2.
(** the literals [0.001f] and [0.05f] *)
Definition c0_001 : float := Eval vm_compute in div (of_Z 1) (of_Z 1000).
Definition c0_05 : float := Eval vm_compute in div (of_Z 1) (of_Z 20).
Definition c0_5 : float := Eval vm_compute in div (of_Z 1) (of_Z 2).
(** 7.5 *)
Definition c7_5 : float := Eval vm_compute in div (of_Z 15) (of_Z 2).
(** [juce::MathConstants<float>::twoPi], the binary32 nearest to 2 pi *)
Definition twoPi : float := S754_finite false 13176795 (-21).
End F32.

(** binary64 arithmetic, the C++ operators on [double]. *)
Module F64.
Definition prec : Z := 53.
Definition emax : Z := 1024.

Definition mul : double -> double -> double := SFmul prec emax.
Definition of_Z (z : Z) : double := binary_normalize prec emax z 0 false.
(** [static_cast<double> (float)] is exact. *)
Definition of_float (x : float) : double := x.
Definition zero : double := S754_zero false.
Definition one : double := Eval vm_compute in of_Z 1.
End F64.

(** The comparisons do not depend on the format.  [a > b] is [SFltb b a],
    [a != b] is [negb (SFeqb a b)]; every comparison with a NaN is false,
    except [!=]. *)
Definition fgt (a b : spec_float) : bool := SFltb b a.
Definition fge (a b : spec_float) : bool := SFleb b a.
Definition fne (a b : spec_float) : bool := negb (SFeqb a b).

(** [std::max (a, b)] is [(a < b) ? b : a]. *)
Definition std_max (a b : spec_float) : spec_float := if SFltb a b then b else a.

(** ** The audio buffer

    [juce::AudioBuffer<float>]: one list of samples per channel, all of
    length [getNumSamples()]. *)
Definition AudioBuffer := list (list float).

Record ProcessSpec := {
  spec_sampleRate : double;
  spec_maximumBlockSize : Z;
  spec_numChannels : Z
}.

(** [juce::dsp::IIR::Coefficients<float>] stores its normalised coefficients
    in the public array [coefficients]. *)
Definition Coefficients := list float.

(** ** What the code takes from <cmath> and from JUCE *)
Class Juce := {
  (** <cmath> *)
  expf : float -> float;
  powf : float -> float -> float;
  cosf : float -> float;
  sinf : float -> float;
  (** [juce::Decibels], the [float] and [double] instantiations;
      the second argument is [minusInfinityDb] *)
  decibelsToGain : float -> float -> float;
  gainToDecibels : float -> float -> float;
  gainToDecibels_double : double -> double -> double;
  defaultMinusInfinitydB : float;
  defaultMinusInfinitydB_double : double;
  (** [juce::dsp::IIR::Coefficients<float>] *)
  Coefficients_default : Coefficients;
  Coefficients6 : float -> float -> float -> float -> float -> float -> Coefficients;
  makeLowShelf : double -> float -> float -> float -> Coefficients;
  makePeakFilter : double -> float -> float -> float -> Coefficients;
  makeHighShelf : double -> float -> float -> float -> Coefficients;
  makeHighPass : double -> float -> float -> Coefficients;
  makeLowPass : double -> float -> float -> Coefficients;
  makeBandPass : double -> float -> float -> Coefficients;
  getMagnitudeForFrequencyArray : Coefficients -> list double -> double -> list double;
  (** [juce::dsp::ProcessorDuplicator<IIR::Filter<float>, ...>]: the
      per-channel delay lines, and the filter kernel run on a whole block *)
  FilterMem : Type;
  FilterMem_default : FilterMem;
  filter_reset : FilterMem -> FilterMem;
  filter_prepare : ProcessSpec -> FilterMem -> FilterMem;
  filter_process : Coefficients -> FilterMem -> AudioBuffer -> FilterMem * AudioBuffer;
  (** [AudioBuffer::addFrom] on one destination channel:
      destination, source, gain *)
  addFrom : list float -> list float -> float -> list float
}.

(** ** [struct BandParams] *)

(** [enum class FilterType]; a value cast from an [int] keeps that [int]. *)
Definition FilterType := Z.

Module BandParams.
Definition LowShelf : FilterType := 0.
Definition Peak : FilterType := 1.
Definition HighShelf : FilterType := 2.
Definition LowCut : FilterType := 3.
Definition HighCut : FilterType := 4.
Definition Notch : FilterType := 5.
Definition BandPass : FilterType := 6.

Record t := {
  frequency : float;
  gain : float;
  q : float;
  threshold : float;
  ratio : float;
  attackMs : float;
  releaseMs : float;
  enabled : bool;
  dynamicOn : bool;
  type : FilterType
}.

(** the default member initialisers *)
Definition default : t := {|
  frequency := F32.of_Z 1000;
  gain := F32.zero;
  q := F32.one;
  threshold := F32.of_Z (-20);
  ratio := F32.of_Z 4;
  attackMs := F32.of_Z 10;
  releaseMs := F32.of_Z 100;
  enabled := true;
  dynamicOn := true;
  type := Peak
|}.
End BandParams.

(** ** [class EnvelopeFollower] *)
Module EnvelopeFollower.
Record t := {
  sampleRate : double;
  attackCoeff : float;
  releaseCoeff : float;
  envelope : float
}.

Definition init : t := {|
  sampleRate := F64.of_Z 44100;
  attackCoeff := F32.zero;
  releaseCoeff := F32.zero;
  envelope := F32.zero
|}.

Definition prepare (e : t) (newSampleRate : double) : t :=
  {| sampleRate := newSampleRate;
     attackCoeff := attackCoeff e;
     releaseCoeff := releaseCoeff e;
     envelope := F32.zero |}.

Section WithJuce.
Context `{Juce}.

Definition decay (sr : double) (timeMs : float) : float :=
  expf (F32.div (F32.of_Z (-1))
                (F32.mul (F32.mul (F32.of_double sr) timeMs) F32.c0_001)).

Definition setAttackRelease (e : t) (attackMs releaseMs : float) : t :=
  if SFleb (sampleRate e) F64.zero then e
  else {| sampleRate := sampleRate e;
          attackCoeff := decay (sampleRate e) attackMs;
          releaseCoeff := decay (sampleRate e) releaseMs;
          envelope := envelope e |}.
End WithJuce.

(** returns the follower after the call and the value returned *)
Definition process (e : t) (inputLevel : float) : t * float :=
  let coeff := if fgt inputLevel (envelope e) then attackCoeff e else releaseCoeff e in
  let env := F32.add (F32.mul coeff (envelope e))
                     (F32.mul (F32.sub F32.one coeff) inputLevel) in
  ({| sampleRate := sampleRate e;
      attackCoeff := attackCoeff e;
      releaseCoeff := releaseCoeff e;
      envelope := env |}, env).

Definition getEnvelope (e : t) : float := envelope e.
End EnvelopeFollower.

(** ** [class DynamicEQBand] *)
Module DynamicEQBand.
(** [ProcessorDuplicator]: the coefficients [*state] shared by the
    channels, and the channels' delay lines *)
Record Filter `{Juce} := {
  state : Coefficients;
  mem : FilterMem
}.

Record t `{Juce} := {
  params : BandParams.t;
  sampleRate : double;
  envelopeFollower : EnvelopeFollower.t;
  filters : list Filter;          (* std::array<Filter, 1> *)
  sidechainFilter : Filter;
  gainReductionDB : float         (* std::atomic<float> *)
}.

Section WithJuce.
Context `{Juce}.

Definition Filter_default : Filter :=
  {| state := Coefficients_default; mem := FilterMem_default |}.

Definition init : t := {|
  params := BandParams.default;
  sampleRate := F64.of_Z 44100;
  envelopeFollower := EnvelopeFollower.init;
  filters := [Filter_default];
  sidechainFilter := Filter_default;
  gainReductionDB := F32.zero
|}.

Definition Filter_prepare (spec : ProcessSpec) (f : Filter) : Filter :=
  {| state := state f; mem := filter_prepare spec (filter_reset (mem f)) |}.

Definition prepare (b : t) (spec : ProcessSpec) : t := {|
  params := params b;
  sampleRate := spec_sampleRate spec;
  envelopeFollower :=
    EnvelopeFollower.prepare (envelopeFollower b) (spec_sampleRate spec);
  filters := map (Filter_prepare spec) (filters b);
  sidechainFilter := Filter_prepare spec (sidechainFilter b);
  gainReductionDB := F32.zero
|}.

(** the six arguments [b0 b1 b2 a0 a1 a2] handed to the constructor of
    [Coefficients] in the [Notch] case *)
Definition notchCoefficients (sr : double) (p : BandParams.t)
  : float * float * float * float * float * float :=
  let w0 := F32.div (F32.mul F32.twoPi (BandParams.frequency p)) (F32.of_double sr) in
  let cosW0 := cosf w0 in
  let alpha := F32.div (sinf w0) (F32.mul F32.two (BandParams.q p)) in
  (F32.one, F32.mul (F32.of_Z (-2)) cosW0, F32.one,
   F32.add F32.one alpha, F32.mul (F32.of_Z (-2)) cosW0, F32.sub F32.one alpha).

(** the [switch] of [updateFilterCoefficients]: the array [coeffs],
    empty when no [case] matches *)
Definition synthesize (sr : double) (p : BandParams.t) (gainDB : float)
  : option Coefficients :=
  let f := BandParams.frequency p in
  let q := BandParams.q p in
  let g := decibelsToGain gainDB defaultMinusInfinitydB in
  match BandParams.type p with
  | 0 => Some (makeLowShelf sr f q g)
  | 1 => Some (makePeakFilter sr f q g)
  | 2 => Some (makeHighShelf sr f q g)
  | 3 => Some (makeHighPass sr f q)
  | 4 => Some (makeLowPass sr f q)
  | 5 => let '(b0, b1, b2, a0, a1, a2) := notchCoefficients sr p in
         Some (Coefficients6 b0 b1 b2 a0 a1 a2)
  | 6 => Some (makeBandPass sr f q)
  | _ => None
  end.

Definition setState (c : Coefficients) (f : Filter) : Filter :=
  {| state := c; mem := mem f |}.

Definition updateFilterCoefficients (b : t) (gainDB : float) : t :=
  if SFleb (sampleRate b) F64.zero then b
  else
    match synthesize (sampleRate b) (params b) gainDB with
    | Some c =>
        {| params := params b;
           sampleRate := sampleRate b;
           envelopeFollower := envelopeFollower b;
           filters := map (setState c) (filters b);
           sidechainFilter := sidechainFilter b;
           gainReductionDB := gainReductionDB b |}
    | None => b
    end.

Definition updateSidechainFilter (b : t) : t :=
  if SFleb (sampleRate b) F64.zero then b
  else
    {| params := params b;
       sampleRate := sampleRate b;
       envelopeFollower := envelopeFollower b;
       filters := filters b;
       sidechainFilter :=
         setState (makeBandPass (sampleRate b) (BandParams.frequency (params b))
                                (BandParams.q (params b)))
                  (sidechainFilter b);
       gainReductionDB := gainReductionDB b |}.

Definition updateParams (b : t) (p : BandParams.t) : t :=
  let b1 := {| params := p;
               sampleRate := sampleRate b;
               envelopeFollower :=
                 EnvelopeFollower.setAttackRelease (envelopeFollower b)
                   (BandParams.attackMs p) (BandParams.releaseMs p);
               filters := filters b;
               sidechainFilter := sidechainFilter b;
               gainReductionDB := gainReductionDB b |} in
  updateSidechainFilter (updateFilterCoefficients b1 (BandParams.gain p)).

(** [for (auto& f : filters) f.process (context)] *)
Fixpoint runFilters (fs : list Filter) (buffer : AudioBuffer)
  : list Filter * AudioBuffer :=
  match fs with
  | [] => ([], buffer)
  | f :: fs' =>
      let '(m, buffer1) := filter_process (state f) (mem f) buffer in
      let '(fs1, buffer2) := runFilters fs' buffer1 in
      ({| state := state f; mem := m |} :: fs1, buffer2)
  end.

(** the two nested loops computing [peakLevel] *)
Definition channelPeak (peakLevel : float) (data : list float) : float :=
  fold_left (fun pk x => std_max pk (SFabs x)) data peakLevel.

Definition blockPeak (buffer : AudioBuffer) : float :=
  fold_left channelPeak buffer F32.zero.

Definition minus100 : float := Eval vm_compute in F32.of_Z (-100).

(** the envelope follower after the block, and [envDB] *)
Definition detect (b : t) (buffer : AudioBuffer) : EnvelopeFollower.t * float :=
  let peakLevel := blockPeak buffer in
  let levelDB := gainToDecibels peakLevel minus100 in
  let '(e, env) := EnvelopeFollower.process (envelopeFollower b)
                     (decibelsToGain levelDB minus100) in
  (e, gainToDecibels env minus100).

(** the gain computer: [reductionDB] from [envDB] *)
Definition computeReduction (p : BandParams.t) (envDB : float) : float :=
  if fgt envDB (BandParams.threshold p) then
    let excess := F32.sub envDB (BandParams.threshold p) in
    F32.sub excess (F32.div excess (BandParams.ratio p))
  else F32.zero.

Definition setGainReduction (b : t) (g : float) : t :=
  {| params := params b;
     sampleRate := sampleRate b;
     envelopeFollower := envelopeFollower b;
     filters := filters b;
     sidechainFilter := sidechainFilter b;
     gainReductionDB := g |}.

Definition setFilters (b : t) (fs : list Filter) : t :=
  {| params := params b;
     sampleRate := sampleRate b;
     envelopeFollower := envelopeFollower b;
     filters := fs;
     sidechainFilter := sidechainFilter b;
     gainReductionDB := gainReductionDB b |}.

Definition setEnvelopeFollower (b : t) (e : EnvelopeFollower.t) : t :=
  {| params := params b;
     sampleRate := sampleRate b;
     envelopeFollower := e;
     filters := filters b;
     sidechainFilter := sidechainFilter b;
     gainReductionDB := gainReductionDB b |}.

(** [process]: the band after the call and the buffer after the call *)
Definition process (b : t) (buffer : AudioBuffer) : t * AudioBuffer :=
  if negb (BandParams.enabled (params b)) then
    (setGainReduction b F32.zero, buffer)
  else if negb (BandParams.dynamicOn (params b)) then
    let '(fs, out) := runFilters (filters b) buffer in
    (setGainReduction (setFilters b fs) F32.zero, out)
  else
    let '(e, envDB) := detect b buffer in
    let reductionDB := computeReduction (params b) envDB in
    let b1 := setGainReduction (setEnvelopeFollower b e) reductionDB in
    let dynamicGain := F32.sub (BandParams.gain (params b)) reductionDB in
    let b2 := updateFilterCoefficients b1 dynamicGain in
    let '(fs, out) := runFilters (filters b2) buffer in
    (setFilters b2 fs, out).

Definition getGainReductionDB (b : t) : float := gainReductionDB b.
Definition getParams (b : t) : BandParams.t := params b.
End WithJuce.
End DynamicEQBand.

(** ** [class SpectrumAnalyzer] *)

Global Instance spec_float_inhabited : Inhabited spec_float :=
  populate (S754_zero false).

(** What [processFFT] takes from JUCE. *)
Class JuceFFT := {
  multiplyWithWindowingTable : list float -> Z -> list float;
  performFrequencyOnlyForwardTransform : list float -> list float;
  jmap : float -> float -> float -> float -> float -> float
}.

Module SpectrumAnalyzer.
Definition fftOrder : Z := 12.
Definition fftSize : Z := Z.shiftl 1 fftOrder.
Definition hopSize : Z := 512.

Record t := {
  circularBuffer : list float;      (* std::array<float, fftSize> *)
  fftData : list float;             (* std::array<float, fftSize * 2> *)
  renderBuffer : list float;        (* std::array<float, fftSize * 2> *)
  writePos : Z;
  hopCounter : Z;
  newFFTDataAvailable : bool        (* juce::Atomic<bool> *)
}.

(** the constructor *)
Definition init : t := {|
  circularBuffer := replicate (Z.to_nat fftSize) F32.zero;
  fftData := replicate (Z.to_nat (fftSize * 2)) F32.zero;
  renderBuffer := replicate (Z.to_nat (fftSize * 2)) F32.zero;
  writePos := 0;
  hopCounter := 0;
  newFFTDataAvailable := false
|}.

(** the inner loop
    [for j: fftData[j] = circularBuffer[(writePos + j) & (fftSize - 1)]] *)
Definition capture (cb : list float) (wp : Z) (fd : list float) : list float :=
  fold_left
    (fun fd j => <[j := cb !!! Z.to_nat (Z.land (wp + Z.of_nat j) (fftSize - 1))]> fd)
    (seq 0 (Z.to_nat fftSize)) fd.

(** one iteration of the loop of [pushSamples] *)
Definition pushSample (s : t) (x : float) : t :=
  let cb := <[Z.to_nat (writePos s) := x]> (circularBuffer s) in
  let wp := Z.land (writePos s + 1) (fftSize - 1) in
  let hc := hopCounter s + 1 in
  if hopSize <=? hc then
    {| circularBuffer := cb;
       fftData := capture cb wp (fftData s);
       renderBuffer := renderBuffer s;
       writePos := wp;
       hopCounter := 0;
       newFFTDataAvailable := true |}
  else
    {| circularBuffer := cb;
       fftData := fftData s;
       renderBuffer := renderBuffer s;
       writePos := wp;
       hopCounter := hc;
       newFFTDataAvailable := newFFTDataAvailable s |}.

Definition pushSamples (s : t) (data : list float) : t :=
  fold_left pushSample data s.

Definition isNewDataAvailable (s : t) : bool := newFFTDataAvailable s.

(** [processFFT]: the analyzer after the call and [magnitudeDB] after the
    call; [compareAndSetBool (false, true)] clears the flag when set. *)
Definition processFFT `{JuceFFT} `{Juce} (s : t) (magnitudeDB : list float)
    (minDB maxDB : float) : t * list float :=
  if negb (newFFTDataAvailable s) then (s, magnitudeDB)
  else
    let rb := performFrequencyOnlyForwardTransform
                (multiplyWithWindowingTable (fftData s) fftSize) in
    let scaleFactor := F32.div F32.one (F32.of_Z fftSize) in
    let out :=
      map (fun i =>
             let magnitude := F32.mul (rb !!! i) scaleFactor in
             let db := gainToDecibels magnitude minDB in
             jmap db minDB maxDB F32.zero F32.one)
          (seq 0 (Z.to_nat (fftSize / 2))) in
    ({| circularBuffer := circularBuffer s;
        fftData := fftData s;
        renderBuffer := rb;
        writePos := writePos s;
        hopCounter := hopCounter s;
        newFFTDataAvailable := false |}, out).
End SpectrumAnalyzer.

(** ** [class DynamicEQAudioProcessor] *)

(** [juce::jlimit (lowerLimit, upperLimit, value)] on [int] *)
Definition jlimit (lo hi v : Z) : Z :=
  if v <? lo then lo else if hi <? v then hi else v.

Module DynamicEQAudioProcessor.
Definition numBands : Z := 8.

Record t `{Juce} := {
  (** [apvts.getRawParameterValue ("band<i>_<name>")->load()] *)
  apvts : Z -> string -> float;
  activeBandCount : Z;                       (* std::atomic<int> *)
  bands : list DynamicEQBand.t;              (* std::array<DynamicEQBand, numBands> *)
  preSpectrum : SpectrumAnalyzer.t;
  postSpectrum : SpectrumAnalyzer.t;
  lastSampleRate : double;
  totalNumInputChannels : Z;
  totalNumOutputChannels : Z
}.

Section WithJuce.
Context `{Juce}.

Definition getActiveBandCount (p : t) : Z := activeBandCount p.

Definition setBands (p : t) (bs : list DynamicEQBand.t) : t :=
  {| apvts := apvts p;
     activeBandCount := activeBandCount p;
     bands := bs;
     preSpectrum := preSpectrum p;
     postSpectrum := postSpectrum p;
     lastSampleRate := lastSampleRate p;
     totalNumInputChannels := totalNumInputChannels p;
     totalNumOutputChannels := totalNumOutputChannels p |}.

Definition setActiveBandCount (p : t) (count : Z) : t :=
  {| apvts := apvts p;
     activeBandCount := jlimit 1 numBands count;
     bands := bands p;
     preSpectrum := preSpectrum p;
     postSpectrum := postSpectrum p;
     lastSampleRate := lastSampleRate p;
     totalNumInputChannels := totalNumInputChannels p;
     totalNumOutputChannels := totalNumOutputChannels p |}.

(** the [BandParams] that [updateBandParams] reads from the parameters *)
Definition readBandParams (p : t) (bandIndex : Z) : BandParams.t :=
  let v := apvts p bandIndex in
  {| BandParams.frequency := v "freq"%string;
     BandParams.gain := v "gain"%string;
     BandParams.q := v "q"%string;
     BandParams.threshold := v "threshold"%string;
     BandParams.ratio := v "ratio"%string;
     BandParams.attackMs := v "attack"%string;
     BandParams.releaseMs := v "release"%string;
     BandParams.enabled := fgt (v "enabled"%string) F32.c0_5;
     BandParams.dynamicOn := fgt (v "dynamic"%string) F32.c0_5;
     BandParams.type := F32.to_int (v "type"%string) |}.

(** [bands[bandIndex].updateParams (p)]; an index outside the array
    is undefined in C++ and leaves the array as it is here. *)
Definition updateBandParams (p : t) (bandIndex : Z) : t :=
  match bands p !! Z.to_nat bandIndex with
  | Some b =>
      setBands p (<[Z.to_nat bandIndex :=
                      DynamicEQBand.updateParams b (readBandParams p bandIndex)]> (bands p))
  | None => p
  end.

Definition prepareToPlay (p : t) (sampleRate : double) (samplesPerBlock : Z) : t :=
  let spec := {| spec_sampleRate := sampleRate;
                 spec_maximumBlockSize := samplesPerBlock;
                 spec_numChannels := totalNumOutputChannels p |} in
  let p0 := {| apvts := apvts p;
               activeBandCount := activeBandCount p;
               bands := bands p;
               preSpectrum := preSpectrum p;
               postSpectrum := postSpectrum p;
               lastSampleRate := sampleRate;
               totalNumInputChannels := totalNumInputChannels p;
               totalNumOutputChannels := totalNumOutputChannels p |} in
  fold_left
    (fun p i =>
       match bands p !! i with
       | Some b =>
           updateBandParams
             (setBands p (<[i := DynamicEQBand.prepare b spec]> (bands p)))
             (Z.of_nat i)
       | None => p
       end)
    (seq 0 (Z.to_nat numBands)) p0.

Definition getNumSamples (buffer : AudioBuffer) : nat :=
  match buffer with [] => 0%nat | c :: _ => length c end.

(** [buffer.clear (i, 0, buffer.getNumSamples())] for the output
    channels that have no input *)
Definition clearExtraChannels (p : t) (buffer : AudioBuffer) : AudioBuffer :=
  fold_left
    (fun buf k =>
       <[(Z.to_nat (totalNumInputChannels p) + k)%nat :=
           replicate (getNumSamples buffer) F32.zero]> buf)
    (seq 0 (Z.to_nat (totalNumOutputChannels p - totalNumInputChannels p)))
    buffer.

(** the mono mix pushed to the analyzers *)
Definition monoMix (buffer : AudioBuffer) : list float :=
  let numChannels := Z.of_nat (length buffer) in
  fold_left
    (fun mono ch => addFrom mono ch (F32.div F32.one (F32.of_Z numChannels)))
    buffer (replicate (getNumSamples buffer) F32.zero).

(** one iteration of the band loop of [processBlock] *)
Definition bandStep (st : t * AudioBuffer) (i : nat) : t * AudioBuffer :=
  let '(p, buffer) := st in
  let p1 := updateBandParams p (Z.of_nat i) in
  match bands p1 !! i with
  | Some b =>
      let '(b', buffer') := DynamicEQBand.process b buffer in
      (setBands p1 (<[i := b']> (bands p1)), buffer')
  | None => (p1, buffer)
  end.

(** [for (int i = 0; i < activeBandCount.load(); ++i)] *)
Definition runBands (p : t) (buffer : AudioBuffer) : t * AudioBuffer :=
  fold_left bandStep (seq 0 (Z.to_nat (activeBandCount p))) (p, buffer).

Definition setPreSpectrum (p : t) (s : SpectrumAnalyzer.t) : t :=
  {| apvts := apvts p;
     activeBandCount := activeBandCount p;
     bands := bands p;
     preSpectrum := s;
     postSpectrum := postSpectrum p;
     lastSampleRate := lastSampleRate p;
     totalNumInputChannels := totalNumInputChannels p;
     totalNumOutputChannels := totalNumOutputChannels p |}.

Definition setPostSpectrum (p : t) (s : SpectrumAnalyzer.t) : t :=
  {| apvts := apvts p;
     activeBandCount := activeBandCount p;
     bands := bands p;
     preSpectrum := preSpectrum p;
     postSpectrum := s;
     lastSampleRate := lastSampleRate p;
     totalNumInputChannels := totalNumInputChannels p;
     totalNumOutputChannels := totalNumOutputChannels p |}.

Definition processBlock (p : t) (buffer : AudioBuffer) : t * AudioBuffer :=
  let buffer0 := clearExtraChannels p buffer in
  let p1 := setPreSpectrum p
              (SpectrumAnalyzer.pushSamples (preSpectrum p) (monoMix buffer0)) in
  let '(p2, buffer1) := runBands p1 buffer0 in
  let p3 := setPostSpectrum p2
              (SpectrumAnalyzer.pushSamples (postSpectrum p2) (monoMix buffer1)) in
  (p3, buffer1).

Definition getBandGainReduction (p : t) (bandIndex : Z) : float :=
  if (0 <=? bandIndex) && (bandIndex <? numBands) then
    match bands p !! Z.to_nat bandIndex with
    | Some b => DynamicEQBand.getGainReductionDB b
    | None => F32.zero
    end
  else F32.zero.

Definition getCurrentSampleRate (p : t) : double := lastSampleRate p.
End WithJuce.
End DynamicEQAudioProcessor.

(** ** The curve cache of [class SpectrumComponent] *)

Module SpectrumComponent.
Definition curveNumPoints : Z := 1024.
Definition minFreqHz : float := Eval vm_compute in F32.of_Z 20.
Definition maxFreqHz : float := Eval vm_compute in F32.of_Z 20000.

Record BandSnapshot := {
  freq : float;
  gain : float;
  q : float;
  gr : float;
  type : Z;
  enabled : bool;
  dynamic : bool
}.

Definition BandSnapshot_default : BandSnapshot := {|
  freq := F32.zero; gain := F32.zero; q := F32.zero; gr := F32.zero;
  type := 0; enabled := false; dynamic := false
|}.

Global Instance BandSnapshot_inhabited : Inhabited BandSnapshot :=
  populate BandSnapshot_default.

Record t := {
  cachedBandMagnitudes : list (list float);
  cachedTotalMagnitude : list float;
  curveFrequencies : list double;
  curveNeedsUpdate : bool;
  lastSnapshots : list BandSnapshot;
  lastActiveBandCount : Z;
  width : Z                               (* getWidth() *)
}.

Definition init : t := {|
  cachedBandMagnitudes :=
    replicate (Z.to_nat DynamicEQAudioProcessor.numBands)
              (replicate (Z.to_nat curveNumPoints) F32.zero);
  cachedTotalMagnitude := replicate (Z.to_nat curveNumPoints) F32.zero;
  curveFrequencies := replicate (Z.to_nat curveNumPoints) F64.zero;
  curveNeedsUpdate := true;
  lastSnapshots :=
    replicate (Z.to_nat DynamicEQAudioProcessor.numBands) BandSnapshot_default;
  lastActiveBandCount := -1;
  width := 0
|}.

(** [resized()] *)
Definition resized (c : t) (newWidth : Z) : t :=
  {| cachedBandMagnitudes := cachedBandMagnitudes c;
     cachedTotalMagnitude := cachedTotalMagnitude c;
     curveFrequencies := curveFrequencies c;
     curveNeedsUpdate := true;
     lastSnapshots := lastSnapshots c;
     lastActiveBandCount := lastActiveBandCount c;
     width := newWidth |}.

Section WithJuce.
Context `{Juce}.

Definition xToFreq (x width minFreq maxFreq : float) : float :=
  F32.mul minFreq (powf (F32.div maxFreq minFreq) (F32.div x width)).

(** the snapshot that [checkAndUpdateCurve] reads for band [i] *)
Definition readSnapshot (p : DynamicEQAudioProcessor.t) (i : Z) : BandSnapshot :=
  let v := DynamicEQAudioProcessor.apvts p i in
  let dyn := fgt (v "dynamic"%string) F32.c0_5 in
  {| freq := v "freq"%string;
     gain := v "gain"%string;
     q := v "q"%string;
     gr := if dyn then DynamicEQAudioProcessor.getBandGainReduction p i else F32.zero;
     type := F32.to_int (v "type"%string);
     enabled := fgt (v "enabled"%string) F32.c0_5;
     dynamic := dyn |}.

(** the condition of the [if] in the loop of [checkAndUpdateCurve] *)
Definition snapshotDiffers (snap last : BandSnapshot) : bool :=
  fne (freq snap) (freq last) || fne (gain snap) (gain last)
  || fne (q snap) (q last) || negb (type snap =? type last)
  || negb (eqb (enabled snap) (enabled last))
  || negb (eqb (dynamic snap) (dynamic last))
  || fgt (SFabs (F32.sub (gr snap) (gr last))) F32.c0_05.

(** one iteration of that loop, on [changed] and [lastSnapshots] *)
Definition checkBand (p : DynamicEQAudioProcessor.t)
    (st : bool * list BandSnapshot) (i : nat) : bool * list BandSnapshot :=
  let '(changed, snaps) := st in
  let snap := readSnapshot p (Z.of_nat i) in
  if snapshotDiffers snap (snaps !!! i) then (true, <[i := snap]> snaps)
  else (changed, snaps).

(** [changed] and the component before the final [if (changed)] *)
Definition detectChange (p : DynamicEQAudioProcessor.t) (c : t) : bool * t :=
  let active := DynamicEQAudioProcessor.getActiveBandCount p in
  let '(changed0, lastActive) :=
    if negb (active =? lastActiveBandCount c) then (true, active)
    else (curveNeedsUpdate c, lastActiveBandCount c) in
  let '(changed, snaps) :=
    fold_left (checkBand p) (seq 0 (Z.to_nat active)) (changed0, lastSnapshots c) in
  (changed,
   {| cachedBandMagnitudes := cachedBandMagnitudes c;
      cachedTotalMagnitude := cachedTotalMagnitude c;
      curveFrequencies := curveFrequencies c;
      curveNeedsUpdate := curveNeedsUpdate c;
      lastSnapshots := snaps;
      lastActiveBandCount := lastActive;
      width := width c |}).

(** the coefficients built for one band of the curve, [None] in the
    [default] case *)
Definition curveCoefficients (sr : double) (snap : BandSnapshot) (gainFactor : float)
  : option Coefficients :=
  match type snap with
  | 0 => Some (makeLowShelf sr (freq snap) (q snap) gainFactor)
  | 1 => Some (makePeakFilter sr (freq snap) (q snap) gainFactor)
  | 2 => Some (makeHighShelf sr (freq snap) (q snap) gainFactor)
  | 3 => Some (makeHighPass sr (freq snap) (q snap))
  | 4 => Some (makeLowPass sr (freq snap) (q snap))
  | 5 =>
      let w0 := F32.div (F32.mul F32.twoPi (freq snap)) (F32.of_double sr) in
      let cosW0 := cosf w0 in
      let alpha := F32.div (sinf w0) (F32.mul F32.two (q snap)) in
      Some (Coefficients6 F32.one (F32.mul (F32.of_Z (-2)) cosW0) F32.one
              (F32.add F32.one alpha) (F32.mul (F32.of_Z (-2)) cosW0)
              (F32.sub F32.one alpha))
  | 6 => Some (makeBandPass sr (freq snap) (q snap))
  | _ => None
  end.

Definition points : list nat := seq 0 (Z.to_nat curveNumPoints).

(** one iteration of the band loop of [rebuildCurveCache], on
    [cachedBandMagnitudes] and [totalLinearMagnitude] *)
Definition rebuildBand (sr : double) (freqs : list double) (snaps : list BandSnapshot)
    (st : list (list float) * list double) (b : nat)
  : list (list float) * list double :=
  let '(mags, total) := st in
  let snap := snaps !!! b in
  let zeros := replicate (Z.to_nat curveNumPoints) F32.zero in
  if negb (enabled snap) then (<[b := zeros]> mags, total)
  else
    let effectiveGain :=
      if dynamic snap then F32.sub (gain snap) (gr snap) else gain snap in
    let gainFactor := decibelsToGain effectiveGain defaultMinusInfinitydB in
    match curveCoefficients sr snap gainFactor with
    | None => (<[b := zeros]> mags, total)
    | Some coeffs =>
        let magnitudes := getMagnitudeForFrequencyArray coeffs freqs sr in
        (<[b := map (fun i => F32.of_double
                                (gainToDecibels_double (magnitudes !!! i)
                                   defaultMinusInfinitydB_double)) points]> mags,
         map (fun i => F64.mul (total !!! i) (magnitudes !!! i)) points)
    end.

Definition rebuildCurveCache (p : DynamicEQAudioProcessor.t) (c : t) : t :=
  let c0 := {| cachedBandMagnitudes := cachedBandMagnitudes c;
               cachedTotalMagnitude := cachedTotalMagnitude c;
               curveFrequencies := curveFrequencies c;
               curveNeedsUpdate := false;
               lastSnapshots := lastSnapshots c;
               lastActiveBandCount := lastActiveBandCount c;
               width := width c |} in
  let sr := DynamicEQAudioProcessor.getCurrentSampleRate p in
  if SFleb sr F64.zero then c0
  else
    let w := F32.of_Z (width c) in
    if SFleb w F32.zero then c0
    else
      let freqs :=
        map (fun i =>
               let t := F32.div (F32.of_Z (Z.of_nat i)) (F32.of_Z (curveNumPoints - 1)) in
               let x := F32.mul t w in
               F64.of_float (xToFreq x w minFreqHz maxFreqHz))
            points in
      let '(mags, total) :=
        fold_left (rebuildBand sr freqs (lastSnapshots c))
          (seq 0 (Z.to_nat (DynamicEQAudioProcessor.getActiveBandCount p)))
          (cachedBandMagnitudes c, replicate (Z.to_nat curveNumPoints) F64.one) in
      {| cachedBandMagnitudes := mags;
         cachedTotalMagnitude :=
           map (fun i => F32.of_double
                           (gainToDecibels_double (total !!! i)
                              defaultMinusInfinitydB_double)) points;
         curveFrequencies := freqs;
         curveNeedsUpdate := false;
         lastSnapshots := lastSnapshots c;
         lastActiveBandCount := lastActiveBandCount c;
         width := width c |}.

Definition checkAndUpdateCurve (p : DynamicEQAudioProcessor.t) (c : t) : t :=
  let '(changed, c1) := detectChange p c in
  if changed then rebuildCurveCache p c1 else c1.
End WithJuce.
End SpectrumComponent.

(** ** A test double for <cmath> and JUCE

    The theorems below hold for every instance of [Juce].  The examples
    need one: [Stub] follows the JUCE sources for [Decibels] and for the
    normalisation done by the constructor of [Coefficients], runs a
    transposed direct form II biquad, and replaces <cmath> by the special
    values of C Annex F plus the binary32 nearest to the exact result at
    the few finite arguments that the examples use (NaN elsewhere).  The
    coefficient factories are flat stand-ins. *)
Module Stub.
Definition log10f (x : float) : float :=
  match x with
  | S754_nan => S754_nan
  | S754_zero _ => S754_infinity true
  | S754_infinity false => S754_infinity false
  | S754_infinity true => S754_nan
  | S754_finite true _ _ => S754_nan
  | S754_finite false 8388608 (-23) => S754_zero false
  | S754_finite false 10610843 (-25) => S754_finite true 8388608 (-24)
  | S754_finite false _ _ => S754_nan
  end.

(** [std::pow (10.0f, y)] *)
Definition pow10f (y : float) : float :=
  match y with
  | S754_nan => S754_nan
  | S754_zero _ => F32.one
  | S754_infinity false => S754_infinity false
  | S754_infinity true => S754_zero false
  | S754_finite true 8388608 (-24) => S754_finite false 10610843 (-25)
  | S754_finite _ _ _ => S754_nan
  end.

Definition powf (x y : float) : float :=
  if SFeqb x (F32.of_Z 10) then pow10f y
  else match y with S754_zero _ => F32.one | _ => S754_nan end.

Definition expf (x : float) : float :=
  match x with
  | S754_nan => S754_nan
  | S754_zero _ => F32.one
  | S754_infinity false => S754_infinity false
  | S754_infinity true => S754_zero false
  | S754_finite true 9739154 (-32) => S754_finite false 16739216 (-24)
  | S754_finite true 15582648 (-36) => S754_finite false 16773412 (-24)
  | S754_finite _ _ _ => S754_nan
  end.

(** the finite argument is [twoPi * 1000 / 44100] *)
Definition cosf (x : float) : float :=
  match x with
  | S754_zero _ => F32.one
  | S754_finite false 9561393 (-26) => S754_finite false 16607220 (-24)
  | _ => S754_nan
  end.

Definition sinf (x : float) : float :=
  match x with
  | S754_zero _ => x
  | S754_finite false 9561393 (-26) => S754_finite false 9529077 (-26)
  | _ => S754_nan
  end.

(** [juce::jmax (a, b)] is [a < b ? b : a]. *)
Definition jmax (a b : float) : float := if SFltb a b then b else a.

Definition gainToDecibels (gain minusInfinityDb : float) : float :=
  if fgt gain F32.zero
  then jmax minusInfinityDb (F32.mul (log10f gain) (F32.of_Z 20))
  else minusInfinityDb.

Definition decibelsToGain (decibels minusInfinityDb : float) : float :=
  if fgt decibels minusInfinityDb
  then powf (F32.of_Z 10) (F32.mul decibels F32.c0_05)
  else F32.zero.

(** [std::log10] on [double]: the special values and [log10 1 = 0] *)
Definition log10 (x : double) : double :=
  match x with
  | S754_nan => S754_nan
  | S754_zero _ => S754_infinity true
  | S754_infinity false => S754_infinity false
  | S754_infinity true => S754_nan
  | S754_finite true _ _ => S754_nan
  | S754_finite false 4503599627370496 (-52) => S754_zero false
  | S754_finite false _ _ => S754_nan
  end.

Definition gainToDecibels_double (gain minusInfinityDb : double) : double :=
  if fgt gain F64.zero
  then jmax minusInfinityDb (F64.mul (log10 gain) (F64.of_Z 20))
  else minusInfinityDb.

(** the constructor of [Coefficients] divides by [a0] *)
Definition Coefficients6 (b0 b1 b2 a0 a1 a2 : float) : Coefficients :=
  let a0Inv := if fne a0 F32.zero then F32.div F32.one a0 else F32.zero in
  [F32.mul b0 a0Inv; F32.mul b1 a0Inv; F32.mul b2 a0Inv;
   F32.mul a1 a0Inv; F32.mul a2 a0Inv].

Definition flat (g : float) : Coefficients :=
  [g; F32.zero; F32.zero; F32.zero; F32.zero].

(** one sample through the biquad; the state is the pair of delays *)
Definition biquad (c : Coefficients) (st : float * float) (x : float)
  : (float * float) * float :=
  match c with
  | [b0; b1; b2; a1; a2] =>
      let y := F32.add (F32.mul b0 x) (fst st) in
      ((F32.add (F32.sub (F32.mul b1 x) (F32.mul a1 y)) (snd st),
        F32.sub (F32.mul b2 x) (F32.mul a2 y)), y)
  | _ => (st, x)
  end.

Fixpoint biquadChannel (c : Coefficients) (st : float * float) (xs : list float)
  : (float * float) * list float :=
  match xs with
  | [] => (st, [])
  | x :: xs' =>
      let '(st1, y) := biquad c st x in
      let '(st2, ys) := biquadChannel c st1 xs' in
      (st2, y :: ys)
  end.

Fixpoint biquadBlock (c : Coefficients) (m : list (float * float)) (buffer : AudioBuffer)
  : list (float * float) * AudioBuffer :=
  match buffer with
  | [] => (m, [])
  | ch :: rest =>
      let st := match m with s :: _ => s | [] => (F32.zero, F32.zero) end in
      let '(st1, out) := biquadChannel c st ch in
      let '(m1, outs) := biquadBlock c (tail m) rest in
      (st1 :: m1, out :: outs)
  end.

Definition noDelay : float * float := (F32.zero, F32.zero).

Definition addFrom (dest src : list float) (g : float) : list float :=
  zip_with (fun d x => F32.add d (F32.mul x g)) dest src.

Definition minus100 : float := Eval vm_compute in F32.of_Z (-100).

Definition juce : Juce :=
  Build_Juce
    expf powf cosf sinf
    decibelsToGain gainToDecibels
    gainToDecibels_double minus100 (F64.of_Z (-100))
    (flat F32.one) Coefficients6
    (fun _ _ _ g => flat g) (fun _ _ _ g => flat g) (fun _ _ _ g => flat g)
    (fun _ _ _ => flat F32.one) (fun _ _ _ => flat F32.one)
    (fun _ _ _ => flat F32.one)
    (fun _ freqs _ => map (fun _ => F64.one) freqs)
    (list (float * float)) [] (fun m => map (fun _ => noDelay) m)
    (fun spec _ => replicate (Z.to_nat (spec_numChannels spec)) noDelay)
    biquadBlock
    addFrom.
End Stub.

(** ** Vocabulary of the statements *)

(** the same [BandParams] with another [dynamicOn] *)
Definition withDynamicOn (p : BandParams.t) (d : bool) : BandParams.t :=
  {| BandParams.frequency := BandParams.frequency p;
     BandParams.gain := BandParams.gain p;
     BandParams.q := BandParams.q p;
     BandParams.threshold := BandParams.threshold p;
     BandParams.ratio := BandParams.ratio p;
     BandParams.attackMs := BandParams.attackMs p;
     BandParams.releaseMs := BandParams.releaseMs p;
     BandParams.enabled := BandParams.enabled p;
     BandParams.dynamicOn := d;
     BandParams.type := BandParams.type p |}.

(** the neutral biquad [b0 = 1], [b1 = b2 = a1 = a2 = 0]: output = input *)
Definition passThrough : Coefficients :=
  [F32.one; F32.zero; F32.zero; F32.zero; F32.zero].

(** all six of [b0 b1 b2 a0 a1 a2] are finite *)
Definition allFinite6 (c : float * float * float * float * float * float) : bool :=
  let '(b0, b1, b2, a0, a1, a2) := c in
  is_finite b0 && is_finite b1 && is_finite b2
  && is_finite a0 && is_finite a1 && is_finite a2.

(** the default parameters with a static gain of -10 dB *)
Definition attenuatingParams : BandParams.t :=
  {| BandParams.frequency := F32.of_Z 1000;
     BandParams.gain := F32.of_Z (-10);
     BandParams.q := F32.one;
     BandParams.threshold := F32.of_Z (-20);
     BandParams.ratio := F32.of_Z 4;
     BandParams.attackMs := F32.of_Z 10;
     BandParams.releaseMs := F32.of_Z 100;
     BandParams.enabled := true;
     BandParams.dynamicOn := true;
     BandParams.type := BandParams.Peak |}.

Definition stereoSpec (sampleRate : double) : ProcessSpec :=
  {| spec_sampleRate := sampleRate; spec_maximumBlockSize := 512; spec_numChannels := 2 |}.

(** a band prepared at 44100 Hz and given a gain of -10 dB *)
Definition attenuatingBand : @DynamicEQBand.t Stub.juce :=
  @DynamicEQBand.updateParams Stub.juce
    (@DynamicEQBand.prepare Stub.juce (@DynamicEQBand.init Stub.juce)
       (stereoSpec (F64.of_Z 44100)))
    attenuatingParams.

(** the same band after [prepare] with a sample rate of 0 *)
Definition unpreparedBand : @DynamicEQBand.t Stub.juce :=
  @DynamicEQBand.prepare Stub.juce attenuatingBand (stereoSpec F64.zero).

(** the default parameters with another type and Q *)
Definition paramsTypeQ (ty : FilterType) (q : float) : BandParams.t :=
  {| BandParams.frequency := F32.of_Z 1000;
     BandParams.gain := F32.zero;
     BandParams.q := q;
     BandParams.threshold := F32.of_Z (-20);
     BandParams.ratio := F32.of_Z 4;
     BandParams.attackMs := F32.of_Z 10;
     BandParams.releaseMs := F32.of_Z 100;
     BandParams.enabled := true;
     BandParams.dynamicOn := true;
     BandParams.type := ty |}.

(** the filters that [updateParams] leaves in a band *)
Definition installed `{Juce} (b : DynamicEQBand.t) (p : BandParams.t)
  : list DynamicEQBand.Filter :=
  if SFleb (DynamicEQBand.sampleRate b) F64.zero then DynamicEQBand.filters b
  else match DynamicEQBand.synthesize (DynamicEQBand.sampleRate b) p (BandParams.gain p) with
       | Some c => map (DynamicEQBand.setState c) (DynamicEQBand.filters b)
       | None => DynamicEQBand.filters b
       end.

(** ** Inputs of the examples *)

(** 0.31622776, the binary32 nearest to 10^(-1/2): a peak of -10 dB *)
Definition minus10dBPeak : float := S754_finite false 10610843 (-25).

(** a freshly constructed band: default parameters, envelope coefficients 0 *)
Definition freshBand : @DynamicEQBand.t Stub.juce := @DynamicEQBand.init Stub.juce.

(** the default parameters, disabled *)
Definition disabledParams : BandParams.t :=
  {| BandParams.frequency := F32.of_Z 1000;
     BandParams.gain := F32.zero;
     BandParams.q := F32.one;
     BandParams.threshold := F32.of_Z (-20);
     BandParams.ratio := F32.of_Z 4;
     BandParams.attackMs := F32.of_Z 10;
     BandParams.releaseMs := F32.of_Z 100;
     BandParams.enabled := false;
     BandParams.dynamicOn := true;
     BandParams.type := BandParams.Peak |}.

Definition disabledBand : @DynamicEQBand.t Stub.juce :=
  @DynamicEQBand.updateParams Stub.juce freshBand disabledParams.

(** one channel, two samples *)
Definition smallBlock : AudioBuffer := [[minus10dBPeak; F32.zero]].

(** a stereo block of silence *)
Definition silentBlock : AudioBuffer := [[F32.zero; F32.zero]; [F32.zero; F32.zero]].

(** a notch band with Q = 0, prepared at 44100 Hz *)
Definition zeroQNotch : @DynamicEQBand.t Stub.juce :=
  @DynamicEQBand.updateParams Stub.juce freshBand
    (paramsTypeQ BandParams.Notch F32.zero).

(** series composition: every band consumes the output of the band before *)
Fixpoint cascade `{Juce} (bs : list DynamicEQBand.t) (buffer : AudioBuffer)
  : list DynamicEQBand.t * AudioBuffer :=
  match bs with
  | [] => ([], buffer)
  | b :: bs' =>
      let '(b', buffer1) := DynamicEQBand.process b buffer in
      let '(bs1, buffer2) := cascade bs' buffer1 in
      (b' :: bs1, buffer2)
  end.

(** the bands [bs], which stand at the indices [k], [k + 1], ... of the
    array, each with the parameters currently in the parameter tree *)
Definition refresh `{Juce} (p : DynamicEQAudioProcessor.t) (k : nat)
    (bs : list DynamicEQBand.t) : list DynamicEQBand.t :=
  imap (fun j b =>
          DynamicEQBand.updateParams b
            (DynamicEQAudioProcessor.readBandParams p (Z.of_nat (k + j)))) bs.

(** the parameter tree at its default values (band frequency 1 kHz) *)
Definition defaultTree (bandIndex : Z) (name : string) : float :=
  if String.eqb name "freq" then F32.of_Z 1000
  else if String.eqb name "gain" then F32.zero
  else if String.eqb name "q" then F32.one
  else if String.eqb name "threshold" then F32.of_Z (-20)
  else if String.eqb name "ratio" then F32.of_Z 4
  else if String.eqb name "attack" then F32.of_Z 10
  else if String.eqb name "release" then F32.of_Z 100
  else if String.eqb name "enabled" then F32.one
  else if String.eqb name "dynamic" then F32.one
  else if String.eqb name "type" then F32.one
  else F32.zero.

(** a stereo processor with 8 fresh bands, 4 of them active *)
Definition exampleProcessor : @DynamicEQAudioProcessor.t Stub.juce :=
  {| DynamicEQAudioProcessor.apvts := defaultTree;
     DynamicEQAudioProcessor.activeBandCount := 4;
     DynamicEQAudioProcessor.bands := replicate 8 freshBand;
     DynamicEQAudioProcessor.preSpectrum := SpectrumAnalyzer.init;
     DynamicEQAudioProcessor.postSpectrum := SpectrumAnalyzer.init;
     DynamicEQAudioProcessor.lastSampleRate := F64.of_Z 44100;
     DynamicEQAudioProcessor.totalNumInputChannels := 2;
     DynamicEQAudioProcessor.totalNumOutputChannels := 2 |}.

(** ** Vocabulary for the spectrum analyzer *)

(** the [fftSize] most recent samples of the stream [h] pushed so far,
    oldest first; before the first sample the buffer holds zeros *)
Definition window (h : list float) : list float :=
  drop (length h) (replicate (Z.to_nat SpectrumAnalyzer.fftSize) F32.zero ++ h).

(** the analyzer has been pushed the stream [h] since its construction *)
Definition tracks (s : SpectrumAnalyzer.t) (h : list float) : Prop :=
  length (SpectrumAnalyzer.circularBuffer s) = Z.to_nat SpectrumAnalyzer.fftSize
  /\ length (SpectrumAnalyzer.fftData s) = Z.to_nat (SpectrumAnalyzer.fftSize * 2)
  /\ SpectrumAnalyzer.writePos s = Z.of_nat (length h) mod SpectrumAnalyzer.fftSize
  /\ SpectrumAnalyzer.hopCounter s = Z.of_nat (length h) mod SpectrumAnalyzer.hopSize
  /\ rotate (Z.to_nat (SpectrumAnalyzer.writePos s)) (SpectrumAnalyzer.circularBuffer s)
     = window h.

(** the number of samples pushed when the last capture happened, among the
    first [n] samples: the largest multiple of [hopSize] up to [n] *)
Definition lastHop (n : Z) : Z :=
  SpectrumAnalyzer.hopSize * (n / SpectrumAnalyzer.hopSize).

(** ** Vocabulary for the curve cache *)

(** every exactly tracked field compares equal, and the gain reduction is
    within 0.05 dB of the recorded one *)
Definition snapshotWithinTolerance (snap last : SpectrumComponent.BandSnapshot) : bool :=
  SFeqb (SpectrumComponent.freq snap) (SpectrumComponent.freq last)
  && SFeqb (SpectrumComponent.gain snap) (SpectrumComponent.gain last)
  && SFeqb (SpectrumComponent.q snap) (SpectrumComponent.q last)
  && (SpectrumComponent.type snap =? SpectrumComponent.type last)
  && eqb (SpectrumComponent.enabled snap) (SpectrumComponent.enabled last)
  && eqb (SpectrumComponent.dynamic snap) (SpectrumComponent.dynamic last)
  && SFleb (SFabs (F32.sub (SpectrumComponent.gr snap) (SpectrumComponent.gr last)))
           F32.c0_05.

(** the component after its first timer tick on [exampleProcessor] *)
Definition tickedComponent : SpectrumComponent.t :=
  @SpectrumComponent.checkAndUpdateCurve Stub.juce exampleProcessor SpectrumComponent.init.

(** [exampleProcessor] after band 0 has published a gain reduction of
    1/32 dB *)
Definition driftedProcessor : @DynamicEQAudioProcessor.t Stub.juce :=
  DynamicEQAudioProcessor.setBands exampleProcessor
    (<[0%nat := DynamicEQBand.setGainReduction freshBand (S754_finite false 8388608 (-28))]>
       (DynamicEQAudioProcessor.bands exampleProcessor)).

(** one hop of samples: 511 zeros and a one *)
Definition hopBlock : list float :=
  replicate (Z.to_nat (SpectrumAnalyzer.hopSize - 1)) F32.zero ++ [F32.one].

(** ** Vocabulary for binary floating-point rounding *)

(** the result of [binary_round_aux] from the final mantissa and exponent *)
Definition finish (prec emax : Z) (s : bool) (m e : Z) : spec_float :=
  match m with
  | Z0 => S754_zero s
  | Zpos p => if e <=? emax - prec then S754_finite s p e else S754_infinity s
  | Zneg _ => S754_nan
  end.

(** [m1 * 2^e1 <= m2 * 2^e2], on integers, at the smaller exponent *)
Definition Fle (m1 e1 m2 e2 : Z) : Prop :=
  m1 * 2 ^ (e1 - Z.min e1 e2) <= m2 * 2 ^ (e2 - Z.min e1 e2).

(** zero, or positive (finite or infinite) *)
Definition nonneg_float (x : spec_float) : Prop :=
  match x with
  | S754_zero _ => True
  | S754_finite s _ _ => s = false
  | S754_infinity s => s = false
  | S754_nan => False
  end.

(** a finite value within the format: mantissa below [2^prec], exponent
    between [emin] and [emax - prec] *)
Definition representable (prec emax : Z) (x : spec_float) : Prop :=
  match x with
  | S754_finite _ m e => Zpos m < 2 ^ prec /\ emin prec emax <= e <= emax - prec
  | _ => True
  end.

(** a ratio of at least 1: +infinity, or a positive finite value [m * 2^e]
    with [1 <= m * 2^e] *)
Definition ratio_ge_one (r : spec_float) : Prop :=
  match r with
  | S754_infinity false => True
  | S754_finite false m e => 0 <= e \/ 2 ^ (- e) <= Zpos m
  | _ => False
  end.

(** one channel with an infinite sample *)
Definition infiniteBlock : AudioBuffer := [[S754_infinity false; F32.zero]].

(** a band given the default parameters at 44100 Hz: attack 10 ms,
    release 100 ms, threshold -20 dB, ratio 4 *)
Definition defaultBand : @DynamicEQBand.t Stub.juce :=
  @DynamicEQBand.updateParams Stub.juce freshBand BandParams.default.

(** the default parameters with the threshold at minus infinity *)
Definition bottomlessParams : BandParams.t :=
  {| BandParams.frequency := F32.of_Z 1000;
     BandParams.gain := F32.zero;
     BandParams.q := F32.one;
     BandParams.threshold := S754_infinity true;
     BandParams.ratio := F32.of_Z 4;
     BandParams.attackMs := F32.of_Z 10;
     BandParams.releaseMs := F32.of_Z 100;
     BandParams.enabled := true;
     BandParams.dynamicOn := true;
     BandParams.type := BandParams.Peak |}.

Definition bottomlessBand : @DynamicEQBand.t Stub.juce :=
  @DynamicEQBand.updateParams Stub.juce freshBand bottomlessParams.

(** * The rest of the plugin

    The code around the places above: the saved state of the processor,
    the editor's band buttons and strip layout, and the mouse interaction
    and spectrum smoothing of [SpectrumComponent]. *)

(** [juce::jlimit (lowerLimit, upperLimit, value)] on [float] *)
Definition jlimitf (lo hi v : float) : float :=
  if SFltb v lo then lo else if SFltb hi v then hi else v.

(** ** [getStateInformation] and [setStateInformation]

    The value tree, its XML form and the binary block are JUCE's. *)
Class JuceState := {
  ValueTree : Type;
  XmlElement : Type;
  MemoryBlock : Type;
  (** [apvts.copyState()] and [apvts.replaceState (tree)], on the raw
      parameter values *)
  copyState : (Z -> string -> float) -> ValueTree;
  replaceState : (Z -> string -> float) -> ValueTree -> (Z -> string -> float);
  (** [tree.setProperty (name, int, nullptr)], [tree.hasProperty (name)]
      and [static_cast<int> (tree.getProperty (name))] *)
  setProperty : ValueTree -> string -> Z -> ValueTree;
  hasProperty : ValueTree -> string -> bool;
  getPropertyInt : ValueTree -> string -> Z;
  createXml : ValueTree -> XmlElement;
  fromXml : XmlElement -> ValueTree;
  hasTagName : XmlElement -> string -> bool;
  copyXmlToBinary : XmlElement -> MemoryBlock;
  (** [nullptr] is [None] *)
  getXmlFromBinary : MemoryBlock -> option XmlElement
}.

Module ProcessorState.
Section WithJuce.
Context `{Juce} `{JuceState}.
Import DynamicEQAudioProcessor.

(** the type of [apvts.state], given to the constructor of [apvts] *)
Definition stateType : string := "Parameters".

Definition getStateInformation (p : DynamicEQAudioProcessor.t) : MemoryBlock :=
  let state := copyState (apvts p) in
  let state := setProperty state "activeBandCount" (activeBandCount p) in
  copyXmlToBinary (createXml state).

Definition setStateInformation (p : DynamicEQAudioProcessor.t) (data : MemoryBlock)
  : DynamicEQAudioProcessor.t :=
  match getXmlFromBinary data with
  | Some xml =>
      if hasTagName xml stateType then
        let tree := fromXml xml in
        {| apvts := replaceState (apvts p) tree;
           activeBandCount :=
             if hasProperty tree "activeBandCount"
             then jlimit 1 numBands (getPropertyInt tree "activeBandCount")
             else activeBandCount p;
           bands := bands p;
           preSpectrum := preSpectrum p;
           postSpectrum := postSpectrum p;
           lastSampleRate := lastSampleRate p;
           totalNumInputChannels := totalNumInputChannels p;
           totalNumOutputChannels := totalNumOutputChannels p |}
      else p
  | None => p
  end.
End WithJuce.
End ProcessorState.

(** ** [class DynamicEQAudioProcessorEditor]: the band buttons and the
    control strips *)
Module DynamicEQAudioProcessorEditor.
Definition stripMinW : Z := 220.
Definition stripMaxW : Z := 250.

(** the arguments of [setBounds (x, y, w, h)] *)
Definition Bounds : Type := Z * Z * Z * Z.

Record t := {
  controlAreaCollapsed : bool;
  stripVisible : list bool;            (* bandStrips[i]->isVisible() *)
  stripBounds : list Bounds;           (* the bounds given to bandStrips[i] *)
  containerBounds : Bounds;            (* the bounds given to controlContainer *)
  addBandBtnEnabled : bool;
  removeBandBtnEnabled : bool
}.

Section WithJuce.
Context `{Juce}.

Definition updateBandVisibility (p : DynamicEQAudioProcessor.t) (ed : t) : t :=
  let active := DynamicEQAudioProcessor.getActiveBandCount p in
  {| controlAreaCollapsed := controlAreaCollapsed ed;
     stripVisible :=
       imap (fun i _ => (Z.of_nat i <? active) && negb (controlAreaCollapsed ed))
            (stripVisible ed);
     stripBounds := stripBounds ed;
     containerBounds := containerBounds ed;
     addBandBtnEnabled := active <? DynamicEQAudioProcessor.numBands;
     removeBandBtnEnabled := 1 <? active |}.

(** the width of a strip in [resized()]: the share of the visible width,
    limited to [stripMinW .. stripMaxW] *)
Definition stripWidth (active areaW : Z) : Z :=
  let natural := if 0 <? active then Z.quot areaW active else areaW in
  jlimit stripMinW stripMaxW natural.

(** the control area in [resized()]; [areaW] and [contH] are
    [controlViewport.getMaximumVisibleWidth()] and
    [controlViewport.getMaximumVisibleHeight()] *)
Definition resized (p : DynamicEQAudioProcessor.t) (areaW contH : Z) (ed : t) : t :=
  if negb (controlAreaCollapsed ed) then
    let active := DynamicEQAudioProcessor.getActiveBandCount p in
    let stripW := stripWidth active areaW in
    let totalW := stripW * active in
    let contW := Z.max totalW areaW in
    {| controlAreaCollapsed := controlAreaCollapsed ed;
       stripVisible := stripVisible ed;
       stripBounds :=
         imap (fun i old =>
                 if Z.of_nat i <? active
                 then (Z.of_nat i * stripW + 3, 4, stripW - 6, contH - 8)
                 else old)
              (stripBounds ed);
       containerBounds := (0, 0, contW, contH);
       addBandBtnEnabled := addBandBtnEnabled ed;
       removeBandBtnEnabled := removeBandBtnEnabled ed |}
  else ed.

(** [addBandBtn.onClick] and [removeBandBtn.onClick] *)
Definition addBandClicked (areaW contH : Z) (st : DynamicEQAudioProcessor.t * t)
  : DynamicEQAudioProcessor.t * t :=
  let '(p, ed) := st in
  let p1 := DynamicEQAudioProcessor.setActiveBandCount p
              (DynamicEQAudioProcessor.getActiveBandCount p + 1) in
  (p1, resized p1 areaW contH (updateBandVisibility p1 ed)).

Definition removeBandClicked (areaW contH : Z) (st : DynamicEQAudioProcessor.t * t)
  : DynamicEQAudioProcessor.t * t :=
  let '(p, ed) := st in
  let p1 := DynamicEQAudioProcessor.setActiveBandCount p
              (DynamicEQAudioProcessor.getActiveBandCount p - 1) in
  (p1, resized p1 areaW contH (updateBandVisibility p1 ed)).

(** [collapseBtn.onClick] *)
Definition collapseClicked (areaW contH : Z) (st : DynamicEQAudioProcessor.t * t)
  : DynamicEQAudioProcessor.t * t :=
  let '(p, ed) := st in
  let ed1 := {| controlAreaCollapsed := negb (controlAreaCollapsed ed);
                stripVisible := stripVisible ed;
                stripBounds := stripBounds ed;
                containerBounds := containerBounds ed;
                addBandBtnEnabled := addBandBtnEnabled ed;
                removeBandBtnEnabled := removeBandBtnEnabled ed |} in
  (p, resized p areaW contH (updateBandVisibility p ed1)).
End WithJuce.
End DynamicEQAudioProcessorEditor.

(** ** [SpectrumComponent]: the nodes, the mouse and the smoothed spectra *)

(** [std::log] on [float] and [juce::Point<float>::getDistanceFrom] *)
Class JuceGraphics := {
  logf : float -> float;
  getDistanceFrom : float * float -> float * float -> float
}.

Section Mapping.
Context `{JuceGraphics} `{JuceFFT}.

Definition freqToX (freq width minFreq maxFreq : float) : float :=
  F32.mul width (F32.div (logf (F32.div freq minFreq)) (logf (F32.div maxFreq minFreq))).

Definition dbToY (db height minDB maxDB : float) : float :=
  jmap db maxDB minDB F32.zero height.

Definition yToDb (y height minDB maxDB : float) : float :=
  jmap y F32.zero height maxDB minDB.
End Mapping.

Module SpectrumView.
Definition glowRadius : float := Eval vm_compute in F32.of_Z 22.
Definition minDB : float := Eval vm_compute in F32.of_Z (-24).
Definition maxDB : float := Eval vm_compute in F32.of_Z 24.
(** the literals [0.20f] and [0.55f] of [timerCallback] *)
Definition attackSmooth : float := Eval vm_compute in F32.div (F32.of_Z 1) (F32.of_Z 5).
Definition releaseSmooth : float := Eval vm_compute in F32.div (F32.of_Z 11) (F32.of_Z 20).

Record t := {
  preSpectrumData : list float;        (* std::array<float, fftSize / 2> *)
  postSpectrumData : list float;
  smoothedPreSpectrum : list float;
  smoothedPostSpectrum : list float;
  dragBandIndex : Z;
  hoveredBand : Z;
  dragStartMouseX : float;
  dragStartFreq : float;
  dragGainBias : float
}.

(** the constructor *)
Definition init : t := {|
  preSpectrumData := replicate (Z.to_nat (SpectrumAnalyzer.fftSize / 2)) F32.zero;
  postSpectrumData := replicate (Z.to_nat (SpectrumAnalyzer.fftSize / 2)) F32.zero;
  smoothedPreSpectrum := replicate (Z.to_nat (SpectrumAnalyzer.fftSize / 2)) F32.zero;
  smoothedPostSpectrum := replicate (Z.to_nat (SpectrumAnalyzer.fftSize / 2)) F32.zero;
  dragBandIndex := -1;
  hoveredBand := -1;
  dragStartMouseX := F32.zero;
  dragStartFreq := F32.zero;
  dragGainBias := F32.zero
|}.

(** one bin of the smoothing loop of [timerCallback] *)
Definition smoothBin (smoothed data : float) : float :=
  let coeff := if fgt data smoothed then attackSmooth else releaseSmooth in
  F32.add (F32.mul coeff smoothed) (F32.mul (F32.sub F32.one coeff) data).

Section WithJuce.
Context `{Juce} `{JuceFFT} `{JuceGraphics}.

(** the position of the node of band [i] in a component of the given
    width and height, as [drawNode] and [hitTestNode] compute it *)
Definition nodePosition (p : DynamicEQAudioProcessor.t) (i : Z) (width height : float)
  : float * float :=
  let v := DynamicEQAudioProcessor.apvts p i in
  let freq := v "freq"%string in
  let gain := v "gain"%string in
  let gr := DynamicEQAudioProcessor.getBandGainReduction p i in
  let type := F32.to_int (v "type"%string) in
  let displayGain := if 3 <=? type then F32.zero else F32.sub gain gr in
  (freqToX freq width SpectrumComponent.minFreqHz SpectrumComponent.maxFreqHz,
   dbToY displayGain height minDB maxDB).

(** the loop of [hitTestNode] over the band indices still to visit *)
Fixpoint hitTestFrom (p : DynamicEQAudioProcessor.t) (width height : float)
    (pos : float * float) (todo : list nat) : Z :=
  match todo with
  | [] => -1
  | i :: rest =>
      let enabled :=
        fgt (DynamicEQAudioProcessor.apvts p (Z.of_nat i) "enabled"%string) F32.c0_5 in
      if negb enabled then hitTestFrom p width height pos rest
      else
        let dist := getDistanceFrom pos (nodePosition p (Z.of_nat i) width height) in
        if SFleb dist glowRadius then Z.of_nat i
        else hitTestFrom p width height pos rest
  end.

(** [getWidth] and [getHeight] are the size of the component *)
Definition hitTestNode (p : DynamicEQAudioProcessor.t) (getWidth getHeight : Z)
    (pos : float * float) : Z :=
  hitTestFrom p (F32.of_Z getWidth) (F32.of_Z getHeight) pos
    (seq 0 (Z.to_nat (DynamicEQAudioProcessor.getActiveBandCount p))).

Definition beginDrag (p : DynamicEQAudioProcessor.t) (getHeight : Z) (v : t)
    (bandIndex : Z) (mousePos : float * float) : t :=
  let height := F32.of_Z getHeight in
  let startGain := DynamicEQAudioProcessor.apvts p bandIndex "gain"%string in
  let clampedY := jlimitf F32.zero height (snd mousePos) in
  {| preSpectrumData := preSpectrumData v;
     postSpectrumData := postSpectrumData v;
     smoothedPreSpectrum := smoothedPreSpectrum v;
     smoothedPostSpectrum := smoothedPostSpectrum v;
     dragBandIndex := dragBandIndex v;
     hoveredBand := hoveredBand v;
     dragStartMouseX := fst mousePos;
     dragStartFreq := DynamicEQAudioProcessor.apvts p bandIndex "freq"%string;
     dragGainBias := F32.sub startGain (yToDb clampedY height minDB maxDB) |}.

(** What [performDrag] asks of the parameters: the frequency handed to
    [convertTo0to1] of the "freq" parameter and, for the types with a
    gain, the gain handed to that of the "gain" parameter. *)
Definition performDrag (p : DynamicEQAudioProcessor.t) (getWidth getHeight : Z) (v : t)
    (bandIndex : Z) (pos : float * float) : float * option float :=
  let width := F32.of_Z getWidth in
  let height := F32.of_Z getHeight in
  let startX := freqToX (dragStartFreq v) width
                  SpectrumComponent.minFreqHz SpectrumComponent.maxFreqHz in
  let targetX := jlimitf F32.zero width
                   (F32.add startX (F32.sub (fst pos) (dragStartMouseX v))) in
  let freq := jlimitf SpectrumComponent.minFreqHz SpectrumComponent.maxFreqHz
                (SpectrumComponent.xToFreq targetX width
                   SpectrumComponent.minFreqHz SpectrumComponent.maxFreqHz) in
  let filterType := F32.to_int (DynamicEQAudioProcessor.apvts p bandIndex "type"%string) in
  (freq,
   if filterType <? 3 then
     let clampedY := jlimitf F32.zero height (snd pos) in
     Some (jlimitf minDB maxDB
             (F32.add (yToDb clampedY height minDB maxDB) (dragGainBias v)))
   else None).

Definition setDragBandIndex (v : t) (i : Z) : t :=
  {| preSpectrumData := preSpectrumData v;
     postSpectrumData := postSpectrumData v;
     smoothedPreSpectrum := smoothedPreSpectrum v;
     smoothedPostSpectrum := smoothedPostSpectrum v;
     dragBandIndex := i;
     hoveredBand := hoveredBand v;
     dragStartMouseX := dragStartMouseX v;
     dragStartFreq := dragStartFreq v;
     dragGainBias := dragGainBias v |}.

Definition mouseDown (p : DynamicEQAudioProcessor.t) (getWidth getHeight : Z) (v : t)
    (position : float * float) : t :=
  let v1 := setDragBandIndex v (hitTestNode p getWidth getHeight position) in
  if 0 <=? dragBandIndex v1
  then beginDrag p getHeight v1 (dragBandIndex v1) position
  else v1.

(** the requests of [mouseDrag], none when no node is held *)
Definition mouseDrag (p : DynamicEQAudioProcessor.t) (getWidth getHeight : Z) (v : t)
    (position : float * float) : option (Z * (float * option float)) :=
  if 0 <=? dragBandIndex v
  then Some (dragBandIndex v,
             performDrag p getWidth getHeight v (dragBandIndex v) position)
  else None.

Definition mouseUp (v : t) : t := setDragBandIndex v (-1).

(** [timerCallback]: the transforms, the smoothing and the curve check;
    the processor after the call (its analyzers), the spectra and the
    curve cache *)
Definition timerCallback (p : DynamicEQAudioProcessor.t) (v : t) (c : SpectrumComponent.t)
  : DynamicEQAudioProcessor.t * t * SpectrumComponent.t :=
  let minus100 := DynamicEQBand.minus100 in
  let preSA := DynamicEQAudioProcessor.preSpectrum p in
  let '(preSA1, pre) :=
    if SpectrumAnalyzer.isNewDataAvailable preSA
    then SpectrumAnalyzer.processFFT preSA (preSpectrumData v) minus100 F32.zero
    else (preSA, preSpectrumData v) in
  let postSA := DynamicEQAudioProcessor.postSpectrum p in
  let '(postSA1, post) :=
    if SpectrumAnalyzer.isNewDataAvailable postSA
    then SpectrumAnalyzer.processFFT postSA (postSpectrumData v) minus100 F32.zero
    else (postSA, postSpectrumData v) in
  let p1 := DynamicEQAudioProcessor.setPostSpectrum
              (DynamicEQAudioProcessor.setPreSpectrum p preSA1) postSA1 in
  let v1 := {| preSpectrumData := pre;
               postSpectrumData := post;
               smoothedPreSpectrum := zip_with smoothBin (smoothedPreSpectrum v) pre;
               smoothedPostSpectrum := zip_with smoothBin (smoothedPostSpectrum v) post;
               dragBandIndex := dragBandIndex v;
               hoveredBand := hoveredBand v;
               dragStartMouseX := dragStartMouseX v;
               dragStartFreq := dragStartFreq v;
               dragGainBias := dragGainBias v |} in
  (p1, v1, SpectrumComponent.checkAndUpdateCurve p1 c).
End WithJuce.
End SpectrumView.

(** ** Vocabulary for the order of the floating-point comparisons *)

(** the place of a value in the order of [SFcompare]: the class (negative
    infinity, negative, zero, positive, positive infinity), then exponent
    and mantissa *)
Definition rank (x : spec_float) : Z * Z * Z :=
  match x with
  | S754_infinity true => (-2, 0, 0)
  | S754_finite true m e => (-1, - e, Zneg m)
  | S754_zero _ | S754_nan => (0, 0, 0)
  | S754_finite false m e => (1, e, Zpos m)
  | S754_infinity false => (2, 0, 0)
  end.

Definition rank_le (a b : Z * Z * Z) : Prop :=
  a.1.1 < b.1.1
  \/ (a.1.1 = b.1.1 /\ (a.1.2 < b.1.2 \/ (a.1.2 = b.1.2 /\ a.2 <= b.2))).

(** ** Vocabulary for the band and the processor *)

(** the same band with another sidechain filter *)
Definition withSidechain `{Juce} (b : DynamicEQBand.t) (f : DynamicEQBand.Filter)
  : DynamicEQBand.t :=
  {| DynamicEQBand.params := DynamicEQBand.params b;
     DynamicEQBand.sampleRate := DynamicEQBand.sampleRate b;
     DynamicEQBand.envelopeFollower := DynamicEQBand.envelopeFollower b;
     DynamicEQBand.filters := DynamicEQBand.filters b;
     DynamicEQBand.sidechainFilter := f;
     DynamicEQBand.gainReductionDB := DynamicEQBand.gainReductionDB b |}.

(** a smoothing coefficient in [0, 1], in canonical form *)
Definition unitCoefficient (c : float) : bool :=
  valid_binary F32.prec F32.emax c && SFleb F32.zero c && SFleb c F32.one.

(** a level: finite and not negative *)
Definition isLevel (x : float) : bool := is_finite x && SFleb F32.zero x.

(** the array of bands is complete and the active count is within it *)
Definition wellFormed `{Juce} (p : DynamicEQAudioProcessor.t) : Prop :=
  length (DynamicEQAudioProcessor.bands p) = Z.to_nat DynamicEQAudioProcessor.numBands
  /\ 1 <= DynamicEQAudioProcessor.activeBandCount p <= DynamicEQAudioProcessor.numBands.
(** ** Vocabulary for the analyzer and the curve cache *)

(** the arrays of the analyzer have their sizes and its two counters are
    within them *)
Definition inBounds (s : SpectrumAnalyzer.t) : Prop :=
  length (SpectrumAnalyzer.circularBuffer s) = Z.to_nat SpectrumAnalyzer.fftSize
  /\ length (SpectrumAnalyzer.fftData s) = Z.to_nat (SpectrumAnalyzer.fftSize * 2)
  /\ 0 <= SpectrumAnalyzer.writePos s < SpectrumAnalyzer.fftSize
  /\ 0 <= SpectrumAnalyzer.hopCounter s < SpectrumAnalyzer.hopSize.
(** ** Vocabulary for the nodes *)

(** the node of band [i] is shown (the band is enabled) and the point is
    within [glowRadius] of it *)
Definition nodeHit `{Juce} `{JuceFFT} `{JuceGraphics} (p : DynamicEQAudioProcessor.t)
    (width height : float) (pos : float * float) (i : Z) : bool :=
  fgt (DynamicEQAudioProcessor.apvts p i "enabled"%string) F32.c0_5
  && SFleb (getDistanceFrom pos (SpectrumView.nodePosition p i width height))
           SpectrumView.glowRadius.

(** within the limits, or a NaN *)
Definition limited (lo hi v : float) : Prop :=
  is_nan v = true \/ (SFleb lo v = true /\ SFleb v hi = true).
(** ** A test double for the saved state

    Trees with a type, integer properties and the raw parameter values;
    the XML form is the tree itself and a binary block holds a tree or
    nothing that parses. *)
Module StubState.
Record Tree := {
  treeType : string;
  properties : list (string * Z);
  values : Z -> string -> float
}.

Definition setProperty (t : Tree) (name : string) (n : Z) : Tree :=
  {| treeType := treeType t;
     properties := (name, n) :: properties t;
     values := values t |}.

Definition findProperty (t : Tree) (name : string) : option (string * Z) :=
  find (fun kv => String.eqb (fst kv) name) (properties t).

Definition hasProperty (t : Tree) (name : string) : bool :=
  match findProperty t name with Some _ => true | None => false end.

Definition getPropertyInt (t : Tree) (name : string) : Z :=
  match findProperty t name with Some kv => snd kv | None => 0 end.

Definition juceState : JuceState :=
  Build_JuceState Tree Tree (option Tree)
    (fun v => {| treeType := "Parameters"; properties := []; values := v |})
    (fun _ t => values t)
    setProperty hasProperty getPropertyInt
    (fun t => t) (fun x => x)
    (fun x name => String.eqb (treeType x) name)
    Some (fun data => data).
End StubState.

(** ** Further inputs of the examples *)

(** parameters whose type is outside the enumeration *)
Definition strayTypeParams : BandParams.t := paramsTypeQ 7 F32.one.

(** the editor as constructed: eight strips, the control area shown *)
Definition exampleEditor : DynamicEQAudioProcessorEditor.t :=
  {| DynamicEQAudioProcessorEditor.controlAreaCollapsed := false;
     DynamicEQAudioProcessorEditor.stripVisible := replicate 8 false;
     DynamicEQAudioProcessorEditor.stripBounds := replicate 8 (0, 0, 0, 0);
     DynamicEQAudioProcessorEditor.containerBounds := (0, 0, 0, 0);
     DynamicEQAudioProcessorEditor.addBandBtnEnabled := true;
     DynamicEQAudioProcessorEditor.removeBandBtnEnabled := true |}.

(** the curve cache of a component 800 pixels wide, before its first
    check: every recorded snapshot is that of a disabled band *)
Definition wideComponent : SpectrumComponent.t :=
  SpectrumComponent.resized SpectrumComponent.init 800.

(** that component after its first check on [exampleProcessor], which
    records the snapshots (gain reduction 0) and rebuilds *)
Definition settledComponent : SpectrumComponent.t :=
  @SpectrumComponent.checkAndUpdateCurve Stub.juce exampleProcessor wideComponent.

(** [exampleProcessor] after band 0 has published a gain reduction of
    1/16 dB *)
Definition furtherDriftedProcessor : @DynamicEQAudioProcessor.t Stub.juce :=
  DynamicEQAudioProcessor.setBands exampleProcessor
    (<[0%nat := DynamicEQBand.setGainReduction freshBand (S754_finite false 8388608 (-27))]>
       (DynamicEQAudioProcessor.bands exampleProcessor)).

(** a saved state that holds an active band count of 12 *)
Definition oversizedState : option StubState.Tree :=
  Some {| StubState.treeType := "Parameters";
          StubState.properties := [("activeBandCount"%string, 12)];
          StubState.values := defaultTree |}.

(** * Properties *)

(** ** Comparisons *)

Lemma SFcompare_antisym (x y : spec_float) :
  SFcompare y x = option_map CompOpp (SFcompare x y).
Proof.
  destruct x as [sx|sx| |sx mx ex], y as [sy|sy| |sy my ey]; simpl;
    try reflexivity;
    try (destruct sx; reflexivity); try (destruct sy; reflexivity);
    try (destruct sx, sy; reflexivity).
  rewrite (Z.compare_antisym ey ex).
  change (Pos.compare_cont Eq my mx) with (Pos.compare my mx).
  change (Pos.compare_cont Eq mx my) with (Pos.compare mx my).
  rewrite (Pos.compare_antisym my mx).
  destruct sx, sy; simpl; try reflexivity;
    destruct (ey ?= ex); simpl; try reflexivity;
    destruct (my ?= mx)%positive; reflexivity.
Qed.

(** [a <= b] excludes [a > b]. *)
Lemma SFleb_not_gt (a b : spec_float) : SFleb a b = true -> fgt a b = false.
Proof.
  unfold fgt, SFleb, SFltb. rewrite (SFcompare_antisym a b).
  destruct (SFcompare a b) as [[]|]; simpl; congruence.
Qed.

(** [x - 0.0f] is [x], for every binary32 value. *)
Lemma F32_sub_zero (x : spec_float) : F32.sub x F32.zero = x.
Proof. destruct x as [[]|[]| |s m e]; reflexivity. Qed.

(** ** Rounding in [SpecFloat]

    What the proofs about the gain computer need of [SFsub] and [SFdiv]:
    the sign and the range of a rounded result, and that rounding a
    quotient not above a value of the format stays not above it. *)


Section Pow2.

Lemma pow2_pos (n : Z) : 0 <= n -> 0 < 2 ^ n.
Proof. intros Hn. apply Z.pow_pos_nonneg; lia. Qed.

Lemma pow2_split (a b : Z) : 0 <= a -> 0 <= b -> 2 ^ (a + b) = 2 ^ a * 2 ^ b.
Proof. intros Ha Hb. now apply Z.pow_add_r. Qed.

Lemma pow2_le (a b : Z) : 0 <= a <= b -> 2 ^ a <= 2 ^ b.
Proof. intros H. apply Z.pow_le_mono_r; lia. Qed.

Lemma pow2_lt (a b : Z) : 0 <= a < b -> 2 ^ a < 2 ^ b.
Proof. intros H. apply Z.pow_lt_mono_r; lia. Qed.

Lemma pow2_lt_inv (a b : Z) : 0 <= a -> 0 <= b -> 2 ^ a < 2 ^ b -> a < b.
Proof.
  intros Ha Hb Hlt. destruct (Z_lt_le_dec a b) as [Hab|Hab]; [exact Hab|].
  pose proof (pow2_le b a ltac:(lia)). lia.
Qed.

(** cancelling a power of two *)
Lemma mul_pow2_le_inv (a b n : Z) : 0 <= n -> a * 2 ^ n <= b * 2 ^ n -> a <= b.
Proof. intros Hn H. pose proof (pow2_pos n Hn). nia. Qed.

Lemma mul_pow2_lt_inv (a b n : Z) : 0 <= n -> a * 2 ^ n < b * 2 ^ n -> a < b.
Proof. intros Hn H. pose proof (pow2_pos n Hn). nia. Qed.

Lemma Fle_at (m1 e1 m2 e2 E : Z) :
  E <= e1 -> E <= e2 ->
  m1 * 2 ^ (e1 - E) <= m2 * 2 ^ (e2 - E) -> Fle m1 e1 m2 e2.
Proof.
  intros H1 H2 H. unfold Fle. set (M := Z.min e1 e2).
  assert (HM : E <= M) by (unfold M; lia).
  apply (mul_pow2_le_inv _ _ (M - E)); [lia|].
  rewrite <- !Z.mul_assoc, <- !pow2_split by (unfold M; lia).
  replace (e1 - M + (M - E)) with (e1 - E) by lia.
  replace (e2 - M + (M - E)) with (e2 - E) by lia. exact H.
Qed.
End Pow2.

Section Digits.

Lemma digits2_pos_bounds (m : positive) :
  2 ^ (Zpos (digits2_pos m) - 1) <= Zpos m < 2 ^ Zpos (digits2_pos m).
Proof.
  induction m as [m IH|m IH|]; cbn [digits2_pos].
  - rewrite Pos2Z.inj_succ. replace (Z.succ (Zpos (digits2_pos m)) - 1)
      with (Z.succ (Zpos (digits2_pos m) - 1)) by lia.
    rewrite !Z.pow_succ_r by lia. lia.
  - rewrite Pos2Z.inj_succ. replace (Z.succ (Zpos (digits2_pos m)) - 1)
      with (Z.succ (Zpos (digits2_pos m) - 1)) by lia.
    rewrite !Z.pow_succ_r by lia. lia.
  - cbn. lia.
Qed.

Lemma Zdigits2_nonneg (m : Z) : 0 <= Zdigits2 m.
Proof. destruct m; cbn; lia. Qed.

Lemma Zdigits2_bounds (m : Z) :
  0 < m -> 0 < Zdigits2 m /\ 2 ^ (Zdigits2 m - 1) <= m < 2 ^ Zdigits2 m.
Proof.
  destruct m as [|p|p]; try lia. intros _. cbn [Zdigits2].
  split; [lia | apply digits2_pos_bounds].
Qed.

(** fewer than [k] digits below [2^k] *)
Lemma Zdigits2_le (m k : Z) : 0 <= m < 2 ^ k -> 0 <= k -> Zdigits2 m <= k.
Proof.
  intros [Hm Hlt] Hk. destruct (Z.eq_dec m 0) as [->|Hne]; [cbn; lia|].
  destruct (Zdigits2_bounds m ltac:(lia)) as [Hd [Hlo _]].
  assert (2 ^ (Zdigits2 m - 1) < 2 ^ k) by lia.
  apply pow2_lt_inv in H; lia.
Qed.

Lemma Zdigits2_gt (m k : Z) : 0 <= k -> 2 ^ k <= m -> k < Zdigits2 m.
Proof.
  intros Hk Hle. pose proof (pow2_pos k Hk).
  destruct (Zdigits2_bounds m ltac:(lia)) as [Hd [_ Hhi]].
  assert (2 ^ k < 2 ^ Zdigits2 m) by lia.
  apply pow2_lt_inv in H0; lia.
Qed.

Lemma Zdigits2_unique (m d : Z) :
  0 < d -> 2 ^ (d - 1) <= m < 2 ^ d -> Zdigits2 m = d.
Proof.
  intros Hd [Hlo Hhi].
  pose proof (Zdigits2_gt m (d - 1) ltac:(lia) Hlo).
  pose proof (pow2_pos (d - 1) ltac:(lia)).
  pose proof (Zdigits2_le m d ltac:(lia) ltac:(lia)). lia.
Qed.

Lemma Zdigits2_shl (m d : Z) : 0 < m -> 0 <= d -> Zdigits2 (m * 2 ^ d) = Zdigits2 m + d.
Proof.
  intros Hm Hd. destruct (Zdigits2_bounds m Hm) as [Hdg [Hlo Hhi]].
  pose proof (pow2_pos d Hd).
  apply Zdigits2_unique; [lia|].
  replace (Zdigits2 m + d - 1) with (Zdigits2 m - 1 + d) by lia.
  rewrite !pow2_split by lia. nia.
Qed.
End Digits.

Section Shr.

Lemma iter_pos_invariant {A : Type} (f : A -> A) (P : Z -> A -> Prop) :
  (forall k x, 0 <= k -> P k x -> P (k + 1) (f x)) ->
  forall p k x, 0 <= k -> P k x -> P (k + Zpos p) (SpecFloat.iter_pos f p x).
Proof.
  intros Hstep. induction p as [p IH|p IH|]; intros k x Hk Hx; cbn [SpecFloat.iter_pos].
  - replace (k + Zpos p~1) with (k + 1 + Zpos p + Zpos p) by lia.
    apply IH; [lia|]. apply IH; [lia|]. now apply Hstep.
  - replace (k + Zpos p~0) with (k + Zpos p + Zpos p) by lia.
    apply IH; [lia|]. now apply IH.
  - now apply Hstep.
Qed.

Lemma shr_record_of_loc_m (m : Z) (l : location) : shr_m (shr_record_of_loc m l) = m.
Proof. destruct l as [|[]]; reflexivity. Qed.

Lemma shr_1_m (mrs : shr_record) :
  0 <= shr_m mrs -> shr_m (shr_1 mrs) = shr_m mrs / 2.
Proof.
  destruct mrs as [m r s]. cbn [shr_m]. intros Hm.
  rewrite <- Z.div2_div. destruct m as [|[p|p|]|p]; try reflexivity. lia.
Qed.

Lemma shr_1_exact (mrs : shr_record) :
  shr_r mrs = false -> shr_s mrs = false -> Z.even (shr_m mrs) = true ->
  shr_r (shr_1 mrs) = false /\ shr_s (shr_1 mrs) = false.
Proof.
  destruct mrs as [m r s]. cbn [shr_m shr_r shr_s]. intros -> -> Hev.
  destruct m as [|[p|p|]|[p|p|]]; cbn in Hev |- *; try discriminate; auto.
Qed.

(** a multiple of [2^(k+1)], divided by [2^k], is even *)
Lemma even_quotient (m k : Z) :
  0 <= k -> m mod 2 ^ (k + 1) = 0 -> Z.even (m / 2 ^ k) = true.
Proof.
  intros Hk Hmod. pose proof (pow2_pos k Hk) as Hp.
  apply Z.mod_divide in Hmod; [|pose proof (pow2_pos (k + 1)); lia].
  destruct Hmod as [c ->]. rewrite pow2_split by lia.
  change (2 ^ 1) with 2.
  replace (c * (2 ^ k * 2)) with (2 * c * 2 ^ k) by lia.
  rewrite Z.div_mul by lia. apply Z.even_mul.
Qed.

Lemma mod_pow2_weaken (m k : Z) :
  0 <= k -> m mod 2 ^ (k + 1) = 0 -> m mod 2 ^ k = 0.
Proof.
  intros Hk Hmod. pose proof (pow2_pos k Hk) as Hp.
  apply Z.mod_divide in Hmod; [|pose proof (pow2_pos (k + 1)); lia].
  destruct Hmod as [c ->]. rewrite pow2_split by lia.
  replace (c * (2 ^ k * 2 ^ 1)) with (c * 2 ^ 1 * 2 ^ k) by lia.
  apply Z_mod_mult.
Qed.

(** [shr] by [n] places: the exponent, the mantissa, and exactness *)
Lemma shr_spec (m : Z) (l : location) (e n : Z) :
  0 <= m -> 0 <= n ->
  snd (shr (shr_record_of_loc m l) e n) = e + n
  /\ shr_m (fst (shr (shr_record_of_loc m l) e n)) = m / 2 ^ n
  /\ (l = loc_Exact -> m mod 2 ^ n = 0 ->
      loc_of_shr_record (fst (shr (shr_record_of_loc m l) e n)) = loc_Exact).
Proof.
  intros Hm Hn. destruct n as [|p|p]; [| |lia].
  - cbn [shr fst snd]. rewrite shr_record_of_loc_m, Z.add_0_r, Z.div_1_r.
    split; [reflexivity|]. split; [reflexivity|]. now intros -> _.
  - cbn [shr fst snd]. split; [reflexivity|].
    pose (P := fun k mrs =>
                 shr_m mrs = m / 2 ^ k
                 /\ (l = loc_Exact -> m mod 2 ^ k = 0 ->
                     shr_r mrs = false /\ shr_s mrs = false)).
    assert (HP : P (0 + Zpos p) (SpecFloat.iter_pos shr_1 p (shr_record_of_loc m l))).
    { apply (iter_pos_invariant shr_1 P); [|lia|].
      - intros k x Hk [Hx Hex]. split.
        + rewrite shr_1_m, Hx by (rewrite Hx; apply Z.div_pos; [lia|now apply pow2_pos]).
          rewrite Z.div_div by (try lia; pose proof (pow2_pos k Hk); lia).
          rewrite pow2_split by lia. reflexivity.
        + intros Hl Hmod.
          destruct (Hex Hl (mod_pow2_weaken m k Hk Hmod)) as [Hr Hs].
          apply shr_1_exact; auto. rewrite Hx. now apply even_quotient.
      - split; [rewrite shr_record_of_loc_m; now rewrite Z.div_1_r|].
        now intros -> _. }
    rewrite Z.add_0_l in HP. destruct HP as [HPm HPe].
    split; [exact HPm|]. intros Hl Hmod. destruct (HPe Hl Hmod) as [Hr Hs].
    destruct (SpecFloat.iter_pos shr_1 p (shr_record_of_loc m l)) as [m' r' s'].
    cbn in Hr, Hs |- *. now rewrite Hr, Hs.
Qed.

Lemma round_nearest_even_cases (m : Z) (l : location) :
  round_nearest_even m l = m
  \/ (round_nearest_even m l = m + 1 /\ l <> loc_Exact).
Proof.
  destruct l as [|[]]; cbn [round_nearest_even].
  - now left.
  - destruct (Z.even m); [now left|]. right. split; [reflexivity|discriminate].
  - now left.
  - right. split; [reflexivity|discriminate].
Qed.
End Shr.

Section Rounding.
Variables prec emax : Z.
Hypothesis Hprec : 0 < prec.
Hypothesis Hemax : prec < emax.

Lemma fexp_ge_emin (e : Z) : emin prec emax <= fexp prec emax e.
Proof. unfold fexp. lia. Qed.

Lemma fexp_mono (a b : Z) : a <= b -> fexp prec emax a <= fexp prec emax b.
Proof. unfold fexp. lia. Qed.

Lemma shr_nonpos (mrs : shr_record) (e n : Z) : n <= 0 -> shr mrs e n = (mrs, e).
Proof. destruct n; [reflexivity|lia|reflexivity]. Qed.

Lemma shr_fexp_spec (m e : Z) (l : location) :
  0 <= m -> e <= fexp prec emax (Zdigits2 m + e) ->
  let e1 := fexp prec emax (Zdigits2 m + e) in
  snd (shr_fexp prec emax m e l) = e1
  /\ shr_m (fst (shr_fexp prec emax m e l)) = m / 2 ^ (e1 - e)
  /\ (l = loc_Exact -> m mod 2 ^ (e1 - e) = 0 ->
      loc_of_shr_record (fst (shr_fexp prec emax m e l)) = loc_Exact).
Proof.
  intros Hm He e1. unfold shr_fexp. fold e1.
  destruct (shr_spec m l e (e1 - e) Hm ltac:(lia)) as (Hs & Hmm & Hex).
  split; [rewrite Hs; lia|]. split; assumption.
Qed.

(** What [binary_round_aux] returns for a mantissa [m >= 0] that carries
    enough digits: with [e1] the target exponent and [m1] the mantissa
    truncated to it, the result is [m1] or [m1 + 1] at [e1], renormalised;
    it is [m1 + 1] only when the input was not exact. *)
Lemma binary_round_aux_spec (s : bool) (m e : Z) (l : location) :
  0 <= m -> e <= fexp prec emax (Zdigits2 m + e) ->
  let e1 := fexp prec emax (Zdigits2 m + e) in
  let m1 := m / 2 ^ (e1 - e) in
  exists m2 e2,
    binary_round_aux prec emax s m e l = finish prec emax s m2 e2
    /\ 0 <= m2 < 2 ^ prec
    /\ e1 <= e2
    /\ (m2 * 2 ^ (e2 - e1) = m1
        \/ (m2 * 2 ^ (e2 - e1) = m1 + 1
            /\ (l <> loc_Exact \/ m mod 2 ^ (e1 - e) <> 0)))
    /\ (2 ^ (prec - 1) <= m2 \/ e2 = emin prec emax)
    /\ (2 ^ (prec - 1) <= m1 \/ e1 = emin prec emax).
Proof.
  intros Hm He e1 m1.
  pose proof (fexp_ge_emin (Zdigits2 m + e)) as Hemin. fold e1 in Hemin.
  pose proof (pow2_pos (e1 - e) ltac:(lia)) as Hp1.
  pose proof (pow2_pos prec ltac:(lia)) as Hpp.
  destruct (shr_fexp_spec m e l Hm He) as (Hs1 & Hm1 & Hex1).
  fold e1 in Hs1, Hm1, Hex1. fold m1 in Hm1.
  (* the truncated mantissa has at most [prec] digits *)
  assert (Hm1lo : 0 <= m1) by (apply Z.div_pos; lia).
  assert (Hm1hi : m1 < 2 ^ prec).
  { apply Z.div_lt_upper_bound; [lia|].
    destruct (Z.eq_dec m 0) as [->|Hne]; [nia|].
    destruct (Zdigits2_bounds m ltac:(lia)) as [Hd [_ Hhi]].
    assert (Hn : Zdigits2 m <= e1 - e + prec) by (unfold e1, fexp; lia).
    rewrite <- pow2_split by lia.
    pose proof (pow2_le (Zdigits2 m) (e1 - e + prec) ltac:(lia)). lia. }
  (* and is normal unless the exponent is the minimal one *)
  assert (Hnorm1 : 2 ^ (prec - 1) <= m1 \/ e1 = emin prec emax).
  { destruct (Z.eq_dec e1 (emin prec emax)) as [Heq|Hne]; [now right|left].
    assert (He1 : e1 = Zdigits2 m + e - prec) by (unfold e1, fexp in *; lia).
    assert (Hmpos : 0 < m).
    { destruct (Z.eq_dec m 0) as [->|]; [|lia]. cbn in He1. lia. }
    destruct (Zdigits2_bounds m Hmpos) as [Hd [Hlo _]].
    apply Z.div_le_lower_bound; [lia|].
    rewrite <- pow2_split by lia.
    replace (e1 - e + (prec - 1)) with (Zdigits2 m - 1) by lia. exact Hlo. }
  unfold binary_round_aux.
  destruct (shr_fexp prec emax m e l) as [mrs' e'] eqn:Hshr1.
  cbn [fst snd] in Hs1, Hm1, Hex1. subst e'.
  set (mr := round_nearest_even (shr_m mrs') (loc_of_shr_record mrs')).
  assert (Hmr : mr = m1 \/ (mr = m1 + 1 /\ (l <> loc_Exact \/ m mod 2 ^ (e1 - e) <> 0))).
  { destruct (round_nearest_even_cases (shr_m mrs') (loc_of_shr_record mrs'))
      as [H0|[H0 Hne]]; fold mr in H0; rewrite Hm1 in H0; [now left|right].
    split; [exact H0|].
    destruct l; [|left; discriminate].
    destruct (Z.eq_dec (m mod 2 ^ (e1 - e)) 0) as [Hz|Hnz]; [|now right].
    exfalso. apply Hne. now apply Hex1. }
  assert (Hmrb : 0 <= mr <= 2 ^ prec) by lia.
  destruct (Z_lt_le_dec mr (2 ^ prec)) as [Hlt|Hge].
  - (* no carry: the second shift does nothing *)
    assert (Hn2 : fexp prec emax (Zdigits2 mr + e1) - e1 <= 0).
    { pose proof (Zdigits2_le mr prec ltac:(lia) ltac:(lia)).
      unfold fexp. lia. }
    unfold shr_fexp at 1. rewrite (shr_nonpos _ _ _ Hn2).
    cbn [shr_record_of_loc shr_m].
    exists mr, e1. split; [reflexivity|]. split; [lia|]. split; [lia|].
    rewrite Z.sub_diag, Z.mul_1_r. split; [exact Hmr|].
    split; [|exact Hnorm1].
    destruct Hnorm1 as [Hn|Hn]; [left; lia | now right].
  - (* carry: the mantissa is [2^prec], shifted once *)
    assert (Hmr2 : mr = 2 ^ prec) by lia.
    assert (Hd2 : Zdigits2 mr = prec + 1).
    { apply Zdigits2_unique; [lia|]. rewrite Hmr2.
      replace (prec + 1 - 1) with prec by lia.
      pose proof (pow2_lt prec (prec + 1) ltac:(lia)). lia. }
    assert (Hn2 : fexp prec emax (Zdigits2 mr + e1) - e1 = 1)
      by (rewrite Hd2; unfold fexp; lia).
    destruct (shr_spec mr loc_Exact e1 1 ltac:(lia) ltac:(lia)) as (Hs2 & Hm2 & _).
    unfold shr_fexp at 1. rewrite Hn2.
    destruct (shr (shr_record_of_loc mr loc_Exact) e1 1) as [mrs'' e''].
    cbn [fst snd] in Hs2, Hm2. subst e''.
    assert (Hhalf : mr / 2 ^ 1 = 2 ^ (prec - 1)).
    { rewrite Hmr2. replace prec with (prec - 1 + 1) at 1 by lia.
      rewrite pow2_split by lia. apply Z.div_mul. cbn. lia. }
    rewrite Hm2, Hhalf.
    pose proof (pow2_pos (prec - 1) ltac:(lia)) as Hpm.
    pose proof (pow2_lt (prec - 1) prec ltac:(lia)) as Hplt.
    exists (2 ^ (prec - 1)), (e1 + 1).
    split; [reflexivity|]. split; [lia|]. split; [lia|].
    split; [|split; [left; lia | exact Hnorm1]].
    replace (e1 + 1 - e1) with 1 by lia.
    replace (2 ^ (prec - 1) * 2 ^ 1) with mr.
    + exact Hmr.
    + rewrite Hmr2. replace prec with (prec - 1 + 1) at 1 by lia.
      now rewrite pow2_split by lia.
Qed.
End Rounding.



Section Operations.
Variables prec emax : Z.
Hypothesis Hprec : 0 < prec.
Hypothesis Hemax : prec < emax.

Lemma nonneg_float_leb (x : spec_float) : nonneg_float x -> SFleb (S754_zero false) x = true.
Proof. destruct x as [s|s| |s m e]; cbn; try tauto; now intros ->. Qed.

Lemma shr_m_nonneg (m : Z) (l : location) (e n : Z) :
  0 <= m -> 0 <= shr_m (fst (shr (shr_record_of_loc m l) e n)).
Proof.
  intros Hm. destruct (Z_le_gt_dec n 0) as [Hn|Hn].
  - rewrite shr_nonpos by exact Hn. cbn [fst]. now rewrite shr_record_of_loc_m.
  - destruct (shr_spec m l e n Hm ltac:(lia)) as (_ & -> & _).
    apply Z.div_pos; [lia | apply pow2_pos; lia].
Qed.

(** Rounding a mantissa [m >= 0] gives a zero, a finite value or an
    infinity of the sign asked for, never a NaN. *)
Lemma binary_round_aux_sign (m e : Z) (l : location) :
  0 <= m -> nonneg_float (binary_round_aux prec emax false m e l).
Proof.
  intros Hm. unfold binary_round_aux, shr_fexp.
  pose proof (shr_m_nonneg m l e (fexp prec emax (Zdigits2 m + e) - e) Hm) as H1.
  destruct (shr (shr_record_of_loc m l) e _) as [mrs' e'].
  cbn [fst] in H1.
  set (mr := round_nearest_even (shr_m mrs') (loc_of_shr_record mrs')).
  assert (Hmr : 0 <= mr).
  { destruct (round_nearest_even_cases (shr_m mrs') (loc_of_shr_record mrs'))
      as [H0|[H0 _]]; fold mr in H0; lia. }
  pose proof (shr_m_nonneg mr loc_Exact e' (fexp prec emax (Zdigits2 mr + e') - e') Hmr) as H2.
  destruct (shr (shr_record_of_loc mr loc_Exact) e' _) as [mrs'' e''].
  cbn [fst] in H2.
  destruct (shr_m mrs'') as [|p|p]; cbn; [trivial| |lia].
  destruct (e'' <=? emax - prec); reflexivity.
Qed.

Lemma iter_xO (m d : positive) : Zpos (Pos.iter xO m d) = Zpos m * 2 ^ Zpos d.
Proof.
  rewrite <- Z.shiftl_mul_pow2 by lia. cbn [Z.shiftl].
  apply (Pos.iter_swap_gen _ _ Zpos xO (Z.mul 2)). reflexivity.
Qed.

Lemma shl_align_spec (mx : positive) (ex ez : Z) :
  ez <= ex ->
  shl_align mx ex ez = (Z.to_pos (Zpos mx * 2 ^ (ex - ez)), ez)
  /\ Zpos (fst (shl_align mx ex ez)) = Zpos mx * 2 ^ (ex - ez).
Proof.
  intros Hle. unfold shl_align.
  destruct (ez - ex) as [|d|d] eqn:Hd; try lia.
  - replace (ex - ez) with 0 by lia. rewrite Z.mul_1_r. cbn [fst Z.to_pos].
    split; [f_equal; lia | reflexivity].
  - replace (ex - ez) with (Zpos d) by lia. cbn [fst].
    rewrite <- iter_xO. split; reflexivity.
Qed.

Lemma shl_align_keep (mx : positive) (ex ez : Z) :
  ex <= ez -> shl_align mx ex ez = (mx, ex).
Proof.
  intros Hle. unfold shl_align. destruct (ez - ex) as [|d|d] eqn:Hd; try reflexivity. lia.
Qed.

(** [binary_round] never gives a NaN, and a finite result is within the
    format. *)
Lemma binary_round_class (mx : positive) (ex : Z) :
  nonneg_float (binary_round prec emax false mx ex)
  /\ representable prec emax (binary_round prec emax false mx ex).
Proof.
  unfold binary_round.
  set (ef := fexp prec emax (Zpos (digits2_pos mx) + ex)).
  destruct (shl_align mx ex ef) as [mz ez] eqn:Hal.
  split; [apply binary_round_aux_sign; lia|].
  assert (Hpre : ez <= fexp prec emax (Zdigits2 (Zpos mz) + ez)).
  { destruct (Z_le_gt_dec ex ef) as [Hle|Hgt].
    - rewrite shl_align_keep in Hal by exact Hle. injection Hal as <- <-. exact Hle.
    - destruct (shl_align_spec mx ex ef ltac:(lia)) as [Heq Hm].
      rewrite Hal in Hm. cbn [fst] in Hm.
      rewrite Hal in Heq. injection Heq as _ ->.
      rewrite Hm, Zdigits2_shl by lia. cbn [Zdigits2].
      replace (Zpos (digits2_pos mx) + (ex - ef) + ef)
        with (Zpos (digits2_pos mx) + ex) by lia.
      fold ef. lia. }
  destruct (binary_round_aux_spec prec emax Hprec false (Zpos mz) ez loc_Exact
              ltac:(lia) Hpre) as (m2 & e2 & -> & Hm2 & He2 & _ & _ & _).
  pose proof (fexp_ge_emin prec emax (Zdigits2 (Zpos mz) + ez)).
  unfold finish. destruct m2 as [|p|p]; cbn; [trivial| |trivial].
  destruct (e2 <=? emax - prec) eqn:Hov; cbn; [|trivial].
  apply Z.leb_le in Hov. lia.
Qed.
End Operations.

Section Arithmetic.
Variables prec emax : Z.
Hypothesis Hprec : 0 < prec.
Hypothesis Hemax : prec < emax.

(** What [bounded] says about a mantissa and an exponent. *)
Lemma bounded_spec (m : positive) (e : Z) :
  bounded prec emax m e = true ->
  Zpos m < 2 ^ prec
  /\ emin prec emax <= e <= emax - prec
  /\ (2 ^ (prec - 1) <= Zpos m \/ e = emin prec emax).
Proof.
  unfold bounded, canonical_mantissa. intros Hb.
  apply andb_prop in Hb. destruct Hb as [Hc He].
  apply Z.eqb_eq in Hc. apply Z.leb_le in He.
  pose proof (digits2_pos_bounds m) as [Hlo Hhi].
  set (d := Zpos (digits2_pos m)) in *.
  assert (Hd : d <= prec) by (unfold fexp in Hc; lia).
  split; [pose proof (pow2_le d prec ltac:(lia)); lia|].
  split; [unfold fexp in Hc; lia|].
  destruct (Z.eq_dec e (emin prec emax)) as [Heq|Hne]; [now right|left].
  assert (d = prec) by (unfold fexp in Hc; lia). subst d.
  now rewrite <- H.
Qed.

Lemma valid_representable (x : spec_float) :
  valid_binary prec emax x = true -> representable prec emax x.
Proof.
  destruct x as [s|s| |s m e]; cbn; trivial. intros Hb.
  destruct (bounded_spec m e Hb) as (H1 & H2 & _). tauto.
Qed.

(** of two canonical magnitudes, the one with the smaller exponent is the
    smaller one *)
Lemma smaller_exponent (m1 : positive) (e1 : Z) (m2 : positive) (e2 : Z) :
  bounded prec emax m1 e1 = true -> bounded prec emax m2 e2 = true ->
  e1 < e2 -> Zpos m1 < Zpos m2 * 2 ^ (e2 - e1).
Proof.
  intros Hb1 Hb2 Hlt.
  destruct (bounded_spec m1 e1 Hb1) as (Hm1 & He1 & _).
  destruct (bounded_spec m2 e2 Hb2) as (_ & He2 & [Hn|Hn]); [|lia].
  pose proof (pow2_le 1 (e2 - e1) ltac:(lia)) as Hp. change (2 ^ 1) with 2 in Hp.
  pose proof (pow2_pos (prec - 1) ltac:(lia)).
  assert (2 ^ prec = 2 ^ (prec - 1) * 2).
  { replace prec with (prec - 1 + 1) at 1 by lia. now rewrite pow2_split by lia. }
  nia.
Qed.

(** the two mantissas of [SFadd] and [SFsub], aligned at the smaller
    exponent *)
Lemma aligned (mx : positive) (ex : Z) (my : positive) (ey : Z) :
  Zpos (fst (shl_align mx ex (Z.min ex ey))) = Zpos mx * 2 ^ (ex - Z.min ex ey)
  /\ Zpos (fst (shl_align my ey (Z.min ex ey))) = Zpos my * 2 ^ (ey - Z.min ex ey).
Proof. split; apply shl_align_spec; lia. Qed.

(** [x > y] on canonical values: the aligned difference is positive *)
Lemma compare_gt_difference (sx : bool) (mx : positive) (ex : Z)
    (sy : bool) (my : positive) (ey : Z) :
  bounded prec emax mx ex = true -> bounded prec emax my ey = true ->
  SFcompare (S754_finite sx mx ex) (S754_finite sy my ey) = Some Gt ->
  0 < cond_Zopp sx (Zpos mx * 2 ^ (ex - Z.min ex ey))
      - cond_Zopp sy (Zpos my * 2 ^ (ey - Z.min ex ey)).
Proof.
  intros Hbx Hby Hcmp. cbn [SFcompare] in Hcmp.
  pose proof (pow2_pos (ex - Z.min ex ey) ltac:(lia)) as Hpx.
  pose proof (pow2_pos (ey - Z.min ex ey) ltac:(lia)) as Hpy.
  assert (Hmag : forall m1 e1 m2 e2,
             bounded prec emax m1 e1 = true -> bounded prec emax m2 e2 = true ->
             match e1 ?= e2 with
             | Lt => Lt | Gt => Gt | Eq => Pos.compare_cont Eq m1 m2
             end = Gt ->
             Zpos m2 * 2 ^ (e2 - Z.min e1 e2) < Zpos m1 * 2 ^ (e1 - Z.min e1 e2)).
  { intros m1 e1 m2 e2 Hb1 Hb2 Hc.
    destruct (e1 ?= e2) eqn:He; try discriminate.
    - apply Z.compare_eq in He. subst e2.
      rewrite Z.min_id, Z.sub_diag, !Z.mul_1_r.
      change (Pos.compare_cont Eq m1 m2) with (Pos.compare m1 m2) in Hc.
      apply Pos.compare_gt_iff in Hc. lia.
    - apply Z.compare_gt_iff in He.
      replace (Z.min e1 e2) with e2 by lia.
      rewrite Z.sub_diag, Z.mul_1_r. now apply smaller_exponent. }
  destruct sx, sy; cbn [cond_Zopp]; try discriminate.
  - (* both negative *)
    injection Hcmp as Hcmp.
    pose proof (Hmag my ey mx ex Hby Hbx) as Hm.
    rewrite (Z.min_comm ey ex) in Hm.
    assert (Hc' : match ey ?= ex with
                  | Lt => Lt | Gt => Gt | Eq => Pos.compare_cont Eq my mx
                  end = Gt).
    { rewrite (Z.compare_antisym ex ey).
      change (Pos.compare_cont Eq my mx) with (Pos.compare my mx).
      rewrite (Pos.compare_antisym mx my).
      change (Pos.compare_cont Eq mx my) with (Pos.compare mx my) in Hcmp.
      destruct (ex ?= ey); cbn in Hcmp |- *; try congruence;
        destruct (mx ?= my)%positive; cbn in Hcmp |- *; congruence. }
    specialize (Hm Hc'). lia.
  - lia.
  - injection Hcmp as Hcmp. pose proof (Hmag mx ex my ey Hbx Hby Hcmp). lia.
Qed.

(** F1.  The difference of two canonical values [x > y]. *)
Lemma sub_greater (x y : spec_float) :
  valid_binary prec emax x = true -> valid_binary prec emax y = true ->
  SFltb y x = true ->
  nonneg_float (SFsub prec emax x y) /\ representable prec emax (SFsub prec emax x y).
Proof.
  intros Hvx Hvy Hlt.
  assert (Hgt : SFcompare x y = Some Gt).
  { unfold SFltb in Hlt. rewrite (SFcompare_antisym y x).
    destruct (SFcompare y x) as [[]|]; cbn; congruence. }
  clear Hlt.
  destruct x as [sx|sx| |sx mx ex], y as [sy|sy| |sy my ey];
    cbn [SFcompare] in Hgt; try discriminate; cbn [SFsub].
  all: try (cbn [valid_binary] in Hvx, Hvy;
            pose proof (compare_gt_difference sx mx ex sy my ey Hvx Hvy Hgt) as Hd;
            destruct (aligned mx ex my ey) as [Hax Hay]; rewrite Hax, Hay;
            destruct (cond_Zopp sx (Zpos mx * 2 ^ (ex - Z.min ex ey))
                      - cond_Zopp sy (Zpos my * 2 ^ (ey - Z.min ex ey))) as [|d|d];
            try lia; cbn [binary_normalize]; now apply binary_round_class).
  all: try (destruct sx); try (destruct sy); try discriminate;
    cbn [negb nonneg_float]; split; try reflexivity; try exact I;
    first [ apply (valid_representable _ Hvx)
          | apply (valid_representable _ Hvy)
          | exact I ].
Qed.
End Arithmetic.

Section Division.
Variables prec emax : Z.
Hypothesis Hprec : 0 < prec.
Hypothesis Hemax : prec < emax.

Lemma new_location_exact (nb k : Z) : new_location nb k = loc_Exact -> k = 0.
Proof.
  unfold new_location, new_location_even, new_location_odd.
  destruct (Z.even nb); destruct (k =? 0) eqn:Hk; try discriminate;
    intros _; now apply Z.eqb_eq.
Qed.

(** The quotient mantissa of [SFdiv_core_binary]: a floor, exact when the
    location says so, with enough digits for the rounding that follows. *)
Lemma div_core_spec (mx : positive) (ex : Z) (my : positive) (ey : Z) :
  exists q e' l,
    SFdiv_core_binary prec emax (Zpos mx) ex (Zpos my) ey = (q, e', l)
    /\ 0 <= q
    /\ e' <= ex - ey
    /\ e' <= fexp prec emax (Zdigits2 q + e')
    /\ q * Zpos my <= Zpos mx * 2 ^ (ex - ey - e')
    /\ (l <> loc_Exact -> q * Zpos my < Zpos mx * 2 ^ (ex - ey - e')).
Proof.
  unfold SFdiv_core_binary.
  set (d1 := Zdigits2 (Zpos mx)). set (d2 := Zdigits2 (Zpos my)).
  set (e' := Z.min (fexp prec emax (d1 + ex - (d2 + ey))) (ex - ey)).
  set (s := ex - ey - e').
  assert (Hs : 0 <= s) by (unfold s, e'; lia).
  pose proof (pow2_pos s Hs) as Hps.
  set (m' := match s with Zpos _ => Z.shiftl (Zpos mx) s | 0 => Zpos mx | Zneg _ => 0 end).
  assert (Hm' : m' = Zpos mx * 2 ^ s).
  { unfold m'. destruct s as [|p|p] eqn:Hsp; [cbn; lia | | lia].
    now rewrite Z.shiftl_mul_pow2 by lia. }
  pose proof (Z_div_mod m' (Zpos my) ltac:(lia)) as Hdm.
  assert (Hq : fst (Z.div_eucl m' (Zpos my)) = m' / Zpos my) by reflexivity.
  destruct (Z.div_eucl m' (Zpos my)) as [q r]. cbn [fst] in Hq.
  destruct Hdm as [Heq Hr].
  exists q, e', (new_location (Zpos my) r).
  split; [reflexivity|].
  assert (Hq0 : 0 <= q) by (rewrite Hq; apply Z.div_pos; lia).
  split; [exact Hq0|]. split; [unfold e'; lia|]. split; [|split].
  - (* enough digits *)
    assert (Hdig : d1 + s - d2 <= Zdigits2 q).
    { destruct (Z_le_gt_dec (d1 + s - d2) 0) as [Hle|Hgt].
      - pose proof (Zdigits2_nonneg q). lia.
      - destruct (Zdigits2_bounds (Zpos mx) ltac:(lia)) as [Hd1 [Hlo _]].
        destruct (Zdigits2_bounds (Zpos my) ltac:(lia)) as [Hd2 [_ Hhi]].
        fold d1 in Hlo, Hd1. fold d2 in Hhi, Hd2.
        assert (Hk : 2 ^ (d1 + s - d2 - 1) <= q).
        { rewrite Hq. apply Z.div_le_lower_bound; [lia|].
          pose proof (pow2_pos (d1 + s - d2 - 1) ltac:(lia)).
          assert (2 ^ d2 * 2 ^ (d1 + s - d2 - 1) = 2 ^ (d1 - 1) * 2 ^ s).
          { rewrite <- !pow2_split by lia. f_equal. lia. }
          nia. }
        pose proof (Zdigits2_gt q (d1 + s - d2 - 1) ltac:(lia) Hk). lia. }
    pose proof (fexp_mono prec emax (d1 + ex - (d2 + ey)) (Zdigits2 q + e')
                  ltac:(unfold s in Hdig; lia)).
    unfold e' at 1. lia.
  - fold s. nia.
  - intros Hl. fold s.
    assert (Hr0 : r <> 0).
    { intros ->. apply Hl. unfold new_location, new_location_even, new_location_odd.
      destruct (Z.even (Zpos my)); reflexivity. }
    nia.
Qed.

Lemma quotient_bound (q mx my ex ey e' E : Z) :
  0 <= q -> 0 < my -> 0 < mx -> E <= e' -> E <= ex -> e' <= ex - ey ->
  (0 <= ey \/ 2 ^ (- ey) <= my) ->
  q * my <= mx * 2 ^ (ex - ey - e') ->
  q * 2 ^ (e' - E) <= mx * 2 ^ (ex - E)
  /\ (q * my < mx * 2 ^ (ex - ey - e') -> q * 2 ^ (e' - E) < mx * 2 ^ (ex - E)).
Proof.
  intros Hq Hmy Hmx HE1 HE2 He' Hge Hle.
  pose proof (pow2_pos (e' - E) ltac:(lia)) as HB.
  pose proof (pow2_pos (ex - ey - e') ltac:(lia)) as HS.
  destruct (Z_le_gt_dec 0 ey) as [Hey|Hey].
  - pose proof (pow2_pos ey Hey) as HY.
    assert (Hsplit : 2 ^ (ex - E) = 2 ^ (ex - ey - e') * 2 ^ (e' - E) * 2 ^ ey).
    { rewrite <- !pow2_split by lia. f_equal. lia. }
    rewrite Hsplit.
    set (S := 2 ^ (ex - ey - e')) in *. set (B := 2 ^ (e' - E)) in *.
    set (Y := 2 ^ ey) in *.
    assert (H1 : q * B <= q * my * B) by nia.
    assert (H2 : mx * S * B <= mx * (S * B * Y)) by nia.
    split.
    + assert (H3 : q * my * B <= mx * S * B) by nia. lia.
    + intros Hlt. assert (H3 : q * my * B < mx * S * B) by nia. lia.
  - destruct Hge as [Hge|Hge]; [lia|].
    pose proof (pow2_pos (- ey) ltac:(lia)) as HT.
    pose proof (pow2_pos (ex - E) ltac:(lia)) as HA.
    assert (Hsplit : 2 ^ (ex - ey - e') * 2 ^ (e' - E) = 2 ^ (ex - E) * 2 ^ (- ey)).
    { rewrite <- !pow2_split by lia. f_equal. lia. }
    set (S := 2 ^ (ex - ey - e')) in *. set (B := 2 ^ (e' - E)) in *.
    set (T := 2 ^ (- ey)) in *. set (A := 2 ^ (ex - E)) in *.
    assert (H1 : q * B * T <= q * my * B) by nia.
    assert (H2 : mx * S * B = mx * A * T) by nia.
    split.
    + apply (mul_pow2_le_inv _ _ (- ey)); [lia|]. fold T.
      assert (H3 : q * my * B <= mx * S * B) by nia. lia.
    + intros Hlt. apply (mul_pow2_lt_inv _ _ (- ey)); [lia|]. fold T.
      assert (H3 : q * my * B < mx * S * B) by nia. lia.
Qed.

(** between [m1 * 2^e1] and its successor at that exponent there is no
    value of the format *)
Lemma spacing (m1 e1 mx ex E : Z) :
  E <= e1 -> E <= ex -> 0 <= m1 -> 0 < mx < 2 ^ prec ->
  (2 ^ (prec - 1) <= m1 \/ e1 <= ex) ->
  m1 * 2 ^ (e1 - E) < mx * 2 ^ (ex - E) ->
  (m1 + 1) * 2 ^ (e1 - E) <= mx * 2 ^ (ex - E).
Proof.
  intros HE1 HE2 Hm1 Hmx Hn Hlt.
  pose proof (pow2_pos (e1 - E) ltac:(lia)) as HC.
  destruct (Z_le_gt_dec e1 ex) as [Hle|Hgt].
  - assert (Hsplit : 2 ^ (ex - E) = 2 ^ (ex - e1) * 2 ^ (e1 - E)).
    { rewrite <- pow2_split by lia. f_equal. lia. }
    pose proof (pow2_pos (ex - e1) ltac:(lia)).
    rewrite Hsplit in Hlt |- *.
    set (K := 2 ^ (ex - e1)) in *. set (C := 2 ^ (e1 - E)) in *.
    assert (Hk : m1 < mx * K).
    { apply (mul_pow2_lt_inv _ _ (e1 - E)); [lia|]. fold C. lia. }
    assert (Hk1 : (m1 + 1) * C <= mx * K * C) by nia. lia.
  - destruct Hn as [Hn|Hn]; [|lia]. exfalso.
    pose proof (pow2_pos (ex - E) ltac:(lia)) as HA.
    pose proof (pow2_pos (prec - 1) ltac:(lia)) as HP.
    assert (Hp : 2 ^ prec = 2 ^ (prec - 1) * 2).
    { replace prec with (prec - 1 + 1) at 1 by lia. now rewrite pow2_split by lia. }
    assert (Hsplit : 2 ^ (e1 - E) = 2 ^ (e1 - ex) * 2 ^ (ex - E)).
    { rewrite <- pow2_split by lia. f_equal. lia. }
    pose proof (pow2_le 1 (e1 - ex) ltac:(lia)) as H1. change (2 ^ 1) with 2 in H1.
    rewrite Hsplit in Hlt.
    set (P := 2 ^ (prec - 1)) in *. set (D := 2 ^ (e1 - ex)) in *.
    set (A := 2 ^ (ex - E)) in *.
    assert (H2 : mx * A < P * 2 * A) by nia.
    assert (H3 : P * 2 * A <= m1 * (D * A)) by nia.
    lia.
Qed.

(** F2.  A positive value of the format divided by a ratio of at least 1:
    the quotient is +0 or a positive finite value not above the dividend. *)
Lemma div_by_ge_one (mx : positive) (ex : Z) (my : positive) (ey : Z) :
  Zpos mx < 2 ^ prec -> emin prec emax <= ex <= emax - prec ->
  (0 <= ey \/ 2 ^ (- ey) <= Zpos my) ->
  SFdiv prec emax (S754_finite false mx ex) (S754_finite false my ey) = S754_zero false
  \/ exists mq eq,
       SFdiv prec emax (S754_finite false mx ex) (S754_finite false my ey)
       = S754_finite false mq eq
       /\ Fle (Zpos mq) eq (Zpos mx) ex.
Proof.
  intros Hmx Hex Hge. cbn [SFdiv xorb].
  destruct (div_core_spec mx ex my ey) as (q & e' & l & Hcore & Hq0 & He' & Hpre & Hle & Hinex).
  rewrite Hcore.
  destruct (binary_round_aux_spec prec emax Hprec false q e' l Hq0 Hpre)
    as (m2 & e2 & Hres & Hm2 & He2 & Hval & Hn2 & Hn1).
  cbn zeta in He2, Hval, Hn1.
  set (e1 := fexp prec emax (Zdigits2 q + e')) in *.
  set (m1 := q / 2 ^ (e1 - e')) in *.
  pose proof (fexp_ge_emin prec emax (Zdigits2 q + e')) as Hemin. fold e1 in Hemin.
  set (E := Z.min e' ex).
  assert (HE1 : E <= e') by (unfold E; lia).
  assert (HE2 : E <= ex) by (unfold E; lia).
  destruct (quotient_bound q (Zpos mx) (Zpos my) ex ey e' E
              Hq0 ltac:(lia) ltac:(lia) HE1 HE2 He' Hge Hle) as [Hqle Hqlt].
  pose proof (pow2_pos (e1 - e') ltac:(lia)) as Hp1.
  pose proof (pow2_pos (e' - E) ltac:(lia)) as HpB.
  pose proof (pow2_pos (e1 - E) ltac:(lia)) as HpC.
  pose proof (pow2_pos (ex - E) ltac:(lia)) as HpA.
  pose proof (pow2_pos (e2 - e1) ltac:(lia)) as HpD.
  assert (Hm1 : 0 <= m1) by (apply Z.div_pos; lia).
  assert (Hfloor : m1 * 2 ^ (e1 - e') <= q).
  { rewrite Z.mul_comm. apply Z.mul_div_le. lia. }
  assert (HsplitC : 2 ^ (e1 - E) = 2 ^ (e1 - e') * 2 ^ (e' - E)).
  { rewrite <- pow2_split by lia. f_equal. lia. }
  assert (Hm1le : m1 * 2 ^ (e1 - E) <= Zpos mx * 2 ^ (ex - E)).
  { rewrite HsplitC. nia. }
  (* the rounded mantissa, at the common exponent *)
  assert (Hround : m2 * 2 ^ (e2 - e1) * 2 ^ (e1 - E) <= Zpos mx * 2 ^ (ex - E)).
  { destruct Hval as [Hv|[Hv Hne]]; rewrite Hv; [exact Hm1le|].
    apply spacing; try lia.
    destruct Hne as [Hl|Hmod].
    - specialize (Hqlt (Hinex Hl)). rewrite HsplitC. nia.
    - assert (Hstrict : m1 * 2 ^ (e1 - e') < q).
      { pose proof (Z.div_mod q (2 ^ (e1 - e')) ltac:(lia)) as Hdm.
        pose proof (Z.mod_pos_bound q (2 ^ (e1 - e')) ltac:(lia)).
        fold m1 in Hdm. lia. }
      rewrite HsplitC. nia. }
  assert (HsplitD : 2 ^ (e2 - E) = 2 ^ (e2 - e1) * 2 ^ (e1 - E)).
  { rewrite <- pow2_split by lia. f_equal. lia. }
  assert (Hfinal : m2 * 2 ^ (e2 - E) <= Zpos mx * 2 ^ (ex - E)).
  { rewrite HsplitD. lia. }
  rewrite Hres. unfold finish.
  destruct m2 as [|p|p]; [now left| |lia]. right.
  (* no overflow: the result is not above the dividend *)
  assert (Hov : e2 <= emax - prec).
  { destruct (Z_le_gt_dec e2 ex) as [Hle2|Hgt2]; [lia|]. exfalso.
    destruct Hn2 as [Hn|Hn]; [|lia].
    pose proof (pow2_pos (prec - 1) ltac:(lia)) as HP.
    assert (Hp : 2 ^ prec = 2 ^ (prec - 1) * 2).
    { replace prec with (prec - 1 + 1) at 1 by lia. now rewrite pow2_split by lia. }
    assert (HsplitE : 2 ^ (e2 - E) = 2 ^ (e2 - ex) * 2 ^ (ex - E)).
    { rewrite <- pow2_split by lia. f_equal. lia. }
    pose proof (pow2_le 1 (e2 - ex) ltac:(lia)) as H1. change (2 ^ 1) with 2 in H1.
    rewrite HsplitE in Hfinal.
    set (P := 2 ^ (prec - 1)) in *. set (D := 2 ^ (e2 - ex)) in *.
    set (A := 2 ^ (ex - E)) in *.
    assert (H2 : Zpos mx * A < P * 2 * A) by nia.
    assert (H3 : P * 2 * A <= Zpos p * (D * A)) by nia.
    lia. }
  replace (e2 <=? emax - prec) with true by (symmetry; now apply Z.leb_le).
  exists p, e2. split; [reflexivity|].
  apply (Fle_at _ _ _ _ E); [lia | lia | exact Hfinal].
Qed.

(** F3.  Subtracting a smaller positive value. *)
Lemma sub_smaller (mx : positive) (ex : Z) (mq : positive) (eq : Z) :
  Fle (Zpos mq) eq (Zpos mx) ex ->
  nonneg_float (SFsub prec emax (S754_finite false mx ex) (S754_finite false mq eq)).
Proof.
  intros Hle. unfold Fle in Hle. rewrite (Z.min_comm eq ex) in Hle.
  cbn [SFsub]. destruct (aligned mx ex mq eq) as [Hax Haq]. rewrite Hax, Haq.
  cbn [cond_Zopp].
  destruct (Zpos mx * 2 ^ (ex - Z.min ex eq) - Zpos mq * 2 ^ (eq - Z.min ex eq))
    as [|d|d] eqn:Hd; [exact I | | lia].
  cbn [binary_normalize]. now apply binary_round_class.
Qed.


(** The gain computer: for a finite excess that is zero or positive and a
    ratio of at least 1, [excess - excess / ratio] is zero or positive. *)
Lemma reduction_nonneg (x r : spec_float) :
  nonneg_float x -> representable prec emax x -> is_finite x = true ->
  ratio_ge_one r ->
  nonneg_float (SFsub prec emax x (SFdiv prec emax x r)).
Proof.
  intros Hx Hrep Hfin Hr.
  destruct x as [sx|sx| |sx mx ex]; try discriminate.
  - (* a zero excess *)
    destruct r as [sr|[]| |[] mr er]; cbn in Hr; try tauto;
      cbn [SFdiv SFsub]; destruct sx; exact I.
  - cbn in Hx. subst sx. destruct Hrep as [Hmx Hex].
    destruct r as [sr|[]| |[] mr er]; cbn in Hr; try tauto.
    + (* an infinite ratio: the quotient is +0 *)
      cbn. reflexivity.
    + destruct (div_by_ge_one mx ex mr er Hmx Hex Hr) as [Hz|(mq & eq & Hq & Hle)].
      * rewrite Hz. cbn. reflexivity.
      * rewrite Hq. now apply sub_smaller.
Qed.
End Division.

(** ** [DynamicEQBand] *)

Section BandFacts.
Context `{Juce}.
Import DynamicEQBand.

Lemma updateFilterCoefficients_frame (b : DynamicEQBand.t) (g : float) :
  gainReductionDB (updateFilterCoefficients b g) = gainReductionDB b
  /\ params (updateFilterCoefficients b g) = params b
  /\ sampleRate (updateFilterCoefficients b g) = sampleRate b
  /\ envelopeFollower (updateFilterCoefficients b g) = envelopeFollower b.
Proof.
  unfold updateFilterCoefficients.
  destruct (SFleb (sampleRate b) F64.zero); [tauto|].
  destruct (synthesize _ _ _); simpl; tauto.
Qed.

(** The gain reduction published by a call of [process]. *)
Lemma process_gainReductionDB (b : DynamicEQBand.t) (buffer : AudioBuffer) :
  gainReductionDB (fst (process b buffer)) =
    if negb (BandParams.enabled (params b)) then F32.zero
    else if negb (BandParams.dynamicOn (params b)) then F32.zero
    else computeReduction (params b) (snd (detect b buffer)).
Proof.
  unfold process.
  destruct (negb (BandParams.enabled (params b))); [reflexivity|].
  destruct (negb (BandParams.dynamicOn (params b))).
  - destruct (runFilters (filters b) buffer); reflexivity.
  - destruct (detect b buffer) as [e envDB]; simpl.
    destruct (runFilters _ buffer) as [fs out]; simpl.
    apply updateFilterCoefficients_frame.
Qed.

(** C1.  For an enabled band in dynamic mode, [process] publishes
    [excess - excess / ratio] with [excess = envDB - threshold] when the
    envelope reading [envDB] exceeds the threshold, and 0 otherwise; with
    threshold -20 dB and ratio 4, a reading of -10 dB publishes exactly
    7.5 dB. *)
Theorem process_dynamic_reduction (b : DynamicEQBand.t) (buffer : AudioBuffer) :
  BandParams.enabled (params b) = true ->
  BandParams.dynamicOn (params b) = true ->
  let envDB := snd (detect b buffer) in
  let threshold := BandParams.threshold (params b) in
  let ratio := BandParams.ratio (params b) in
  gainReductionDB (fst (process b buffer)) =
    (if fgt envDB threshold
     then let excess := F32.sub envDB threshold in
          F32.sub excess (F32.div excess ratio)
     else F32.zero)
  /\ (threshold = F32.of_Z (-20) -> ratio = F32.of_Z 4 -> envDB = F32.of_Z (-10) ->
      gainReductionDB (fst (process b buffer)) = F32.c7_5).
Proof.
  intros Hen Hdyn envDB threshold ratio.
  assert (Hgr : gainReductionDB (fst (process b buffer)) =
                computeReduction (params b) envDB).
  { rewrite process_gainReductionDB, Hen, Hdyn. reflexivity. }
  split; [exact Hgr|].
  intros Ht Hr He. rewrite Hgr. unfold computeReduction.
  fold threshold ratio. rewrite Ht, Hr, He. reflexivity.
Qed.

(** C4.  A disabled band leaves every sample of every channel as it is
    and publishes a gain reduction of 0. *)
Theorem process_disabled (b : DynamicEQBand.t) (buffer : AudioBuffer) :
  BandParams.enabled (params b) = false ->
  snd (process b buffer) = buffer
  /\ gainReductionDB (fst (process b buffer)) = F32.zero.
Proof.
  intros Hen. unfold process. rewrite Hen. simpl. split; reflexivity.
Qed.

(** With a sample rate that is not positive, [updateFilterCoefficients]
    returns at once. *)
Lemma updateFilterCoefficients_unprepared (b : DynamicEQBand.t) (g : float) :
  SFleb (sampleRate b) F64.zero = true -> updateFilterCoefficients b g = b.
Proof. intros Hsr. unfold updateFilterCoefficients. rewrite Hsr. reflexivity. Qed.
End BandFacts.

Section BandFacts2.
Context `{Juce}.
Import DynamicEQBand.

Lemma synthesize_withDynamicOn (sr : double) (p : BandParams.t) (d : bool) (g : float) :
  synthesize sr (withDynamicOn p d) g = synthesize sr p g.
Proof. reflexivity. Qed.

Lemma map_setState_idem (c : Coefficients) (fs : list Filter) :
  map (setState c) (map (setState c) fs) = map (setState c) fs.
Proof. induction fs as [|f fs IH]; simpl; [reflexivity|]. now rewrite IH. Qed.

Lemma updateParams_frame (b : DynamicEQBand.t) (p : BandParams.t) :
  params (updateParams b p) = p
  /\ sampleRate (updateParams b p) = sampleRate b
  /\ filters (updateParams b p) = installed b p.
Proof.
  unfold updateParams, updateSidechainFilter, updateFilterCoefficients, installed.
  simpl. destruct (SFleb (sampleRate b) F64.zero) eqn:Hsr; simpl.
  - rewrite Hsr. simpl. tauto.
  - destruct (synthesize (sampleRate b) p (BandParams.gain p)); simpl;
      rewrite Hsr; simpl; tauto.
Qed.

(** recomputing the coefficients at the static gain changes nothing *)
Lemma resynthesize_installed (b b1 : DynamicEQBand.t) (p : BandParams.t) :
  params b1 = p -> sampleRate b1 = sampleRate b -> filters b1 = installed b p ->
  filters (updateFilterCoefficients b1 (BandParams.gain p)) = installed b p.
Proof.
  intros Hp Hsr Hf. unfold updateFilterCoefficients.
  rewrite Hsr, Hp. unfold installed in *.
  destruct (SFleb (sampleRate b) F64.zero); [exact Hf|].
  destruct (synthesize (sampleRate b) p (BandParams.gain p)); simpl; [|exact Hf].
  rewrite Hf. apply map_setState_idem.
Qed.

(** C5.  Install the same parameters with [updateParams], once with
    [dynamicOn] and once without.  On a block whose envelope reading does
    not exceed the threshold, the dynamic band writes the samples that
    the static band writes, and leaves the same filter state. *)
Theorem dynamic_below_threshold_is_static
    (b0 : DynamicEQBand.t) (p : BandParams.t) (buffer : AudioBuffer) :
  BandParams.enabled p = true ->
  let bd := updateParams b0 (withDynamicOn p true) in
  let bs := updateParams b0 (withDynamicOn p false) in
  fgt (snd (detect bd buffer)) (BandParams.threshold p) = false ->
  snd (process bd buffer) = snd (process bs buffer)
  /\ filters (fst (process bd buffer)) = filters (fst (process bs buffer)).
Proof.
  intros Hen bd bs Hthr.
  destruct (updateParams_frame b0 (withDynamicOn p true)) as (Hpd & Hsd & Hfd).
  destruct (updateParams_frame b0 (withDynamicOn p false)) as (Hps & Hss & Hfs).
  fold bd in Hpd, Hsd, Hfd. fold bs in Hps, Hss, Hfs.
  assert (Hinst : installed b0 (withDynamicOn p true) = installed b0 (withDynamicOn p false)).
  { unfold installed. now rewrite !synthesize_withDynamicOn. }
  unfold process. rewrite Hpd, Hps.
  cbn [withDynamicOn BandParams.enabled BandParams.dynamicOn].
  rewrite Hen. cbn [negb].
  destruct (detect bd buffer) as [e envDB] eqn:Hdet. cbn [snd] in Hthr.
  unfold computeReduction.
  cbn [withDynamicOn BandParams.threshold BandParams.gain].
  rewrite Hthr, F32_sub_zero.
  set (b1 := setGainReduction (setEnvelopeFollower bd e) F32.zero).
  assert (Hf2 : filters (updateFilterCoefficients b1 (BandParams.gain p))
                = installed b0 (withDynamicOn p true)).
  { apply (resynthesize_installed b0 b1 (withDynamicOn p true)).
    - exact Hpd.
    - exact Hsd.
    - exact Hfd. }
  rewrite Hf2, Hfs, <- Hinst.
  destruct (runFilters (installed b0 (withDynamicOn p true)) buffer) as [fs out].
  split; reflexivity.
Qed.

(** Division by [2.0f * 0.0f] never gives a finite quotient. *)
Lemma div_two_zero_not_finite (x : float) (s : bool) :
  is_finite (F32.div x (F32.mul F32.two (S754_zero s))) = false.
Proof. destruct s, x as [[]|[]| |[] m e]; reflexivity. Qed.

Lemma add_one_not_finite (x : float) :
  is_finite x = false -> is_finite (F32.add F32.one x) = false.
Proof. destruct x as [[]|[]| |[] m e]; simpl; try discriminate; reflexivity. Qed.

Lemma sub_one_not_finite (x : float) :
  is_finite x = false -> is_finite (F32.sub F32.one x) = false.
Proof. destruct x as [[]|[]| |[] m e]; simpl; try discriminate; reflexivity. Qed.

(** With Q = 0 the notch denominators are not finite, whatever the
    frequency, the sample rate and the values of [sinf] and [cosf]. *)
Lemma notch_zero_q (sr : double) (p : BandParams.t) (s : bool) :
  BandParams.q p = S754_zero s ->
  let '(b0, b1, b2, a0, a1, a2) := notchCoefficients sr p in
  is_finite a0 = false /\ is_finite a2 = false.
Proof.
  intros Hq. unfold notchCoefficients. rewrite Hq. split.
  - apply add_one_not_finite, div_two_zero_not_finite.
  - apply sub_one_not_finite, div_two_zero_not_finite.
Qed.

(** after [updateFilterCoefficients], every filter holds the set it was
    handed *)
Lemma map_state_setState (c : Coefficients) (fs : list Filter) :
  map state (map (setState c) fs) = map (fun _ => c) fs.
Proof. induction fs as [|f fs IH]; cbn; [reflexivity|]. now rewrite IH. Qed.

(** C6, as amended.  [updateFilterCoefficients] clamps neither the
    frequency nor Q.  On a band with a positive sample rate, whatever the
    values of [params.frequency] and [params.q], the coefficient set that
    the call leaves in every filter is, for the six types served by a
    JUCE factory, the result of that factory at exactly the stored sample
    rate, frequency and Q (and [decibelsToGain (gainDB)] for the shelves
    and the peak); for Notch it is the set constructed from
    [w0 = twoPi * frequency / sampleRate] and [alpha = sin w0 / (2 Q)],
    evaluated at the parameters as they are.  Finite coefficients are
    not guaranteed for all parameters: with Q = 0 the notch's
    [a0 = 1 + alpha] and [a2 = 1 - alpha] are not finite, for every
    frequency, every sample rate and every value of the trigonometric
    functions.  The statement holds for every instance of [Juce]: the
    arguments reach the factories, [cosf] and [sinf] unchanged. *)
Theorem updateFilterCoefficients_unclamped (b : DynamicEQBand.t) (gainDB : float) :
  SFleb (sampleRate b) F64.zero = false ->
  let sr := sampleRate b in
  let f := BandParams.frequency (params b) in
  let q := BandParams.q (params b) in
  let g := decibelsToGain gainDB defaultMinusInfinitydB in
  let w0 := F32.div (F32.mul F32.twoPi f) (F32.of_double sr) in
  let alpha := F32.div (sinf w0) (F32.mul F32.two q) in
  let a0 := F32.add F32.one alpha in
  let a2 := F32.sub F32.one alpha in
  let b1 := F32.mul (F32.of_Z (-2)) (cosf w0) in
  let installs (c : Coefficients) :=
    map state (filters (updateFilterCoefficients b gainDB))
    = map (fun _ => c) (filters b) in
  (BandParams.type (params b) = BandParams.LowShelf ->
     installs (makeLowShelf sr f q g))
  /\ (BandParams.type (params b) = BandParams.Peak ->
       installs (makePeakFilter sr f q g))
  /\ (BandParams.type (params b) = BandParams.HighShelf ->
       installs (makeHighShelf sr f q g))
  /\ (BandParams.type (params b) = BandParams.LowCut ->
       installs (makeHighPass sr f q))
  /\ (BandParams.type (params b) = BandParams.HighCut ->
       installs (makeLowPass sr f q))
  /\ (BandParams.type (params b) = BandParams.BandPass ->
       installs (makeBandPass sr f q))
  /\ (BandParams.type (params b) = BandParams.Notch ->
       installs (Coefficients6 F32.one b1 F32.one a0 b1 a2))
  /\ (forall s : bool, q = S754_zero s ->
       is_finite a0 = false /\ is_finite a2 = false
       /\ allFinite6 (notchCoefficients sr (params b)) = false).
Proof.
  intros Hsr sr f q g w0 alpha a0 a2 b1 installs.
  assert (Hinst : forall c, synthesize sr (params b) gainDB = Some c -> installs c).
  { intros c Hc. unfold installs, updateFilterCoefficients.
    unfold sr in Hc. rewrite Hsr, Hc. cbn [filters]. apply map_state_setState. }
  repeat match goal with |- _ /\ _ => split end;
    try (intros Hty; apply Hinst; unfold synthesize; rewrite Hty; reflexivity).
  intros s Hq.
  pose proof (notch_zero_q sr (params b) s Hq) as Hn.
  unfold notchCoefficients in Hn. fold f q w0 alpha a0 a2 in Hn.
  destruct Hn as [Ha0 Ha2].
  split; [exact Ha0|]. split; [exact Ha2|].
  unfold notchCoefficients, allFinite6. fold f q w0 alpha a0 a2.
  rewrite Ha0. rewrite !andb_false_r. reflexivity.
Qed.

(** C7, as amended.  With a stored sample rate that is not positive,
    coefficient synthesis is skipped: [updateFilterCoefficients] and
    [updateSidechainFilter] return the band as it is, so the filters keep
    the coefficients they had and [updateParams] only stores the
    parameters. *)
Theorem unprepared_keeps_coefficients
    (b : DynamicEQBand.t) (gainDB : float) (p : BandParams.t) :
  SFleb (sampleRate b) F64.zero = true ->
  updateFilterCoefficients b gainDB = b
  /\ updateSidechainFilter b = b
  /\ filters (updateParams b p) = filters b
  /\ sidechainFilter (updateParams b p) = sidechainFilter b.
Proof.
  intros Hsr. split; [|split; [|split]].
  - now apply updateFilterCoefficients_unprepared.
  - unfold updateSidechainFilter. now rewrite Hsr.
  - destruct (updateParams_frame b p) as (_ & _ & Hf). rewrite Hf.
    unfold installed. now rewrite Hsr.
  - unfold updateParams, updateFilterCoefficients, updateSidechainFilter.
    simpl. rewrite Hsr. simpl. now rewrite Hsr.
Qed.
End BandFacts2.

(** *** Examples for the band *)

Lemma process_dynamic_reduction_witness :
  BandParams.enabled (DynamicEQBand.params freshBand) = true
  /\ BandParams.dynamicOn (DynamicEQBand.params freshBand) = true
  /\ BandParams.threshold (DynamicEQBand.params freshBand) = F32.of_Z (-20)
  /\ BandParams.ratio (DynamicEQBand.params freshBand) = F32.of_Z 4
  /\ snd (DynamicEQBand.detect freshBand smallBlock) = F32.of_Z (-10)
  /\ DynamicEQBand.gainReductionDB (fst (DynamicEQBand.process freshBand smallBlock))
     = F32.c7_5.
Proof.
  assert (Hen : BandParams.enabled (DynamicEQBand.params freshBand) = true)
    by reflexivity.
  assert (Hdyn : BandParams.dynamicOn (DynamicEQBand.params freshBand) = true)
    by reflexivity.
  assert (Henv : snd (DynamicEQBand.detect freshBand smallBlock) = F32.of_Z (-10))
    by (vm_compute; reflexivity).
  split; [exact Hen|]. split; [exact Hdyn|].
  split; [reflexivity|]. split; [reflexivity|]. split; [exact Henv|].
  exact (proj2 (process_dynamic_reduction freshBand smallBlock Hen Hdyn)
           eq_refl eq_refl Henv).
Defined.

Lemma process_disabled_witness :
  BandParams.enabled (DynamicEQBand.params disabledBand) = false
  /\ snd (DynamicEQBand.process disabledBand smallBlock) = smallBlock
  /\ DynamicEQBand.gainReductionDB (fst (DynamicEQBand.process disabledBand smallBlock))
     = F32.zero.
Proof.
  assert (Hen : BandParams.enabled (DynamicEQBand.params disabledBand) = false)
    by (vm_compute; reflexivity).
  split; [exact Hen|].
  exact (process_disabled disabledBand smallBlock Hen).
Defined.

Lemma dynamic_below_threshold_is_static_witness :
  let bd := DynamicEQBand.updateParams freshBand (withDynamicOn BandParams.default true) in
  let bs := DynamicEQBand.updateParams freshBand (withDynamicOn BandParams.default false) in
  BandParams.enabled BandParams.default = true
  /\ fgt (snd (DynamicEQBand.detect bd silentBlock))
         (BandParams.threshold BandParams.default) = false
  /\ snd (DynamicEQBand.process bd silentBlock) = snd (DynamicEQBand.process bs silentBlock)
  /\ DynamicEQBand.filters (fst (DynamicEQBand.process bd silentBlock))
     = DynamicEQBand.filters (fst (DynamicEQBand.process bs silentBlock)).
Proof.
  intros bd bs.
  assert (Hthr : fgt (snd (DynamicEQBand.detect bd silentBlock))
                     (BandParams.threshold BandParams.default) = false)
    by (vm_compute; reflexivity).
  split; [reflexivity|]. split; [exact Hthr|].
  exact (dynamic_below_threshold_is_static freshBand BandParams.default silentBlock
           eq_refl Hthr).
Defined.

(** C6: a notch band with Q = 0 at 1 kHz and 44.1 kHz.  [alpha] is
    [sin w0 / 0 = +inf]: the coefficients [a0] and [a2] handed to the
    constructor are infinite, and the normalised set holds a NaN. *)
Lemma notch_zero_q_counterexample :
  fgt (DynamicEQBand.sampleRate zeroQNotch) F64.zero = true
  /\ @DynamicEQBand.notchCoefficients Stub.juce (DynamicEQBand.sampleRate zeroQNotch)
       (DynamicEQBand.params zeroQNotch)
     = (F32.one, S754_finite true 16607220 (-23), F32.one,
        S754_infinity false, S754_finite true 16607220 (-23), S754_infinity true)
  /\ allFinite6 (@DynamicEQBand.notchCoefficients Stub.juce (DynamicEQBand.sampleRate zeroQNotch)
                   (DynamicEQBand.params zeroQNotch)) = false
  /\ map DynamicEQBand.state (DynamicEQBand.filters zeroQNotch)
     = [[S754_zero false; S754_zero true; S754_zero false; S754_zero true; S754_nan]].
Proof. repeat split; vm_compute; reflexivity. Qed.

Lemma updateFilterCoefficients_unclamped_witness :
  SFleb (DynamicEQBand.sampleRate zeroQNotch) F64.zero = false
  /\ BandParams.type (DynamicEQBand.params zeroQNotch) = BandParams.Notch
  /\ BandParams.q (DynamicEQBand.params zeroQNotch) = S754_zero false
  /\ map DynamicEQBand.state
        (DynamicEQBand.filters (DynamicEQBand.updateFilterCoefficients zeroQNotch F32.zero))
     = [[S754_zero false; S754_zero true; S754_zero false; S754_zero true; S754_nan]]
  /\ allFinite6 (@DynamicEQBand.notchCoefficients Stub.juce (DynamicEQBand.sampleRate zeroQNotch)
                   (DynamicEQBand.params zeroQNotch)) = false.
Proof.
  assert (Hsr : SFleb (DynamicEQBand.sampleRate zeroQNotch) F64.zero = false)
    by (vm_compute; reflexivity).
  assert (Hty : BandParams.type (DynamicEQBand.params zeroQNotch) = BandParams.Notch)
    by (vm_compute; reflexivity).
  assert (Hq : BandParams.q (DynamicEQBand.params zeroQNotch) = S754_zero false)
    by (vm_compute; reflexivity).
  pose proof (updateFilterCoefficients_unclamped zeroQNotch F32.zero Hsr) as Hall.
  cbv zeta in Hall.
  destruct Hall as (_ & _ & _ & _ & _ & _ & Hnotch & Hzero).
  split; [exact Hsr|]. split; [exact Hty|]. split; [exact Hq|].
  split.
  - rewrite (Hnotch Hty). vm_compute. reflexivity.
  - exact (proj2 (proj2 (Hzero false Hq))).
Defined.

(** C7: a band is prepared at 44.1 kHz and given a gain of -10 dB, then
    prepared again with a sample rate of 0.  Synthesis for the default
    parameters (a gain of 0 dB) is skipped: the filter keeps the
    coefficients of the -10 dB setting, which are not the neutral set. *)
Lemma unprepared_not_neutral_counterexample :
  SFleb (DynamicEQBand.sampleRate unpreparedBand) F64.zero = true
  /\ map DynamicEQBand.state (DynamicEQBand.filters attenuatingBand)
     = [[minus10dBPeak; F32.zero; F32.zero; F32.zero; F32.zero]]
  /\ map DynamicEQBand.state
       (DynamicEQBand.filters
          (DynamicEQBand.updateFilterCoefficients unpreparedBand F32.zero))
     = [[minus10dBPeak; F32.zero; F32.zero; F32.zero; F32.zero]]
  /\ map DynamicEQBand.state
       (DynamicEQBand.filters
          (DynamicEQBand.updateParams unpreparedBand BandParams.default))
     = [[minus10dBPeak; F32.zero; F32.zero; F32.zero; F32.zero]]
  /\ [minus10dBPeak; F32.zero; F32.zero; F32.zero; F32.zero] <> passThrough.
Proof.
  repeat split; try (vm_compute; reflexivity).
  unfold passThrough. intros Heq. discriminate Heq.
Qed.

Lemma unprepared_keeps_coefficients_witness :
  SFleb (DynamicEQBand.sampleRate unpreparedBand) F64.zero = true
  /\ DynamicEQBand.updateFilterCoefficients unpreparedBand F32.two = unpreparedBand
  /\ DynamicEQBand.filters (DynamicEQBand.updateParams unpreparedBand BandParams.default)
     = DynamicEQBand.filters unpreparedBand.
Proof.
  assert (Hsr : SFleb (DynamicEQBand.sampleRate unpreparedBand) F64.zero = true)
    by reflexivity.
  split; [exact Hsr|].
  pose proof (unprepared_keeps_coefficients unpreparedBand F32.two BandParams.default Hsr)
    as (H1 & _ & H3 & _).
  split; [exact H1 | exact H3].
Defined.

(** ** [DynamicEQAudioProcessor] *)

Section ProcessorFacts.
Context `{Juce}.
Import DynamicEQAudioProcessor.

Lemma setBands_bands (p : DynamicEQAudioProcessor.t) : setBands p (bands p) = p.
Proof. destruct p; reflexivity. Qed.

Lemma refresh_cons (p : DynamicEQAudioProcessor.t) (k : nat)
    (b : DynamicEQBand.t) (bs : list DynamicEQBand.t) :
  refresh p k (b :: bs)
  = DynamicEQBand.updateParams b (readBandParams p (Z.of_nat k)) :: refresh p (S k) bs.
Proof.
  unfold refresh. rewrite imap_cons. f_equal.
  - now rewrite Nat.add_0_r.
  - apply imap_ext. intros j x _. simpl. now rewrite Nat.add_succ_r.
Qed.

(** The band loop, started at the index [length pre]. *)
Lemma bandLoop_cascade (todo pre post : list DynamicEQBand.t)
    (p : DynamicEQAudioProcessor.t) (buffer : AudioBuffer) :
  bands p = pre ++ todo ++ post ->
  fold_left bandStep (seq (length pre) (length todo)) (p, buffer)
  = (setBands p (pre ++ fst (cascade (refresh p (length pre) todo) buffer) ++ post),
     snd (cascade (refresh p (length pre) todo) buffer)).
Proof.
  revert pre p buffer.
  induction todo as [|b todo IH]; intros pre p buffer Hb.
  - simpl in Hb |- *. rewrite <- Hb, setBands_bands. reflexivity.
  - cbn [length seq fold_left]. rewrite refresh_cons. cbn [cascade].
    change ((b :: todo) ++ post) with (b :: todo ++ post) in Hb |- *.
    set (b1 := DynamicEQBand.updateParams b (readBandParams p (Z.of_nat (length pre)))).
    assert (Hstep : bandStep (p, buffer) (length pre)
                    = (setBands p (pre ++ fst (DynamicEQBand.process b1 buffer) :: todo ++ post),
                       snd (DynamicEQBand.process b1 buffer))).
    { unfold bandStep, updateBandParams. rewrite Nat2Z.id, Hb.
      rewrite list_lookup_middle by reflexivity. fold b1.
      cbn [bands setBands].
      replace (<[length pre:=b1]> (pre ++ b :: todo ++ post))
        with (pre ++ b1 :: todo ++ post).
      2:{ replace (length pre) with (length pre + 0)%nat at 1 by lia.
          now rewrite insert_app_r. }
      rewrite list_lookup_middle by reflexivity.
      destruct (DynamicEQBand.process b1 buffer) as [b' buffer'].
      cbn [fst snd]. f_equal. unfold setBands. cbn. f_equal.
      replace (length pre) with (length pre + 0)%nat at 1 by lia.
      now rewrite insert_app_r. }
    rewrite Hstep.
    destruct (DynamicEQBand.process b1 buffer) as [b' buffer']. cbn [fst snd].
    set (p2 := setBands p (pre ++ b' :: todo ++ post)).
    specialize (IH (pre ++ [b']) p2 buffer').
    rewrite length_app in IH. cbn [length] in IH.
    replace (length pre + 1)%nat with (S (length pre)) in IH by lia.
    rewrite IH.
    2:{ unfold p2. cbn [bands setBands]. now rewrite <- app_assoc. }
    change (refresh p2 (S (length pre)) todo) with (refresh p (S (length pre)) todo).
    destruct (cascade (refresh p (S (length pre)) todo) buffer') as [bs1 buffer2].
    cbn [fst snd]. f_equal. unfold p2, setBands. cbn. f_equal.
    now rewrite <- app_assoc.
Qed.

Lemma runBands_cascade (p : DynamicEQAudioProcessor.t) (buffer : AudioBuffer) :
  let n := Z.to_nat (activeBandCount p) in
  (n <= length (bands p))%nat ->
  runBands p buffer
  = (setBands p (fst (cascade (refresh p 0 (take n (bands p))) buffer)
                 ++ drop n (bands p)),
     snd (cascade (refresh p 0 (take n (bands p))) buffer)).
Proof.
  intros n Hn. unfold runBands. fold n.
  pose proof (bandLoop_cascade (take n (bands p)) [] (drop n (bands p)) p buffer) as Hl.
  cbn [length app] in Hl. rewrite length_take in Hl.
  replace (n `min` length (bands p))%nat with n in Hl by lia.
  apply Hl. now rewrite take_drop.
Qed.

(** [setActiveBandCount] keeps the count within the array. *)
Lemma setActiveBandCount_range (p : DynamicEQAudioProcessor.t) (count : Z) :
  1 <= activeBandCount (setActiveBandCount p count) <= numBands.
Proof.
  unfold setActiveBandCount, jlimit, numBands. cbn [activeBandCount].
  destruct (count <? 1) eqn:H1; [lia|].
  destruct (8 <? count) eqn:H2; lia.
Qed.

(** C2.  A block goes through the bands 0 .. activeBandCount - 1 in
    ascending order, every band in place on the output of the one before
    it, each with the parameters read from the parameter tree; the bands
    from activeBandCount on are not run and keep their state. *)
Theorem processBlock_cascade (p : DynamicEQAudioProcessor.t) (buffer : AudioBuffer) :
  let n := Z.to_nat (activeBandCount p) in
  (n <= length (bands p))%nat ->
  let active := refresh p 0 (take n (bands p)) in
  let input := clearExtraChannels p buffer in
  snd (processBlock p buffer) = snd (cascade active input)
  /\ bands (fst (processBlock p buffer)) = fst (cascade active input) ++ drop n (bands p).
Proof.
  intros n Hn active input. unfold processBlock.
  set (p1 := setPreSpectrum p _).
  pose proof (runBands_cascade p1 (clearExtraChannels p buffer) Hn) as Hr.
  cbn zeta in Hr.
  change (activeBandCount p1) with (activeBandCount p) in Hr.
  change (bands p1) with (bands p) in Hr.
  change (refresh p1 0 (take (Z.to_nat (activeBandCount p)) (bands p)))
    with active in Hr.
  fold n input in Hr. fold input. rewrite Hr.
  cbn [fst snd]. split; reflexivity.
Qed.

(** C10.  Outside [0, numBands) the accessor returns 0.0 whatever the
    bands are: it reads none of them. *)
Theorem getBandGainReduction_out_of_range
    (p : DynamicEQAudioProcessor.t) (bs : list DynamicEQBand.t) (bandIndex : Z) :
  bandIndex < 0 \/ numBands <= bandIndex ->
  getBandGainReduction (setBands p bs) bandIndex = F32.zero.
Proof.
  intros Hout. unfold getBandGainReduction.
  destruct (0 <=? bandIndex) eqn:H0; [|reflexivity].
  destruct (bandIndex <? numBands) eqn:H1; [|reflexivity].
  apply Z.leb_le in H0. apply Z.ltb_lt in H1. lia.
Qed.

(** Inside the range the accessor returns the value published by the band. *)
Lemma getBandGainReduction_in_range (p : DynamicEQAudioProcessor.t) (bandIndex : Z) :
  length (bands p) = Z.to_nat numBands ->
  0 <= bandIndex < numBands ->
  exists b, bands p !! Z.to_nat bandIndex = Some b
            /\ getBandGainReduction p bandIndex = DynamicEQBand.getGainReductionDB b.
Proof.
  intros Hlen Hin. unfold getBandGainReduction.
  destruct (lookup_lt_is_Some_2 (bands p) (Z.to_nat bandIndex)) as [b Hb]; [lia|].
  exists b. split; [exact Hb|]. rewrite Hb.
  replace (0 <=? bandIndex) with true by (symmetry; apply Z.leb_le; lia).
  replace (bandIndex <? numBands) with true by (symmetry; apply Z.ltb_lt; lia).
  reflexivity.
Qed.
End ProcessorFacts.

Lemma processBlock_cascade_witness :
  let n := Z.to_nat (DynamicEQAudioProcessor.activeBandCount exampleProcessor) in
  let active := refresh exampleProcessor 0
                  (take n (DynamicEQAudioProcessor.bands exampleProcessor)) in
  let input := DynamicEQAudioProcessor.clearExtraChannels exampleProcessor smallBlock in
  (n <= length (DynamicEQAudioProcessor.bands exampleProcessor))%nat
  /\ snd (DynamicEQAudioProcessor.processBlock exampleProcessor smallBlock)
     = snd (cascade active input)
  /\ DynamicEQAudioProcessor.bands
       (fst (DynamicEQAudioProcessor.processBlock exampleProcessor smallBlock))
     = fst (cascade active input)
       ++ drop n (DynamicEQAudioProcessor.bands exampleProcessor).
Proof.
  intros n active input.
  assert (Hn : (n <= length (DynamicEQAudioProcessor.bands exampleProcessor))%nat)
    by (vm_compute; lia).
  split; [exact Hn|].
  exact (processBlock_cascade exampleProcessor smallBlock Hn).
Defined.

Lemma getBandGainReduction_out_of_range_witness :
  (8 < 0 \/ DynamicEQAudioProcessor.numBands <= 8)
  /\ DynamicEQAudioProcessor.getBandGainReduction
       (DynamicEQAudioProcessor.setBands exampleProcessor []) 8 = F32.zero.
Proof.
  assert (Hout : 8 < 0 \/ DynamicEQAudioProcessor.numBands <= 8)
    by (right; vm_compute; discriminate).
  split; [exact Hout|].
  exact (getBandGainReduction_out_of_range exampleProcessor [] 8 Hout).
Defined.

(** ** The curve cache *)

Section CurveCacheFacts.
Context `{Juce}.
Import SpectrumComponent.

Lemma withinTolerance_not_differs (snap last : BandSnapshot) :
  snapshotWithinTolerance snap last = true -> snapshotDiffers snap last = false.
Proof.
  unfold snapshotWithinTolerance, snapshotDiffers, fne.
  intros Hw. repeat (apply andb_prop in Hw; destruct Hw as [Hw ?]).
  repeat match goal with
         | Hx : _ = true |- _ => rewrite Hx; clear Hx
         end.
  cbn [negb orb]. now apply SFleb_not_gt.
Qed.

(** The loop over the bands leaves [changed] and the snapshots alone when
    every band is within tolerance of its snapshot. *)
Lemma checkBand_loop_unchanged (p : DynamicEQAudioProcessor.t)
    (snaps : list BandSnapshot) (changed : bool) (idx : list nat) :
  (forall i, i ∈ idx ->
     snapshotWithinTolerance (readSnapshot p (Z.of_nat i)) (snaps !!! i) = true) ->
  fold_left (checkBand p) idx (changed, snaps) = (changed, snaps).
Proof.
  induction idx as [|i idx IH]; intros Hall; [reflexivity|].
  cbn [fold_left]. unfold checkBand at 2.
  rewrite (withinTolerance_not_differs _ _ (Hall i ltac:(left))).
  apply IH. intros j Hj. apply Hall. now right.
Qed.

(** C9, as amended.  The reference of the comparison is the snapshot
    that the component has recorded for the band ([lastSnapshots], which
    a check rewrites only for a band it finds changed), not what the
    previous check read.  When no invalidation is pending, the active band
    count is the recorded one and every active band's snapshot compares
    equal to the recorded snapshot in its exactly tracked fields, with a
    gain reduction within 0.05 dB of the recorded one,
    [checkAndUpdateCurve] finds no change, does not rebuild, and leaves
    the component, its cached per-band and total curves and its recorded
    snapshots included, as it is. *)
Theorem checkAndUpdateCurve_unchanged (p : DynamicEQAudioProcessor.t) (c : SpectrumComponent.t) :
  curveNeedsUpdate c = false ->
  DynamicEQAudioProcessor.getActiveBandCount p = lastActiveBandCount c ->
  (forall i : nat,
     (i < Z.to_nat (DynamicEQAudioProcessor.getActiveBandCount p))%nat ->
     snapshotWithinTolerance (readSnapshot p (Z.of_nat i)) (lastSnapshots c !!! i) = true) ->
  fst (detectChange p c) = false
  /\ checkAndUpdateCurve p c = c
  /\ cachedBandMagnitudes (checkAndUpdateCurve p c) = cachedBandMagnitudes c
  /\ cachedTotalMagnitude (checkAndUpdateCurve p c) = cachedTotalMagnitude c.
Proof.
  intros Hupd Hcount Hsnap.
  assert (Hd : detectChange p c = (false, c)).
  { unfold detectChange. rewrite Hcount, Z.eqb_refl. cbn [negb].
    rewrite Hupd. rewrite <- Hcount.
    rewrite checkBand_loop_unchanged.
    - destruct c; cbn in Hupd, Hcount |- *. now rewrite Hupd, Hcount.
    - intros i Hi. apply Hsnap. apply elem_of_seq in Hi. lia. }
  assert (Hc : checkAndUpdateCurve p c = c).
  { unfold checkAndUpdateCurve. now rewrite Hd. }
  rewrite Hd, Hc. repeat split; reflexivity.
Qed.
End CurveCacheFacts.

Lemma checkAndUpdateCurve_unchanged_witness :
  SpectrumComponent.curveNeedsUpdate tickedComponent = false
  /\ DynamicEQAudioProcessor.getActiveBandCount driftedProcessor
     = SpectrumComponent.lastActiveBandCount tickedComponent
  /\ SpectrumComponent.gr (SpectrumComponent.readSnapshot driftedProcessor 0)
     = S754_finite false 8388608 (-28)
  /\ SpectrumComponent.gr (SpectrumComponent.lastSnapshots tickedComponent !!! 0%nat) = F32.zero
  /\ SpectrumComponent.checkAndUpdateCurve driftedProcessor tickedComponent
     = tickedComponent.
Proof.
  assert (Hupd : SpectrumComponent.curveNeedsUpdate tickedComponent = false) by (vm_compute; reflexivity).
  assert (Hcount : DynamicEQAudioProcessor.getActiveBandCount driftedProcessor
                   = SpectrumComponent.lastActiveBandCount tickedComponent) by (vm_compute; reflexivity).
  assert (Hsnap : forall i : nat,
             (i < Z.to_nat (DynamicEQAudioProcessor.getActiveBandCount driftedProcessor))%nat ->
             snapshotWithinTolerance
               (SpectrumComponent.readSnapshot driftedProcessor (Z.of_nat i))
               (SpectrumComponent.lastSnapshots tickedComponent !!! i) = true).
  { intros i Hi.
    assert (Hcases : i = 0%nat \/ i = 1%nat \/ i = 2%nat \/ i = 3%nat)
      by (vm_compute in Hi; lia).
    destruct Hcases as [-> | [-> | [-> | ->]]]; vm_compute; reflexivity. }
  split; [exact Hupd|]. split; [exact Hcount|].
  split; [vm_compute; reflexivity|]. split; [vm_compute; reflexivity|].
  exact (proj1 (proj2 (checkAndUpdateCurve_unchanged driftedProcessor tickedComponent
                         Hupd Hcount Hsnap))).
Defined.

(** C9: the gain reduction published by band 0 goes from 0 to 1/32 dB and
    then to 1/16 dB, one step between two checks; nothing else changes.
    The check at 1/32 dB finds no change and records nothing, so the
    recorded gain reduction stays 0.  At the next check no invalidation
    is pending, the band count is the recorded one and every active band
    reads what it read at the previous check, but for a gain reduction
    1/32 dB away in band 0; yet the check finds band 0 changed, for 1/16 dB
    is more than 0.05 dB from the recorded 0: it records the new snapshot
    and rebuilds. *)
Lemma checkAndUpdateCurve_drift_counterexample :
  SpectrumComponent.gr (SpectrumComponent.lastSnapshots settledComponent !!! 0%nat)
    = F32.zero
  /\ SpectrumComponent.gr (SpectrumComponent.readSnapshot driftedProcessor 0)
     = S754_finite false 8388608 (-28)
  /\ SpectrumComponent.checkAndUpdateCurve driftedProcessor settledComponent
     = settledComponent
  /\ SpectrumComponent.curveNeedsUpdate settledComponent = false
  /\ DynamicEQAudioProcessor.getActiveBandCount furtherDriftedProcessor
     = SpectrumComponent.lastActiveBandCount settledComponent
  /\ forallb (fun i : nat =>
                snapshotWithinTolerance
                  (SpectrumComponent.readSnapshot furtherDriftedProcessor (Z.of_nat i))
                  (SpectrumComponent.readSnapshot driftedProcessor (Z.of_nat i)))
       (seq 0 (Z.to_nat (DynamicEQAudioProcessor.getActiveBandCount
                            furtherDriftedProcessor))) = true
  /\ SpectrumComponent.gr (SpectrumComponent.readSnapshot furtherDriftedProcessor 0)
     = S754_finite false 8388608 (-27)
  /\ fst (SpectrumComponent.detectChange furtherDriftedProcessor settledComponent) = true
  /\ SpectrumComponent.checkAndUpdateCurve furtherDriftedProcessor settledComponent
     = SpectrumComponent.rebuildCurveCache furtherDriftedProcessor
         (snd (SpectrumComponent.detectChange furtherDriftedProcessor settledComponent))
  /\ SpectrumComponent.gr
       (SpectrumComponent.lastSnapshots
          (SpectrumComponent.checkAndUpdateCurve furtherDriftedProcessor settledComponent)
        !!! 0%nat)
     = S754_finite false 8388608 (-27).
Proof. repeat split; vm_compute; reflexivity. Qed.

(** ** [SpectrumAnalyzer] *)

Section AnalyzerFacts.
Import SpectrumAnalyzer.

Lemma fftSize_pow2 : fftSize = 2 ^ fftOrder.
Proof. reflexivity. Qed.

Lemma fftSize_pos : 0 < fftSize.
Proof. reflexivity. Qed.

Lemma hopSize_pos : 0 < hopSize.
Proof. reflexivity. Qed.

Lemma mask_mod (a : Z) : Z.land a (fftSize - 1) = a mod fftSize.
Proof.
  change (fftSize - 1) with (Z.ones fftOrder). rewrite fftSize_pow2.
  apply Z.land_ones. unfold fftOrder. lia.
Qed.

(** writing [f j] at the indices [0 .. n-1] *)
Lemma fill_prefix {A} (f : nat -> A) (n : nat) (fd : list A) :
  (n <= length fd)%nat ->
  fold_left (fun fd j => <[j := f j]> fd) (seq 0 n) fd = map f (seq 0 n) ++ drop n fd.
Proof.
  induction n as [|n IH]; intros Hn; [reflexivity|].
  rewrite seq_S, fold_left_app, map_app. cbn [fold_left map Nat.add].
  rewrite IH by lia.
  destruct (lookup_lt_is_Some_2 fd n ltac:(lia)) as [x Hx].
  rewrite (drop_S fd x n Hx).
  replace n with (length (map f (seq 0 n)) + 0)%nat at 1
    by (rewrite length_map, length_seq; lia).
  rewrite insert_app_r. cbn [insert list_insert]. rewrite <- app_assoc. reflexivity.
Qed.

Lemma mod_wrap (x F : Z) :
  0 < F -> 0 <= x < 2 * F -> x mod F = if x <? F then x else x - F.
Proof.
  intros HF Hx. destruct (x <? F) eqn:Hlt.
  - apply Z.ltb_lt in Hlt. apply Z.mod_small. lia.
  - apply Z.ltb_ge in Hlt. symmetry. apply (Z.mod_unique x F 1); lia.
Qed.

Lemma read_rotated (cb : list float) (wp : Z) :
  length cb = Z.to_nat fftSize -> 0 <= wp < fftSize ->
  map (fun j => cb !!! Z.to_nat (Z.land (wp + Z.of_nat j) (fftSize - 1)))
      (seq 0 (Z.to_nat fftSize))
  = rotate (Z.to_nat wp) cb.
Proof.
  intros Hlen Hwp. pose proof fftSize_pos as HF. apply list_eq. intros i.
  destruct (decide (i < Z.to_nat fftSize)%nat) as [Hi|Hi].
  - rewrite list_lookup_fmap, lookup_seq_lt by lia. cbn [fmap option_fmap option_map Nat.add].
    rewrite lookup_rotate_r by lia. unfold rotate_nat_add. rewrite Hlen.
    rewrite mask_mod, !Z2Nat.id by lia.
    set (k := Z.to_nat ((wp + Z.of_nat i) mod fftSize)).
    destruct (lookup_lt_is_Some_2 cb k) as [x Hx].
    { subst k. rewrite Hlen.
      pose proof (Z.mod_pos_bound (wp + Z.of_nat i) fftSize HF). lia. }
    rewrite Hx. f_equal. apply list_lookup_total_correct. exact Hx.
  - rewrite !lookup_ge_None_2; [reflexivity| |].
    + rewrite length_rotate. lia.
    + rewrite length_map, length_seq. lia.
Qed.

Lemma capture_rotate (cb fd : list float) (wp : Z) :
  length cb = Z.to_nat fftSize -> (Z.to_nat fftSize <= length fd)%nat ->
  0 <= wp < fftSize ->
  capture cb wp fd = rotate (Z.to_nat wp) cb ++ drop (Z.to_nat fftSize) fd.
Proof.
  intros Hlen Hfd Hwp. unfold capture.
  rewrite (fill_prefix
             (fun j => cb !!! Z.to_nat (Z.land (wp + Z.of_nat j) (fftSize - 1)))) by exact Hfd.
  now rewrite read_rotated.
Qed.

Lemma length_window (h : list float) : length (window h) = Z.to_nat fftSize.
Proof.
  unfold window. rewrite length_drop, length_app, length_replicate. lia.
Qed.

Lemma window_snoc (h : list float) (x : float) :
  window (h ++ [x]) = drop 1 (window h) ++ [x].
Proof.
  pose proof fftSize_pos as HF. unfold window.
  rewrite length_app. cbn [length]. rewrite app_assoc.
  rewrite drop_app_le by (rewrite length_app, length_replicate; lia).
  rewrite drop_drop. reflexivity.
Qed.

(** writing at [wp] and advancing the cursor drops the oldest sample and
    appends the new one *)
Lemma rotate_write (cb : list float) (wp : Z) (x : float) :
  length cb = Z.to_nat fftSize -> 0 <= wp < fftSize ->
  rotate (Z.to_nat ((wp + 1) mod fftSize)) (<[Z.to_nat wp := x]> cb)
  = drop 1 (rotate (Z.to_nat wp) cb) ++ [x].
Proof.
  intros Hlen Hwp. pose proof fftSize_pos as HF.
  pose proof (Z.mod_pos_bound (wp + 1) fftSize HF) as Hw1.
  apply list_eq. intros i.
  destruct (decide (i < Z.to_nat fftSize)%nat) as [Hi|Hi].
  - rewrite lookup_rotate_r by (rewrite length_insert; lia).
    unfold rotate_nat_add. rewrite length_insert, Hlen, !Z2Nat.id by lia.
    rewrite Zplus_mod_idemp_l.
    rewrite (mod_wrap (wp + 1 + Z.of_nat i) fftSize) by lia.
    destruct (decide (i = Z.to_nat fftSize - 1)%nat) as [Hlast|Hlast].
    + replace (wp + 1 + Z.of_nat i <? fftSize) with false
        by (symmetry; apply Z.ltb_ge; lia).
      replace (Z.to_nat (wp + 1 + Z.of_nat i - fftSize)) with (Z.to_nat wp) by lia.
      rewrite list_lookup_insert_eq by lia.
      rewrite lookup_app_r by (rewrite length_drop, length_rotate; lia).
      rewrite length_drop, length_rotate, Hlen.
      replace (i - (Z.to_nat fftSize - 1))%nat with 0%nat by lia. reflexivity.
    + rewrite lookup_app_l by (rewrite length_drop, length_rotate; lia).
      rewrite lookup_drop, lookup_rotate_r by lia.
      unfold rotate_nat_add. rewrite Hlen, !Z2Nat.id by lia.
      rewrite (mod_wrap (wp + Z.of_nat (1 + i)) fftSize) by lia.
      replace (wp + Z.of_nat (1 + i)) with (wp + 1 + Z.of_nat i) by lia.
      rewrite list_lookup_insert_ne; [reflexivity|].
      destruct (wp + 1 + Z.of_nat i <? fftSize) eqn:Hlt.
      * apply Z.ltb_lt in Hlt. lia.
      * apply Z.ltb_ge in Hlt. lia.
  - rewrite !lookup_ge_None_2; [reflexivity| |].
    + rewrite length_app, length_drop, length_rotate. cbn [length]. lia.
    + rewrite length_rotate, length_insert. lia.
Qed.

Lemma succ_mod (n H : Z) :
  0 < H -> (n + 1) mod H = if n mod H + 1 <? H then n mod H + 1 else 0.
Proof.
  intros HH. pose proof (Z.mod_pos_bound n H HH) as Hr.
  rewrite <- Zplus_mod_idemp_l, (mod_wrap (n mod H + 1) H) by lia.
  destruct (n mod H + 1 <? H) eqn:Hlt; [reflexivity|].
  apply Z.ltb_ge in Hlt. lia.
Qed.

Lemma lastHop_le (n : Z) : lastHop n <= n.
Proof. unfold lastHop. apply Z.mul_div_le. exact hopSize_pos. Qed.

(** a multiple of [hopSize] up to [n] is at most [lastHop n] *)
Lemma lastHop_greatest (m n : Z) : m mod hopSize = 0 -> m <= n -> m <= lastHop n.
Proof.
  intros Hm Hle. pose proof hopSize_pos as HH. unfold lastHop.
  rewrite (Z.div_mod m hopSize) by lia. rewrite Hm, Z.add_0_r.
  apply Z.mul_le_mono_nonneg_l; [lia|].
  apply Z.div_le_mono; lia.
Qed.

Lemma lastHop_mod (n : Z) : lastHop n mod hopSize = 0.
Proof. unfold lastHop. rewrite Z.mul_comm. apply Z_mod_mult. Qed.

Lemma pushSample_tracks (s : SpectrumAnalyzer.t) (h : list float) (x : float) :
  tracks s h ->
  tracks (pushSample s x) (h ++ [x])
  /\ (if (Z.of_nat (length h) + 1) mod hopSize =? 0
      then fftData (pushSample s x)
           = window (h ++ [x]) ++ drop (Z.to_nat fftSize) (fftData s)
           /\ newFFTDataAvailable (pushSample s x) = true
      else fftData (pushSample s x) = fftData s
           /\ newFFTDataAvailable (pushSample s x) = newFFTDataAvailable s).
Proof.
  intros (Hcb & Hfd & Hwp & Hhc & Hrot).
  pose proof fftSize_pos as HF. pose proof hopSize_pos as HH.
  pose proof (Z.mod_pos_bound (Z.of_nat (length h)) fftSize HF) as Hwb.
  pose proof (Z.mod_pos_bound (Z.of_nat (length h)) hopSize HH) as Hhb.
  set (n := Z.of_nat (length h)) in *.
  assert (Hwp' : Z.land (writePos s + 1) (fftSize - 1) = (n + 1) mod fftSize).
  { rewrite mask_mod, Hwp. apply Zplus_mod_idemp_l. }
  assert (Hrot' : rotate (Z.to_nat ((n + 1) mod fftSize))
                    (<[Z.to_nat (writePos s) := x]> (circularBuffer s))
                  = window (h ++ [x])).
  { rewrite window_snoc, <- Hrot, <- (Zplus_mod_idemp_l n), <- Hwp.
    apply rotate_write; [exact Hcb | lia]. }
  assert (Hlen' : Z.of_nat (length (h ++ [x])) = n + 1).
  { rewrite length_app. cbn [length]. lia. }
  pose proof (succ_mod n hopSize HH) as Hsucc.
  unfold pushSample. rewrite Hwp', Hhc.
  destruct (n mod hopSize + 1 <? hopSize) eqn:Hlt.
  - apply Z.ltb_lt in Hlt.
    replace (hopSize <=? n mod hopSize + 1) with false by (symmetry; apply Z.leb_gt; lia).
    replace ((n + 1) mod hopSize =? 0) with false by (symmetry; apply Z.eqb_neq; lia).
    split; [|split; reflexivity].
    unfold tracks. cbn [circularBuffer fftData writePos hopCounter].
    rewrite length_insert, Hlen'. repeat split; auto.
  - apply Z.ltb_ge in Hlt.
    replace (hopSize <=? n mod hopSize + 1) with true by (symmetry; apply Z.leb_le; lia).
    replace ((n + 1) mod hopSize =? 0) with true by (symmetry; apply Z.eqb_eq; lia).
    cbn [fftData newFFTDataAvailable].
    assert (Hcap : capture (<[Z.to_nat (writePos s) := x]> (circularBuffer s))
                     ((n + 1) mod fftSize) (fftData s)
                   = window (h ++ [x]) ++ drop (Z.to_nat fftSize) (fftData s)).
    { rewrite capture_rotate, Hrot'; [reflexivity| | |].
      - now rewrite length_insert.
      - rewrite Hfd. lia.
      - apply Z.mod_pos_bound. exact HF. }
    split; [|split; [exact Hcap | reflexivity]].
    unfold tracks. cbn [circularBuffer fftData writePos hopCounter].
    rewrite length_insert, Hlen', Hcap. repeat split; auto.
    rewrite length_app, length_window, length_drop, Hfd. lia.
Qed.

(** The analyzer as constructed has been pushed nothing. *)
Lemma init_tracks : tracks SpectrumAnalyzer.init [].
Proof.
  pose proof fftSize_pos as HF.
  unfold tracks, SpectrumAnalyzer.init.
  cbn [circularBuffer fftData writePos hopCounter length].
  rewrite !length_replicate, !Zmod_0_l.
  split; [reflexivity|]. split; [f_equal; lia|].
  split; [reflexivity|]. split; [reflexivity|].
  unfold window. cbn [length drop Z.to_nat]. rewrite app_nil_r.
  apply rotate_replicate.
Qed.

(** C8.  [pushSamples] appends every sample of [data] to the ring.  Count
    the samples pushed since construction: a capture happens exactly when
    the count reaches a multiple of [hopSize].  After the call the single
    snapshot buffer holds, in its first [fftSize] slots and oldest first,
    the [fftSize] most recent samples as of the last such count, and the
    flag is raised; earlier captures of the call are overwritten.  When
    the call reaches no multiple of [hopSize], snapshot and flag stay as
    they were. *)
Theorem pushSamples_snapshot (s : SpectrumAnalyzer.t) (h data : list float) :
  tracks s h ->
  let s' := pushSamples s data in
  let pushed := Z.of_nat (length (h ++ data)) in
  tracks s' (h ++ data)
  /\ (Z.of_nat (length h) < lastHop pushed ->
      newFFTDataAvailable s' = true
      /\ take (Z.to_nat fftSize) (fftData s')
         = window (take (Z.to_nat (lastHop pushed)) (h ++ data)))
  /\ (lastHop pushed <= Z.of_nat (length h) ->
      newFFTDataAvailable s' = newFFTDataAvailable s
      /\ fftData s' = fftData s)
  /\ drop (Z.to_nat fftSize) (fftData s') = drop (Z.to_nat fftSize) (fftData s).
Proof.
  revert s h. induction data as [|x data IH]; intros s h Htr; cbn zeta.
  - rewrite app_nil_r. unfold pushSamples. cbn [fold_left].
    pose proof (lastHop_le (Z.of_nat (length h))) as Hle.
    split; [exact Htr|]. split; [intros Hlt; lia|].
    split; [intros _; split; reflexivity | reflexivity].
  - destruct (pushSample_tracks s h x Htr) as [Htr1 Hstep].
    specialize (IH (pushSample s x) (h ++ [x]) Htr1). cbn zeta in IH.
    rewrite <- app_assoc in IH. cbn [app] in IH.
    change (pushSamples (pushSample s x) data) with (pushSamples s (x :: data)) in IH.
    set (s' := pushSamples s (x :: data)) in *.
    set (pushed := Z.of_nat (length (h ++ x :: data))) in *.
    destruct IH as (Htr' & Hcap & Hkeep & Hrest).
    assert (Hlen1 : Z.of_nat (length (h ++ [x])) = Z.of_nat (length h) + 1).
    { rewrite length_app. cbn [length]. lia. }
    rewrite Hlen1 in Hcap, Hkeep.
    assert (Hpushed : Z.of_nat (length h) + 1 <= pushed).
    { unfold pushed. rewrite length_app. cbn [length]. lia. }
    assert (Hrest1 : drop (Z.to_nat fftSize) (fftData (pushSample s x))
                     = drop (Z.to_nat fftSize) (fftData s)).
    { destruct ((Z.of_nat (length h) + 1) mod hopSize =? 0).
      - destruct Hstep as [-> _].
        now rewrite drop_app_length' by (now rewrite length_window).
      - now destruct Hstep as [-> _]. }
    split; [exact Htr'|]. split; [|split].
    + intros Hlt.
      destruct (Z.eq_dec (lastHop pushed) (Z.of_nat (length h) + 1)) as [Heq|Hne].
      * destruct (Hkeep ltac:(lia)) as [Hflag Hfd].
        rewrite Hflag, Hfd.
        replace ((Z.of_nat (length h) + 1) mod hopSize =? 0) with true in Hstep
          by (symmetry; apply Z.eqb_eq; rewrite <- Heq; apply lastHop_mod).
        destruct Hstep as [Hfd1 Hflag1]. split; [exact Hflag1|].
        rewrite Hfd1, take_app_length' by (now rewrite length_window).
        f_equal. rewrite Heq.
        change (h ++ x :: data) with (h ++ [x] ++ data). rewrite app_assoc.
        rewrite take_app_length'; [reflexivity|]. lia.
      * apply Hcap. lia.
    + intros Hle.
      destruct (Hkeep ltac:(lia)) as [Hflag Hfd]. rewrite Hflag, Hfd.
      replace ((Z.of_nat (length h) + 1) mod hopSize =? 0) with false in Hstep.
      * destruct Hstep as [-> ->]. split; reflexivity.
      * symmetry. apply Z.eqb_neq. intros Hmod.
        pose proof (lastHop_greatest _ _ Hmod Hpushed). lia.
    + now rewrite Hrest.
Qed.

(** [processFFT] consumes the flag and touches neither the ring nor the
    snapshot. *)
Lemma processFFT_tracks `{JuceFFT} `{Juce} (s : SpectrumAnalyzer.t) (h out : list float)
    (minDB maxDB : float) :
  tracks s h ->
  tracks (fst (processFFT s out minDB maxDB)) h
  /\ fftData (fst (processFFT s out minDB maxDB)) = fftData s
  /\ newFFTDataAvailable (fst (processFFT s out minDB maxDB)) = false.
Proof.
  intros Htr. unfold processFFT.
  destruct (newFFTDataAvailable s) eqn:Hflag; cbn [negb fst].
  - repeat split; try reflexivity; apply Htr.
  - repeat split; try reflexivity; try apply Htr. exact Hflag.
Qed.
End AnalyzerFacts.

Lemma pushSamples_snapshot_witness :
  let s' := SpectrumAnalyzer.pushSamples SpectrumAnalyzer.init hopBlock in
  let pushed := Z.of_nat (length ([] ++ hopBlock)) in
  tracks SpectrumAnalyzer.init []
  /\ Z.of_nat (length (@nil float)) < lastHop pushed
  /\ SpectrumAnalyzer.newFFTDataAvailable s' = true
  /\ take (Z.to_nat SpectrumAnalyzer.fftSize) (SpectrumAnalyzer.fftData s')
     = window (take (Z.to_nat (lastHop pushed)) ([] ++ hopBlock)).
Proof.
  intros s' pushed.
  assert (Htr : tracks SpectrumAnalyzer.init [])
    by (repeat split; vm_compute; reflexivity).
  assert (Hlt : Z.of_nat (length (@nil float)) < lastHop pushed)
    by (vm_compute; reflexivity).
  split; [exact Htr|]. split; [exact Hlt|].
  exact (proj1 (proj2 (pushSamples_snapshot SpectrumAnalyzer.init [] hopBlock Htr)) Hlt).
Defined.

(** ** The sign of the gain reduction *)

Section GainReductionSign.
Context `{Juce}.
Import DynamicEQBand.

(** [ratio >= 1.0f] on a canonical binary32 value *)
Lemma ratio_at_least_one (r : float) :
  valid_binary F32.prec F32.emax r = true -> fge r F32.one = true -> ratio_ge_one r.
Proof.
  unfold fge, SFleb, F32.one. intros Hv Hle.
  destruct r as [s|[]| |[] m e]; cbn [SFcompare] in Hle; cbn [ratio_ge_one];
    try discriminate; try exact I.
  cbn [valid_binary] in Hv.
  destruct (bounded_spec F32.prec F32.emax ltac:(reflexivity) m e Hv) as (Hm & He & Hn).
  change (emin F32.prec F32.emax) with (-149) in *.
  change (2 ^ (F32.prec - 1)) with 8388608 in Hn.
  destruct (Z_le_gt_dec 0 e) as [He0|He0]; [now left|right].
  destruct (-23 ?= e) eqn:Hc; try discriminate.
  - apply Z.compare_eq in Hc. subst e. change (2 ^ (- (-23))) with 8388608.
    change (Pos.compare_cont Eq 8388608 m) with (8388608 ?= m)%positive in Hle.
    destruct (8388608 ?= m)%positive eqn:Hm'; try discriminate.
    + destruct Hn as [Hn|Hn]; [exact Hn | discriminate Hn].
    + destruct Hn as [Hn|Hn]; [exact Hn | discriminate Hn].
  - change (-23 < e) in Hc. clear Hm He Hle Hv.
    destruct Hn as [Hn|Hn]; [|lia].
    pose proof (pow2_le (- e) 23 ltac:(lia)) as Hp. change (2 ^ 23) with 8388608 in Hp.
    lia.
Qed.

(** The gain computer on canonical inputs with a finite excess. *)
Lemma computeReduction_nonneg (p : BandParams.t) (envDB : float) :
  valid_binary F32.prec F32.emax envDB = true ->
  valid_binary F32.prec F32.emax (BandParams.threshold p) = true ->
  valid_binary F32.prec F32.emax (BandParams.ratio p) = true ->
  fge (BandParams.ratio p) F32.one = true ->
  is_finite (F32.sub envDB (BandParams.threshold p)) = true ->
  fge (computeReduction p envDB) F32.zero = true.
Proof.
  intros Hve Hvt Hvr Hr Hfin. unfold computeReduction, fge.
  destruct (fgt envDB (BandParams.threshold p)) eqn:Hgt; [|reflexivity].
  cbn zeta. apply nonneg_float_leb.
  destruct (sub_greater F32.prec F32.emax ltac:(reflexivity) envDB (BandParams.threshold p)
              Hve Hvt Hgt) as [Hnn Hrep].
  apply (reduction_nonneg F32.prec F32.emax ltac:(reflexivity)); auto.
  now apply ratio_at_least_one.
Qed.

(** C3, as amended.  Let the envelope reading, the threshold and the ratio
    be canonical binary32 values, the ratio at least 1, and the excess
    [envDB - threshold] finite.  Then the gain reduction published by
    [process] is >= 0, whether the band is disabled, static or dynamic,
    and it is 0 whenever the envelope reading is <= the threshold. *)
Theorem gain_reduction_nonneg (b : DynamicEQBand.t) (buffer : AudioBuffer) :
  let envDB := snd (detect b buffer) in
  valid_binary F32.prec F32.emax envDB = true ->
  valid_binary F32.prec F32.emax (BandParams.threshold (params b)) = true ->
  valid_binary F32.prec F32.emax (BandParams.ratio (params b)) = true ->
  fge (BandParams.ratio (params b)) F32.one = true ->
  is_finite (F32.sub envDB (BandParams.threshold (params b))) = true ->
  fge (gainReductionDB (fst (process b buffer))) F32.zero = true
  /\ (SFleb envDB (BandParams.threshold (params b)) = true ->
      gainReductionDB (fst (process b buffer)) = F32.zero).
Proof.
  intros envDB Hve Hvt Hvr Hr Hfin. rewrite process_gainReductionDB. fold envDB.
  destruct (negb (BandParams.enabled (params b))); [split; reflexivity|].
  destruct (negb (BandParams.dynamicOn (params b))); [split; reflexivity|].
  split; [now apply computeReduction_nonneg|].
  intros Hle. unfold computeReduction. now rewrite (SFleb_not_gt _ _ Hle).
Qed.

(** Without the ratio and the finiteness: no reduction at or below the
    threshold, and none for a NaN reading. *)
Lemma no_reduction_below_threshold (b : DynamicEQBand.t) (buffer : AudioBuffer) :
  fgt (snd (detect b buffer)) (BandParams.threshold (params b)) = false ->
  gainReductionDB (fst (process b buffer)) = F32.zero.
Proof.
  intros Hgt. rewrite process_gainReductionDB.
  destruct (negb (BandParams.enabled (params b))); [reflexivity|].
  destruct (negb (BandParams.dynamicOn (params b))); [reflexivity|].
  unfold computeReduction. now rewrite Hgt.
Qed.
End GainReductionSign.

(** C3: with the default threshold -20 dB and ratio 4, a block holding an
    infinite sample gives an infinite envelope reading; with the threshold
    at minus infinity, silence does.  In both cases the excess is
    [+inf], [excess / ratio] is [+inf] and the published reduction
    [inf - inf] is a NaN, which is not >= 0. *)
Lemma gain_reduction_nan_counterexample :
  (fge (BandParams.ratio (DynamicEQBand.params defaultBand)) F32.one = true
   /\ snd (DynamicEQBand.detect defaultBand infiniteBlock) = S754_infinity false
   /\ DynamicEQBand.gainReductionDB (fst (DynamicEQBand.process defaultBand infiniteBlock))
      = S754_nan)
  /\ (fge (BandParams.ratio (DynamicEQBand.params bottomlessBand)) F32.one = true
      /\ snd (DynamicEQBand.detect bottomlessBand silentBlock) = F32.of_Z (-100)
      /\ DynamicEQBand.gainReductionDB (fst (DynamicEQBand.process bottomlessBand silentBlock))
         = S754_nan)
  /\ fge S754_nan F32.zero = false.
Proof. repeat split; vm_compute; reflexivity. Qed.

Lemma gain_reduction_nonneg_witness :
  let envDB := snd (DynamicEQBand.detect freshBand smallBlock) in
  valid_binary F32.prec F32.emax envDB = true
  /\ valid_binary F32.prec F32.emax (BandParams.threshold (DynamicEQBand.params freshBand)) = true
  /\ valid_binary F32.prec F32.emax (BandParams.ratio (DynamicEQBand.params freshBand)) = true
  /\ fge (BandParams.ratio (DynamicEQBand.params freshBand)) F32.one = true
  /\ is_finite (F32.sub envDB (BandParams.threshold (DynamicEQBand.params freshBand))) = true
  /\ fge (DynamicEQBand.gainReductionDB (fst (DynamicEQBand.process freshBand smallBlock)))
         F32.zero = true.
Proof.
  intros envDB.
  assert (Hve : valid_binary F32.prec F32.emax envDB = true) by (vm_compute; reflexivity).
  assert (Hvt : valid_binary F32.prec F32.emax
                  (BandParams.threshold (DynamicEQBand.params freshBand)) = true)
    by (vm_compute; reflexivity).
  assert (Hvr : valid_binary F32.prec F32.emax
                  (BandParams.ratio (DynamicEQBand.params freshBand)) = true)
    by (vm_compute; reflexivity).
  assert (Hr : fge (BandParams.ratio (DynamicEQBand.params freshBand)) F32.one = true)
    by (vm_compute; reflexivity).
  assert (Hfin : is_finite (F32.sub envDB
                    (BandParams.threshold (DynamicEQBand.params freshBand))) = true)
    by (vm_compute; reflexivity).
  split; [exact Hve|]. split; [exact Hvt|]. split; [exact Hvr|].
  split; [exact Hr|]. split; [exact Hfin|].
  exact (proj1 (gain_reduction_nonneg freshBand smallBlock Hve Hvt Hvr Hr Hfin)).
Defined.

(** * Further properties of the code *)

(** ** The order of the comparisons *)

Lemma rank_le_trans (a b c : Z * Z * Z) : rank_le a b -> rank_le b c -> rank_le a c.
Proof. unfold rank_le. lia. Qed.

Lemma SFleb_rank (x y : spec_float) :
  is_nan x = false -> is_nan y = false ->
  SFleb x y = true <-> rank_le (rank x) (rank y).
Proof.
  intros Hx Hy. unfold SFleb, rank_le.
  destruct x as [sx|sx| |sx mx ex], y as [sy|sy| |sy my ey]; try discriminate;
    cbn [SFcompare rank fst snd];
    try (destruct sx); try (destruct sy); cbn [fst snd];
    try (split; [intros _; lia | intros _; reflexivity]);
    try (split; [discriminate | intros; lia]).
  all: change (Pos.compare_cont Eq mx my) with (Pos.compare mx my);
    destruct (Z.compare_spec ex ey) as [He|He|He];
    [ subst ey; destruct (Pos.compare_spec mx my) as [Hm|Hm|Hm]; [subst my| |] | | ];
    cbn [CompOpp].
  all: try (split; [intros _; lia | intros _; reflexivity]).
  all: try (split; [discriminate | intros; lia]).
Qed.

Lemma SFleb_not_nan (x y : spec_float) :
  SFleb x y = true -> is_nan x = false /\ is_nan y = false.
Proof.
  unfold SFleb. destruct x as [sx|sx| |sx mx ex], y as [sy|sy| |sy my ey];
    cbn; try discriminate; tauto.
Qed.

Lemma SFleb_trans (x y z : spec_float) :
  SFleb x y = true -> SFleb y z = true -> SFleb x z = true.
Proof.
  intros Hxy Hyz.
  destruct (SFleb_not_nan _ _ Hxy) as [Hx Hy].
  destruct (SFleb_not_nan _ _ Hyz) as [_ Hz].
  apply SFleb_rank; [assumption..|].
  apply (rank_le_trans _ (rank y)); now apply SFleb_rank.
Qed.

Lemma SFleb_refl (x : spec_float) : is_nan x = false -> SFleb x x = true.
Proof. intros Hx. apply SFleb_rank; [assumption..|]. unfold rank_le. lia. Qed.

(** of two values that are not NaN, one is not above the other *)
Lemma SFleb_total (x y : spec_float) :
  is_nan x = false -> is_nan y = false -> SFltb x y = false -> SFleb y x = true.
Proof.
  intros Hx Hy Hlt. unfold SFltb in Hlt. unfold SFleb.
  rewrite (SFcompare_antisym x y).
  destruct (SFcompare x y) as [c|] eqn:Hc.
  - destruct c; cbn in Hlt |- *; congruence.
  - destruct x as [sx|sx| |sx mx ex], y as [sy|sy| |sy my ey]; discriminate.
Qed.

Lemma SFabs_not_nan (x : spec_float) : is_nan x = false -> is_nan (SFabs x) = false.
Proof. now destruct x. Qed.

Lemma SFabs_nonneg (x : spec_float) : is_nan x = false -> SFleb (S754_zero false) (SFabs x) = true.
Proof. destruct x as [s|s| |s m e]; cbn; congruence. Qed.

(** [jlimit] on [float]: the result is within the limits, unless the
    value is a NaN, which it returns *)
Lemma jlimitf_range (lo hi v : float) :
  SFleb lo hi = true ->
  (is_nan v = true /\ jlimitf lo hi v = v)
  \/ (SFleb lo (jlimitf lo hi v) = true /\ SFleb (jlimitf lo hi v) hi = true).
Proof.
  intros Hlh. destruct (SFleb_not_nan _ _ Hlh) as [Hlo Hhi].
  destruct (is_nan v) eqn:Hv.
  - left. split; [reflexivity|]. destruct v; try discriminate.
    unfold jlimitf, SFltb. cbn. now destruct hi.
  - right. unfold jlimitf.
    destruct (SFltb v lo) eqn:H1.
    + split; [now apply SFleb_refl | exact Hlh].
    + destruct (SFltb hi v) eqn:H2.
      * split; [exact Hlh | now apply SFleb_refl].
      * split; now apply SFleb_total.
Qed.

(** ** [DynamicEQBand]: parameters and coefficients *)

Section BandParameters.
Context `{Juce}.
Import DynamicEQBand.

Lemma setAttackRelease_twice (e : EnvelopeFollower.t) (a1 r1 a2 r2 : float) :
  EnvelopeFollower.setAttackRelease (EnvelopeFollower.setAttackRelease e a1 r1) a2 r2
  = EnvelopeFollower.setAttackRelease e a2 r2.
Proof.
  unfold EnvelopeFollower.setAttackRelease.
  destruct (SFleb (EnvelopeFollower.sampleRate e) F64.zero) eqn:Hsr; cbn; rewrite Hsr;
    reflexivity.
Qed.

Lemma map_setState_twice (c1 c2 : Coefficients) (fs : list Filter) :
  map (setState c2) (map (setState c1) fs) = map (setState c2) fs.
Proof. induction fs as [|f fs IH]; cbn; [reflexivity|]. now rewrite IH. Qed.

(** every type of the enumeration has its [case] *)
Lemma synthesize_known (sr : double) (p : BandParams.t) (g : float) :
  0 <= BandParams.type p <= 6 -> exists c, synthesize sr p g = Some c.
Proof.
  intros Hty. unfold synthesize.
  assert (Hc : BandParams.type p = 0 \/ BandParams.type p = 1 \/ BandParams.type p = 2
               \/ BandParams.type p = 3 \/ BandParams.type p = 4
               \/ BandParams.type p = 5 \/ BandParams.type p = 6) by lia.
  destruct Hc as [E|[E|[E|[E|[E|[E|E]]]]]]; rewrite E; eexists; reflexivity.
Qed.

Lemma synthesize_unknown (sr : double) (p : BandParams.t) (g : float) :
  BandParams.type p < 0 \/ 6 < BandParams.type p -> synthesize sr p g = None.
Proof.
  intros Hty. unfold synthesize.
  destruct (BandParams.type p) as [|q|q]; [lia| |reflexivity].
  do 3 (destruct q as [q|q|]; try lia; try reflexivity).
Qed.

(** X1.  [updateParams] with the parameters it was given last changes
    nothing: parameters, envelope coefficients, both coefficient sets and
    all delay lines are those of the first call. *)
Theorem updateParams_idempotent (b : DynamicEQBand.t) (p : BandParams.t) :
  updateParams (updateParams b p) p = updateParams b p.
Proof.
  unfold updateParams, updateSidechainFilter, updateFilterCoefficients. simpl.
  destruct (SFleb (sampleRate b) F64.zero) eqn:Hsr; simpl.
  - repeat (rewrite Hsr; simpl). now rewrite setAttackRelease_twice.
  - destruct (synthesize (sampleRate b) p (BandParams.gain p)) as [c|] eqn:Hc;
      simpl; repeat (rewrite ?Hc; rewrite Hsr; simpl); rewrite ?Hc; simpl;
      rewrite setAttackRelease_twice, ?map_setState_idem; reflexivity.
Qed.

(** X2.  A band keeps nothing of the parameters it had before: when the type
    of the new parameters is one of the enumeration, [updateParams]
    after any earlier [updateParams] gives the band that [updateParams]
    alone gives. *)
Theorem updateParams_last_wins (b : DynamicEQBand.t) (p1 p2 : BandParams.t) :
  0 <= BandParams.type p2 <= 6 ->
  updateParams (updateParams b p1) p2 = updateParams b p2.
Proof.
  intros Hty.
  destruct (synthesize_known (sampleRate b) p2 (BandParams.gain p2) Hty) as [c2 Hc2].
  unfold updateParams, updateSidechainFilter, updateFilterCoefficients. simpl.
  destruct (SFleb (sampleRate b) F64.zero) eqn:Hsr; simpl.
  - repeat (rewrite Hsr; simpl). now rewrite setAttackRelease_twice.
  - rewrite Hc2.
    destruct (synthesize (sampleRate b) p1 (BandParams.gain p1)) as [c1|] eqn:Hc1;
      simpl; repeat (rewrite ?Hc2; rewrite Hsr; simpl); rewrite ?Hc2; simpl;
      rewrite setAttackRelease_twice, ?map_setState_twice; reflexivity.
Qed.

(** X3.  The [switch] of [updateFilterCoefficients] has no [default]: with a
    type outside the enumeration [updateParams] stores the parameters
    but leaves the filters, coefficients included, as they were. *)
Theorem updateParams_unknown_type (b : DynamicEQBand.t) (p : BandParams.t) :
  BandParams.type p < 0 \/ 6 < BandParams.type p ->
  params (updateParams b p) = p
  /\ filters (updateParams b p) = filters b.
Proof.
  intros Hty. destruct (updateParams_frame b p) as (Hp & _ & Hf).
  split; [exact Hp|]. rewrite Hf. unfold installed.
  destruct (SFleb (sampleRate b) F64.zero); [reflexivity|].
  now rewrite (synthesize_unknown _ _ _ Hty).
Qed.

(** ** [DynamicEQBand::process]: what it leaves alone *)

Lemma runFilters_length (fs : list Filter) (buffer : AudioBuffer) :
  length (fst (runFilters fs buffer)) = length fs.
Proof.
  revert buffer. induction fs as [|f fs IH]; intros buffer; cbn; [reflexivity|].
  destruct (filter_process (state f) (mem f) buffer) as [m buffer1].
  specialize (IH buffer1). destruct (runFilters fs buffer1) as [fs1 buffer2].
  cbn in *. now rewrite IH.
Qed.

Lemma runFilters_state (fs : list Filter) (buffer : AudioBuffer) :
  map state (fst (runFilters fs buffer)) = map state fs.
Proof.
  revert buffer. induction fs as [|f fs IH]; intros buffer; cbn; [reflexivity|].
  destruct (filter_process (state f) (mem f) buffer) as [m buffer1].
  specialize (IH buffer1). destruct (runFilters fs buffer1) as [fs1 buffer2].
  cbn in *. now rewrite IH.
Qed.

Lemma updateFilterCoefficients_length (b : DynamicEQBand.t) (g : float) :
  length (filters (updateFilterCoefficients b g)) = length (filters b)
  /\ sidechainFilter (updateFilterCoefficients b g) = sidechainFilter b.
Proof.
  unfold updateFilterCoefficients.
  destruct (SFleb (sampleRate b) F64.zero); [tauto|].
  destruct (synthesize _ _ _); cbn; [|tauto]. now rewrite length_map.
Qed.

(** X4.  [process] never changes the parameters, the sample rate, the
    sidechain filter or the number of filter sections; a band that is
    disabled or static keeps its envelope follower and its coefficients,
    and a disabled band its delay lines too. *)
Theorem process_frame (b : DynamicEQBand.t) (buffer : AudioBuffer) :
  let b' := fst (process b buffer) in
  params b' = params b
  /\ sampleRate b' = sampleRate b
  /\ sidechainFilter b' = sidechainFilter b
  /\ length (filters b') = length (filters b)
  /\ (BandParams.enabled (params b) && BandParams.dynamicOn (params b) = false ->
      envelopeFollower b' = envelopeFollower b
      /\ map state (filters b') = map state (filters b))
  /\ (BandParams.enabled (params b) = false -> filters b' = filters b).
Proof.
  cbn zeta. unfold process.
  destruct (BandParams.enabled (params b)); cbn [negb andb].
  2:{ cbn. repeat split; reflexivity. }
  destruct (BandParams.dynamicOn (params b)); cbn [negb].
  - destruct (detect b buffer) as [e envDB].
    set (b1 := setGainReduction (setEnvelopeFollower b e) _).
    set (g := F32.sub _ _).
    destruct (updateFilterCoefficients_frame b1 g) as (_ & Hp & Hsr & _).
    destruct (updateFilterCoefficients_length b1 g) as (Hlen & Hsc).
    pose proof (runFilters_length (filters (updateFilterCoefficients b1 g)) buffer) as Hrl.
    destruct (runFilters (filters (updateFilterCoefficients b1 g)) buffer) as [fs out].
    cbn [fst setFilters params sampleRate sidechainFilter filters] in *.
    rewrite Hp, Hsr, Hsc, Hrl, Hlen.
    repeat split; try reflexivity; discriminate.
  - pose proof (runFilters_length (filters b) buffer) as Hrl.
    pose proof (runFilters_state (filters b) buffer) as Hrs.
    destruct (runFilters (filters b) buffer) as [fs out].
    cbn in *. repeat split; try assumption; try reflexivity; discriminate.
Qed.

(** X5.  The sidechain band-pass filter is set up by [updateParams] but never
    run: whatever it holds, [process] writes the same samples, publishes
    the same gain reduction and leaves the same band. *)
Theorem process_ignores_sidechain
    (b : DynamicEQBand.t) (f : Filter) (buffer : AudioBuffer) :
  process (withSidechain b f) buffer
  = (withSidechain (fst (process b buffer)) f, snd (process b buffer)).
Proof.
  unfold process, withSidechain. cbn [params].
  destruct (BandParams.enabled (params b)); cbn [negb]; [|reflexivity].
  destruct (BandParams.dynamicOn (params b)); cbn [negb].
  - unfold detect. cbn [envelopeFollower].
    destruct (EnvelopeFollower.process (envelopeFollower b) _) as [e env].
    unfold updateFilterCoefficients, setGainReduction, setEnvelopeFollower.
    cbn [sampleRate params filters].
    destruct (SFleb (sampleRate b) F64.zero).
    + cbn [filters]. destruct (runFilters (filters b) buffer) as [fs out]. reflexivity.
    + destruct (synthesize _ _ _) as [c|]; cbn [filters];
        destruct (runFilters _ buffer) as [fs out]; reflexivity.
  - cbn [filters]. destruct (runFilters (filters b) buffer) as [fs out]. reflexivity.
Qed.
End BandParameters.

(** ** The level detector of [DynamicEQBand::process] *)

Section PeakDetector.
Import DynamicEQBand.

Lemma SFltb_leb (x y : spec_float) : SFltb x y = true -> SFleb x y = true.
Proof. unfold SFltb, SFleb. now destruct (SFcompare x y) as [[]|]. Qed.

Lemma SFltb_nan_r (x : spec_float) : SFltb x S754_nan = false.
Proof. now destruct x. Qed.

(** one step of the peak loop: the peak stays a level and does not fall *)
Lemma peak_step (pk x : float) :
  is_nan pk = false ->
  is_nan (std_max pk (SFabs x)) = false
  /\ SFleb pk (std_max pk (SFabs x)) = true
  /\ (is_nan x = false -> SFleb (SFabs x) (std_max pk (SFabs x)) = true)
  /\ (std_max pk (SFabs x) = pk \/ std_max pk (SFabs x) = SFabs x).
Proof.
  intros Hpk. unfold std_max.
  destruct (is_nan x) eqn:Hx.
  - destruct x; try discriminate. cbn [SFabs]. rewrite SFltb_nan_r.
    repeat split; [exact Hpk | now apply SFleb_refl | discriminate | now left].
  - pose proof (SFabs_not_nan x Hx) as Ha.
    destruct (SFltb pk (SFabs x)) eqn:Hlt.
    + repeat split; [exact Ha | now apply SFltb_leb | intros _; now apply SFleb_refl | now right].
    + repeat split; [exact Hpk | now apply SFleb_refl
                     | intros _; now apply SFleb_total | now left].
Qed.

Lemma channelPeak_spec (data : list float) (pk : float) :
  is_nan pk = false ->
  is_nan (channelPeak pk data) = false
  /\ SFleb pk (channelPeak pk data) = true
  /\ (forall i x, data !! i = Some x -> is_nan x = false ->
      SFleb (SFabs x) (channelPeak pk data) = true)
  /\ (channelPeak pk data = pk
      \/ exists i x, data !! i = Some x /\ channelPeak pk data = SFabs x).
Proof.
  revert pk. induction data as [|y data IH]; intros pk Hpk.
  - cbn. repeat split; [exact Hpk | now apply SFleb_refl | | now left].
    intros i x Hi. destruct i; discriminate Hi.
  - unfold channelPeak. cbn [fold_left]. fold (channelPeak (std_max pk (SFabs y)) data).
    destruct (peak_step pk y Hpk) as (Hn & Hle & Hup & Hat).
    destruct (IH _ Hn) as (Hn' & Hle' & Hup' & Hat').
    split; [exact Hn'|]. split; [exact (SFleb_trans _ _ _ Hle Hle')|]. split.
    + intros [|i] x Hi Hx; cbn in Hi.
      * injection Hi as ->. exact (SFleb_trans _ _ _ (Hup Hx) Hle').
      * exact (Hup' i x Hi Hx).
    + destruct Hat' as [Heq|(i & x & Hi & Heq)].
      * rewrite Heq. destruct Hat as [->| ->]; [now left|].
        right. exists 0%nat, y. split; reflexivity.
      * right. exists (S i), x. split; assumption.
Qed.

Lemma peakLoop_spec (buffer : AudioBuffer) (pk : float) :
  is_nan pk = false ->
  let r := fold_left channelPeak buffer pk in
  is_nan r = false
  /\ SFleb pk r = true
  /\ (forall c i ch x, buffer !! c = Some ch -> ch !! i = Some x -> is_nan x = false ->
      SFleb (SFabs x) r = true)
  /\ (r = pk \/ exists c i ch x, buffer !! c = Some ch /\ ch !! i = Some x /\ r = SFabs x).
Proof.
  revert pk. induction buffer as [|ch0 buffer IH]; intros pk Hpk; cbn zeta.
  - cbn. repeat split; [exact Hpk | now apply SFleb_refl | | now left].
    intros c i ch x Hc. destruct c; discriminate Hc.
  - cbn [fold_left].
    destruct (channelPeak_spec ch0 pk Hpk) as (Hn & Hle & Hup & Hat).
    destruct (IH _ Hn) as (Hn' & Hle' & Hup' & Hat'). cbn zeta in *.
    split; [exact Hn'|]. split; [exact (SFleb_trans _ _ _ Hle Hle')|]. split.
    + intros [|c] i ch x Hc Hi Hx; cbn in Hc.
      * injection Hc as ->. exact (SFleb_trans _ _ _ (Hup i x Hi Hx) Hle').
      * exact (Hup' c i ch x Hc Hi Hx).
    + destruct Hat' as [Heq|(c & i & ch & x & Hc & Hi & Heq)].
      * rewrite Heq. destruct Hat as [->|(i & x & Hi & ->)]; [now left|].
        right. exists 0%nat, i, ch0, x. repeat split. exact Hi.
      * right. exists (S c), i, ch, x. repeat split; assumption.
Qed.

(** X6.  The detected peak is an upper bound: no sample of the block that is
    not a NaN has a magnitude above it. *)
Theorem blockPeak_upper_bound (buffer : AudioBuffer) (c i : nat)
    (ch : list float) (x : float) :
  buffer !! c = Some ch -> ch !! i = Some x -> is_nan x = false ->
  SFleb (SFabs x) (blockPeak buffer) = true.
Proof.
  intros Hc Hi Hx.
  destruct (peakLoop_spec buffer F32.zero eq_refl) as (_ & _ & Hup & _).
  exact (Hup c i ch x Hc Hi Hx).
Qed.

(** X7.  The detected peak is never a NaN and never negative, NaN samples
    being passed over, and it is no invented value: it is 0 or the
    magnitude of a sample of the block. *)
Theorem blockPeak_attained (buffer : AudioBuffer) :
  is_nan (blockPeak buffer) = false
  /\ SFleb F32.zero (blockPeak buffer) = true
  /\ (blockPeak buffer = F32.zero
      \/ exists c i ch x,
           buffer !! c = Some ch /\ ch !! i = Some x /\ blockPeak buffer = SFabs x).
Proof.
  destruct (peakLoop_spec buffer F32.zero eq_refl) as (Hn & Hle & _ & Hat).
  repeat split; assumption.
Qed.
End PeakDetector.

(** ** One-pole smoothing: the envelope follower and the spectrum *)

Section Smoothing.
Variables prec emax : Z.
Hypothesis Hprec : 0 < prec.
Hypothesis Hemax : prec < emax.

(** a product of two finite values that are not negative *)
Lemma mul_nonneg (a b : spec_float) :
  nonneg_float a -> is_finite a = true -> nonneg_float b -> is_finite b = true ->
  nonneg_float (SFmul prec emax a b).
Proof.
  intros Ha Hfa Hb Hfb.
  destruct a as [sa|sa| |sa ma ea], b as [sb|sb| |sb mb eb]; try discriminate;
    cbn in Ha, Hb |- *; try exact I.
  subst sa sb. cbn [xorb]. apply binary_round_aux_sign. lia.
Qed.

(** a sum of two values that are not negative *)
Lemma add_nonneg (a b : spec_float) :
  nonneg_float a -> nonneg_float b -> nonneg_float (SFadd prec emax a b).
Proof.
  intros Ha Hb.
  destruct a as [sa|sa| |sa ma ea], b as [sb|sb| |sb mb eb]; cbn in Ha, Hb; try tauto;
    subst; cbn [SFadd Bool.eqb nonneg_float]; try reflexivity; try exact I.
  - destruct sa, sb; exact I.
  - cbn [cond_Zopp Z.add binary_normalize]. now apply binary_round_class.
Qed.

(** rounding a value below [2^(emax - 1)] does not overflow *)
Lemma binary_round_finite (m : positive) (e : Z) :
  Zdigits2 (Zpos m) + e < emax ->
  is_finite (binary_round prec emax false m e) = true.
Proof.
  intros Hmag. unfold binary_round.
  set (ef := fexp prec emax (Zpos (digits2_pos m) + e)).
  destruct (shl_align m e ef) as [mz ez] eqn:Hal.
  assert (Hmz : Zdigits2 (Zpos mz) + ez = Zdigits2 (Zpos m) + e
                /\ ez <= fexp prec emax (Zdigits2 (Zpos mz) + ez)).
  { destruct (Z_le_gt_dec e ef) as [Hle|Hgt].
    - rewrite shl_align_keep in Hal by exact Hle. injection Hal as <- <-.
      split; [reflexivity | exact Hle].
    - destruct (shl_align_spec m e ef ltac:(lia)) as [Heq Hm].
      rewrite Hal in Hm. cbn [fst] in Hm.
      rewrite Hal in Heq. injection Heq as _ ->.
      rewrite Hm, Zdigits2_shl by lia.
      split; [lia|]. cbn [Zdigits2].
      replace (Zpos (digits2_pos m) + (e - ef) + ef)
        with (Zpos (digits2_pos m) + e) by lia.
      fold ef. lia. }
  destruct Hmz as [Hdig Hpre].
  destruct (binary_round_aux_spec prec emax Hprec false (Zpos mz) ez loc_Exact
              ltac:(lia) Hpre) as (m2 & e2 & -> & Hm2 & He2 & Hval & Hn2 & _).
  cbn zeta in He2, Hval.
  set (e1 := fexp prec emax (Zdigits2 (Zpos mz) + ez)) in *.
  set (m1 := Zpos mz / 2 ^ (e1 - ez)) in *.
  assert (Hm1 : m1 < 2 ^ prec).
  { apply Z.div_lt_upper_bound; [apply pow2_pos; lia|].
    destruct (Zdigits2_bounds (Zpos mz) ltac:(lia)) as [Hd [_ Hhi]].
    assert (Hn : Zdigits2 (Zpos mz) <= e1 - ez + prec) by (unfold e1, fexp; lia).
    rewrite <- pow2_split by lia.
    pose proof (pow2_le (Zdigits2 (Zpos mz)) (e1 - ez + prec) ltac:(lia)). lia. }
  assert (He1 : e1 <= emax - prec - 1) by (unfold e1, fexp, emin; lia).
  unfold finish. destruct m2 as [|p|p]; [reflexivity| |lia].
  assert (Hov : e2 <= emax - prec).
  { destruct Hn2 as [Hn|Hn]; [|unfold emin in Hn; lia].
    destruct (Z_le_gt_dec e2 (e1 + 1)) as [Hle|Hgt]; [lia|]. exfalso.
    pose proof (pow2_pos (prec - 1) ltac:(lia)) as HP.
    assert (Hp : 2 ^ prec = 2 ^ (prec - 1) * 2).
    { replace prec with (prec - 1 + 1) at 1 by lia. now rewrite pow2_split by lia. }
    pose proof (pow2_le 2 (e2 - e1) ltac:(lia)) as H2. change (2 ^ 2) with 4 in H2.
    set (P := 2 ^ (prec - 1)) in *. set (D := 2 ^ (e2 - e1)) in *.
    assert (Zpos p * D <= m1 + 1) by lia.
    nia. }
  replace (e2 <=? emax - prec) with true by (symmetry; now apply Z.leb_le).
  reflexivity.
Qed.
End Smoothing.

Section SmoothingF32.

Lemma F32_prec_pos : 0 < F32.prec.
Proof. reflexivity. Qed.

Lemma F32_prec_emax : F32.prec < F32.emax.
Proof. reflexivity. Qed.

Lemma isLevel_nonneg (x : float) : isLevel x = true -> nonneg_float x /\ is_finite x = true.
Proof.
  unfold isLevel. intros Hl. apply andb_prop in Hl. destruct Hl as [Hf Hle].
  split; [|exact Hf].
  destruct x as [s|s| |s m e]; try discriminate; cbn; [exact I|].
  destruct s; [discriminate Hle | reflexivity].
Qed.

(** [1.0f - c] for a coefficient [c] in [0, 1]: finite and not negative *)
Lemma one_minus_unit (c : float) :
  unitCoefficient c = true ->
  nonneg_float (F32.sub F32.one c) /\ is_finite (F32.sub F32.one c) = true.
Proof.
  unfold unitCoefficient. intros Hu.
  apply andb_prop in Hu. destruct Hu as [Hu Hle1].
  apply andb_prop in Hu. destruct Hu as [Hv Hle0].
  destruct c as [s|s| |s m e]; try discriminate.
  - destruct s; split; reflexivity.
  - destruct s; [discriminate Hle0 | discriminate Hle1].
  - destruct s; [discriminate Hle0|].
    cbn [valid_binary] in Hv.
    destruct (bounded_spec F32.prec F32.emax F32_prec_pos m e Hv) as (Hm & He & Hn).
    change (2 ^ F32.prec) with 16777216 in Hm.
    change (2 ^ (F32.prec - 1)) with 8388608 in Hn.
    change (emin F32.prec F32.emax) with (-149) in Hn, He.
    apply SFleb_rank in Hle1; [|reflexivity..].
    unfold rank_le in Hle1. cbn [rank F32.one fst snd] in Hle1.
    assert (Hcases : (e = -23 /\ Zpos m = 8388608) \/ e < -23) by lia.
    destruct Hcases as [[-> Hm1]|Hlt].
    { injection Hm1 as ->. split; reflexivity. }
    unfold F32.sub, F32.one. cbn [SFsub].
    replace (Z.min (-23) e) with e by lia.
    destruct (shl_align_spec 8388608 (-23) e ltac:(lia)) as [_ H1].
    rewrite H1. rewrite shl_align_keep by lia. cbn [fst cond_Zopp].
    pose proof (pow2_pos (-23 - e) ltac:(lia)) as Hp.
    assert (Hbig : Zpos m < 8388608 * 2 ^ (-23 - e)).
    { pose proof (pow2_le 1 (-23 - e) ltac:(lia)) as H2. change (2 ^ 1) with 2 in H2.
      nia. }
    destruct (8388608 * 2 ^ (-23 - e) - Zpos m) as [|d|d] eqn:Hd; try lia.
    cbn [binary_normalize]. split.
    + now apply (binary_round_class F32.prec F32.emax F32_prec_pos).
    + apply binary_round_finite; [exact F32_prec_pos | exact F32_prec_emax |].
      assert (Hdlt : Zpos d < 2 ^ (- e)).
      { replace (- e) with (23 + (-23 - e)) by lia. rewrite pow2_split by lia.
        change (2 ^ 23) with 8388608. lia. }
      pose proof (Zdigits2_le (Zpos d) (- e) ltac:(lia) ltac:(lia)).
      unfold F32.emax. lia.
Qed.

(** one step of a one-pole smoother, [c * s + (1 - c) * x], on levels *)
Lemma onePole_nonneg (c s x : float) :
  unitCoefficient c = true -> isLevel s = true -> isLevel x = true ->
  nonneg_float (F32.add (F32.mul c s) (F32.mul (F32.sub F32.one c) x)).
Proof.
  intros Hc Hs Hx.
  destruct (isLevel_nonneg s Hs) as [Hs0 Hsf].
  destruct (isLevel_nonneg x Hx) as [Hx0 Hxf].
  destruct (one_minus_unit c Hc) as [Hd0 Hdf].
  assert (Hcl : isLevel c = true).
  { unfold unitCoefficient in Hc. unfold isLevel.
    apply andb_prop in Hc. destruct Hc as [Hc _].
    apply andb_prop in Hc. destruct Hc as [Hv H0].
    rewrite H0, andb_true_r. destruct c; try discriminate; reflexivity. }
  destruct (isLevel_nonneg c Hcl) as [Hc0 Hcf].
  apply add_nonneg; [exact F32_prec_pos | |]; apply mul_nonneg; assumption.
Qed.

Lemma nonneg_not_nan (x : spec_float) : nonneg_float x -> is_nan x = false.
Proof. destruct x; cbn; tauto. Qed.

(** X8.  With attack and release coefficients in [0, 1], one step of the
    envelope follower from a level (finite, not negative) on an input
    level gives an envelope that is neither negative nor a NaN. *)
Theorem envelope_process_nonneg (e : EnvelopeFollower.t) (inputLevel : float) :
  unitCoefficient (EnvelopeFollower.attackCoeff e) = true ->
  unitCoefficient (EnvelopeFollower.releaseCoeff e) = true ->
  isLevel (EnvelopeFollower.envelope e) = true ->
  isLevel inputLevel = true ->
  let r := snd (EnvelopeFollower.process e inputLevel) in
  is_nan r = false
  /\ fge r F32.zero = true
  /\ EnvelopeFollower.getEnvelope (fst (EnvelopeFollower.process e inputLevel)) = r.
Proof.
  intros Ha Hr He Hx. cbn zeta. unfold EnvelopeFollower.process. cbn [fst snd].
  set (c := if fgt inputLevel (EnvelopeFollower.envelope e) then _ else _).
  assert (Hc : unitCoefficient c = true) by (unfold c; now destruct (fgt _ _)).
  pose proof (onePole_nonneg c _ _ Hc He Hx) as Hn.
  split; [now apply nonneg_not_nan|]. split; [|reflexivity].
  now apply (nonneg_float_leb).
Qed.

(** X9.  One bin of the spectrum smoothing of [timerCallback]: from levels it
    gives a value that is neither negative nor a NaN. *)
Theorem smoothBin_nonneg (smoothed data : float) :
  isLevel smoothed = true -> isLevel data = true ->
  is_nan (SpectrumView.smoothBin smoothed data) = false
  /\ fge (SpectrumView.smoothBin smoothed data) F32.zero = true.
Proof.
  intros Hs Hd. unfold SpectrumView.smoothBin.
  set (c := if fgt data smoothed then _ else _).
  assert (Hc : unitCoefficient c = true) by (unfold c; now destruct (fgt _ _)).
  pose proof (onePole_nonneg c _ _ Hc Hs Hd) as Hn.
  split; [now apply nonneg_not_nan | now apply nonneg_float_leb].
Qed.
End SmoothingF32.

(** ** [DynamicEQAudioProcessor]: preparation, invariants, saved state *)

Section ProcessorInvariants.
Context `{Juce}.
Import DynamicEQAudioProcessor.

Lemma jlimit_range (lo hi v : Z) : lo <= hi -> lo <= jlimit lo hi v <= hi.
Proof.
  intros Hle. unfold jlimit.
  destruct (v <? lo) eqn:H1; [lia|]. destruct (hi <? v) eqn:H2; lia.
Qed.

Lemma jlimit_inside (lo hi v : Z) : lo <= v <= hi -> jlimit lo hi v = v.
Proof.
  intros Hin. unfold jlimit.
  destruct (v <? lo) eqn:H1; [lia|]. destruct (hi <? v) eqn:H2; lia.
Qed.

(** the band that [prepareToPlay] leaves at the index [i] *)
Lemma prepareLoop (spec : ProcessSpec) (todo pre post : list DynamicEQBand.t)
    (p : DynamicEQAudioProcessor.t) :
  bands p = pre ++ todo ++ post ->
  fold_left
    (fun p i =>
       match bands p !! i with
       | Some b =>
           updateBandParams
             (setBands p (<[i := DynamicEQBand.prepare b spec]> (bands p)))
             (Z.of_nat i)
       | None => p
       end)
    (seq (length pre) (length todo)) p
  = setBands p
      (pre ++ imap (fun j b =>
                      DynamicEQBand.updateParams (DynamicEQBand.prepare b spec)
                        (readBandParams p (Z.of_nat (length pre + j)))) todo
           ++ post).
Proof.
  revert pre p. induction todo as [|b todo IH]; intros pre p Hb.
  - simpl in Hb |- *. rewrite <- Hb, setBands_bands. reflexivity.
  - cbn [length seq fold_left imap].
    change ((b :: todo) ++ post) with (b :: todo ++ post) in Hb.
    rewrite Hb, list_lookup_middle by reflexivity.
    set (b1 := DynamicEQBand.prepare b spec).
    set (b2 := DynamicEQBand.updateParams b1 (readBandParams p (Z.of_nat (length pre + 0)))).
    assert (Hins : forall x y : DynamicEQBand.t,
               <[length pre := x]> (pre ++ y :: todo ++ post) = pre ++ x :: todo ++ post).
    { intros x y. replace (length pre) with (length pre + 0)%nat at 1 by lia.
      now rewrite insert_app_r. }
    rewrite Hins.
    assert (Hstep : updateBandParams (setBands p (pre ++ b1 :: todo ++ post))
                      (Z.of_nat (length pre))
                    = setBands p (pre ++ b2 :: todo ++ post)).
    { unfold updateBandParams. rewrite Nat2Z.id. cbn [bands setBands].
      rewrite list_lookup_middle by reflexivity. rewrite Hins.
      unfold b2. rewrite Nat.add_0_r. reflexivity. }
    rewrite Hstep.
    specialize (IH (pre ++ [b2]) (setBands p (pre ++ b2 :: todo ++ post))).
    rewrite length_app in IH. cbn [length] in IH.
    replace (length pre + 1)%nat with (S (length pre)) in IH by lia.
    rewrite IH by (cbn [bands setBands]; now rewrite <- app_assoc).
    unfold setBands. cbn. f_equal. rewrite <- app_assoc. cbn [app]. f_equal. f_equal.
    f_equal. apply imap_ext. intros j x _. cbn.
    replace (S (length pre + j)) with (length pre + S j)%nat by lia. reflexivity.
Qed.

(** [prepareToPlay] keeps the size of the array and the active count *)
Lemma prepareToPlay_keeps (p : DynamicEQAudioProcessor.t)
    (sampleRate : double) (samplesPerBlock : Z) :
  length (bands (prepareToPlay p sampleRate samplesPerBlock)) = length (bands p)
  /\ activeBandCount (prepareToPlay p sampleRate samplesPerBlock) = activeBandCount p.
Proof.
  unfold prepareToPlay.
  set (spec := {| spec_sampleRate := sampleRate;
                  spec_maximumBlockSize := samplesPerBlock;
                  spec_numChannels := totalNumOutputChannels p |}).
  set (p0 := {| apvts := apvts p; activeBandCount := activeBandCount p;
                bands := bands p; preSpectrum := preSpectrum p;
                postSpectrum := postSpectrum p; lastSampleRate := sampleRate;
                totalNumInputChannels := totalNumInputChannels p;
                totalNumOutputChannels := totalNumOutputChannels p |}).
  set (step := fun (q : DynamicEQAudioProcessor.t) (i : nat) =>
                 match bands q !! i with
                 | Some b =>
                     updateBandParams
                       (setBands q (<[i := DynamicEQBand.prepare b spec]> (bands q)))
                       (Z.of_nat i)
                 | None => q
                 end).
  assert (Hstep : forall q i, length (bands (step q i)) = length (bands q)
                              /\ activeBandCount (step q i) = activeBandCount q).
  { intros q i. unfold step, updateBandParams.
    destruct (bands q !! i) as [b|]; [|tauto]. cbn [bands setBands].
    destruct (<[i := DynamicEQBand.prepare b spec]> (bands q) !! Z.to_nat (Z.of_nat i));
      cbn; rewrite ?length_insert; tauto. }
  generalize (seq 0 (Z.to_nat numBands)). intros idx.
  change (bands p) with (bands p0). change (activeBandCount p) with (activeBandCount p0).
  generalize p0. induction idx as [|i idx IH]; intros q; cbn [fold_left]; [tauto|].
  destruct (IH (step q i)) as [IH1 IH2]. destruct (Hstep q i) as [H1 H2].
  split; congruence.
Qed.

(** X10.  [prepareToPlay] prepares every band of the array, the inactive ones
    too, and then gives it the parameters of its index: it records the
    sample rate, keeps the active count, and leaves at each index the
    band that was there, prepared for the new sample rate and updated
    with the parameters read from the tree. *)
Theorem prepareToPlay_bands (p : DynamicEQAudioProcessor.t)
    (sampleRate : double) (samplesPerBlock : Z) :
  length (bands p) = Z.to_nat numBands ->
  let spec := {| spec_sampleRate := sampleRate;
                 spec_maximumBlockSize := samplesPerBlock;
                 spec_numChannels := totalNumOutputChannels p |} in
  let p' := prepareToPlay p sampleRate samplesPerBlock in
  lastSampleRate p' = sampleRate
  /\ activeBandCount p' = activeBandCount p
  /\ bands p'
     = imap (fun i b => DynamicEQBand.updateParams (DynamicEQBand.prepare b spec)
                          (readBandParams p (Z.of_nat i)))
            (bands p).
Proof.
  intros Hlen spec p'. unfold p', prepareToPlay. fold spec.
  set (p0 := {| apvts := apvts p; activeBandCount := activeBandCount p;
                bands := bands p; preSpectrum := preSpectrum p;
                postSpectrum := postSpectrum p; lastSampleRate := sampleRate;
                totalNumInputChannels := totalNumInputChannels p;
                totalNumOutputChannels := totalNumOutputChannels p |}).
  pose proof (prepareLoop spec (bands p) [] [] p0) as Hl.
  cbn [length app] in Hl. rewrite Hlen in Hl.
  rewrite Hl by (cbn; now rewrite app_nil_r).
  cbn. rewrite app_nil_r. repeat split; reflexivity.
Qed.

Lemma cascade_length (bs : list DynamicEQBand.t) (buffer : AudioBuffer) :
  length (fst (cascade bs buffer)) = length bs.
Proof.
  revert buffer. induction bs as [|b bs IH]; intros buffer; cbn; [reflexivity|].
  destruct (DynamicEQBand.process b buffer) as [b' buffer1].
  specialize (IH buffer1). destruct (cascade bs buffer1) as [bs1 buffer2].
  cbn in *. now rewrite IH.
Qed.

Lemma runBands_frame (p : DynamicEQAudioProcessor.t) (buffer : AudioBuffer) :
  (Z.to_nat (activeBandCount p) <= length (bands p))%nat ->
  length (bands (fst (runBands p buffer))) = length (bands p)
  /\ activeBandCount (fst (runBands p buffer)) = activeBandCount p
  /\ apvts (fst (runBands p buffer)) = apvts p
  /\ lastSampleRate (fst (runBands p buffer)) = lastSampleRate p.
Proof.
  intros Hn. rewrite (runBands_cascade p buffer Hn). cbn [fst setBands bands activeBandCount
    apvts lastSampleRate].
  rewrite length_app, cascade_length. unfold refresh. rewrite length_imap, length_take, length_drop.
  repeat split; try reflexivity. lia.
Qed.

(** X11.  The array of bands stays complete and the active count stays within
    1 .. numBands: [setActiveBandCount] puts any count into the range,
    and [prepareToPlay] and [processBlock] keep both. *)
Theorem wellFormed_kept (p : DynamicEQAudioProcessor.t) (count : Z)
    (sampleRate : double) (samplesPerBlock : Z) (buffer : AudioBuffer) :
  wellFormed p ->
  wellFormed (setActiveBandCount p count)
  /\ (1 <= count <= numBands -> getActiveBandCount (setActiveBandCount p count) = count)
  /\ wellFormed (prepareToPlay p sampleRate samplesPerBlock)
  /\ wellFormed (fst (processBlock p buffer)).
Proof.
  intros [Hlen Hcount]. split; [|split; [|split]].
  - split; [exact Hlen|]. apply setActiveBandCount_range.
  - intros Hin. unfold getActiveBandCount, setActiveBandCount. cbn [activeBandCount].
    now apply jlimit_inside.
  - destruct (prepareToPlay_keeps p sampleRate samplesPerBlock) as (Hl & Hc).
    split; [now rewrite Hl | now rewrite Hc].
  - unfold processBlock.
    set (p1 := setPreSpectrum p _).
    assert (Hn : (Z.to_nat (activeBandCount p1) <= length (bands p1))%nat).
    { unfold p1. cbn [setPreSpectrum activeBandCount bands]. rewrite Hlen.
      unfold numBands in *. lia. }
    destruct (runBands_frame p1 (clearExtraChannels p buffer) Hn) as (Hl & Hc & _).
    destruct (runBands p1 (clearExtraChannels p buffer)) as [p2 buffer1].
    cbn [fst] in *. split.
    + cbn [setPostSpectrum bands]. rewrite Hl. exact Hlen.
    + cbn [setPostSpectrum activeBandCount]. rewrite Hc. exact Hcount.
Qed.
(** X12.  The analyzers stand on either side of the bands: [processBlock]
    pushes the mono mix of its input to the pre-EQ analyzer and the mono
    mix of its output to the post-EQ analyzer, each exactly once, and
    the band loop touches neither analyzer, nor the parameters, nor the
    sample rate. *)
Theorem processBlock_spectra (p : DynamicEQAudioProcessor.t) (buffer : AudioBuffer) :
  (Z.to_nat (activeBandCount p) <= length (bands p))%nat ->
  let p' := fst (processBlock p buffer) in
  preSpectrum p'
  = SpectrumAnalyzer.pushSamples (preSpectrum p) (monoMix (clearExtraChannels p buffer))
  /\ postSpectrum p'
     = SpectrumAnalyzer.pushSamples (postSpectrum p) (monoMix (snd (processBlock p buffer)))
  /\ apvts p' = apvts p
  /\ lastSampleRate p' = lastSampleRate p.
Proof.
  intros Hn. cbn zeta. unfold processBlock.
  set (p1 := setPreSpectrum p _).
  pose proof (runBands_cascade p1 (clearExtraChannels p buffer) Hn) as Hr.
  cbn zeta in Hr. rewrite Hr. cbn. repeat split; reflexivity.
Qed.
End ProcessorInvariants.

Section SavedState.
Context `{Juce} `{JuceState}.
Import DynamicEQAudioProcessor ProcessorState.

(** X13.  Restoring a state never touches the bands or the analyzers and
    keeps the active count within 1 .. numBands, whatever count the data
    holds; data that is not XML, or XML of another tag, changes
    nothing. *)
Theorem setStateInformation_safe (p : DynamicEQAudioProcessor.t) (data : MemoryBlock) :
  wellFormed p ->
  let p' := setStateInformation p data in
  wellFormed p'
  /\ bands p' = bands p
  /\ preSpectrum p' = preSpectrum p
  /\ postSpectrum p' = postSpectrum p
  /\ lastSampleRate p' = lastSampleRate p
  /\ (match getXmlFromBinary data with
      | Some xml => hasTagName xml stateType = false
      | None => True
      end -> p' = p).
Proof.
  intros [Hlen Hcount]. cbn zeta. unfold setStateInformation, wellFormed.
  destruct (getXmlFromBinary data) as [xml|]; [|tauto].
  destruct (hasTagName xml stateType); [|tauto].
  cbn [bands activeBandCount preSpectrum postSpectrum lastSampleRate].
  split; [split; [exact Hlen|]|].
  - destruct (hasProperty _ _); [apply jlimit_range; unfold numBands; lia | exact Hcount].
  - repeat split; try reflexivity. discriminate.
Qed.

(** X14.  When JUCE's tree, XML and binary forms read back what was written,
    the active band count that [getStateInformation] saves is the one
    that [setStateInformation] restores, into any processor. *)
Theorem activeBandCount_round_trip (p q : DynamicEQAudioProcessor.t) :
  (forall xml, getXmlFromBinary (copyXmlToBinary xml) = Some xml) ->
  (forall tree, fromXml (createXml tree) = tree) ->
  (forall values name n,
     hasTagName (createXml (setProperty (copyState values) name n)) stateType = true) ->
  (forall tree name n, hasProperty (setProperty tree name n) name = true) ->
  (forall tree name n, getPropertyInt (setProperty tree name n) name = n) ->
  1 <= activeBandCount p <= numBands ->
  activeBandCount (setStateInformation q (getStateInformation p)) = activeBandCount p.
Proof.
  intros Hbin Hxml Htag Hhas Hget Hcount.
  unfold setStateInformation, getStateInformation.
  rewrite Hbin, Htag, Hxml. cbn [activeBandCount]. rewrite Hhas, Hget.
  now apply jlimit_inside.
Qed.
End SavedState.

(** ** [SpectrumAnalyzer]: the counters and the consumer *)

Section AnalyzerBounds.
Import SpectrumAnalyzer.

Lemma capture_length (cb fd : list float) (wp : Z) :
  length (capture cb wp fd) = length fd.
Proof.
  unfold capture. generalize (seq 0 (Z.to_nat fftSize)). intros idx. revert fd.
  induction idx as [|j idx IH]; intros fd; cbn [fold_left]; [reflexivity|].
  now rewrite IH, length_insert.
Qed.

Lemma pushSample_inBounds (s : SpectrumAnalyzer.t) (x : float) :
  inBounds s ->
  inBounds (pushSample s x)
  /\ writePos (pushSample s x) = (writePos s + 1) mod fftSize
  /\ hopCounter (pushSample s x) = (hopCounter s + 1) mod hopSize
  /\ circularBuffer (pushSample s x) !! Z.to_nat (writePos s) = Some x
  /\ renderBuffer (pushSample s x) = renderBuffer s.
Proof.
  intros (Hcb & Hfd & Hwp & Hhc).
  pose proof fftSize_pos as HF. pose proof hopSize_pos as HH.
  pose proof (Z.mod_pos_bound (writePos s + 1) fftSize HF) as Hwb.
  assert (Hmod : (hopCounter s + 1) mod hopSize
                 = if hopSize <=? hopCounter s + 1 then 0 else hopCounter s + 1).
  { destruct (hopSize <=? hopCounter s + 1) eqn:Hle.
    - apply Z.leb_le in Hle. replace (hopCounter s + 1) with hopSize by lia.
      apply Z_mod_same_full.
    - apply Z.leb_gt in Hle. apply Z.mod_small. lia. }
  assert (Hput : <[Z.to_nat (writePos s) := x]> (circularBuffer s) !! Z.to_nat (writePos s)
                 = Some x).
  { apply list_lookup_insert_eq. lia. }
  unfold pushSample, inBounds. rewrite mask_mod, Hmod.
  destruct (hopSize <=? hopCounter s + 1) eqn:Hle;
    cbn [circularBuffer fftData writePos hopCounter renderBuffer];
    rewrite ?capture_length, length_insert; repeat split; try assumption; try lia.
Qed.

(** X15.  [pushSamples] keeps both counters inside their arrays, whatever the
    block: every store into the ring and every read of a capture is at
    an index that exists, the write position advances by the number of
    samples modulo [fftSize], the hop counter modulo [hopSize], and the
    work copy of the consumer is not touched. *)
Theorem pushSamples_inBounds (s : SpectrumAnalyzer.t) (data : list float) :
  inBounds s ->
  inBounds (pushSamples s data)
  /\ writePos (pushSamples s data) = (writePos s + Z.of_nat (length data)) mod fftSize
  /\ hopCounter (pushSamples s data) = (hopCounter s + Z.of_nat (length data)) mod hopSize
  /\ renderBuffer (pushSamples s data) = renderBuffer s.
Proof.
  revert s. induction data as [|x data IH]; intros s Hin.
  - destruct Hin as (Hcb & Hfd & Hwp & Hhc). cbn [pushSamples fold_left length Z.of_nat].
    rewrite !Z.add_0_r, !Z.mod_small by lia. unfold inBounds. tauto.
  - destruct (pushSample_inBounds s x Hin) as (Hin1 & Hw1 & Hh1 & _ & Hr1).
    destruct (IH _ Hin1) as (Hin2 & Hw2 & Hh2 & Hr2).
    change (pushSamples s (x :: data)) with (pushSamples (pushSample s x) data).
    split; [exact Hin2|].
    rewrite Hw2, Hh2, Hr2, Hw1, Hh1, Hr1. cbn [length].
    rewrite !Zplus_mod_idemp_l. repeat split; f_equal; lia.
Qed.

(** X16.  [processFFT] consumes the flag: after it no snapshot is pending, a
    second call changes nothing and writes no bin; it never touches what
    the producer owns (ring, counters, snapshot), and when a snapshot was
    pending it writes all [fftSize / 2] bins. *)
Theorem processFFT_consumes `{JuceFFT} `{Juce} (s : SpectrumAnalyzer.t)
    (magnitudeDB again : list float) (minDB maxDB : float) :
  let s' := fst (processFFT s magnitudeDB minDB maxDB) in
  isNewDataAvailable s' = false
  /\ processFFT s' again minDB maxDB = (s', again)
  /\ circularBuffer s' = circularBuffer s
  /\ fftData s' = fftData s
  /\ writePos s' = writePos s
  /\ hopCounter s' = hopCounter s
  /\ (isNewDataAvailable s = false -> processFFT s magnitudeDB minDB maxDB = (s, magnitudeDB))
  /\ (isNewDataAvailable s = true ->
      length (snd (processFFT s magnitudeDB minDB maxDB)) = Z.to_nat (fftSize / 2)).
Proof.
  cbn zeta. unfold processFFT, isNewDataAvailable.
  destruct (newFFTDataAvailable s) eqn:Hflag; cbn [negb fst snd newFFTDataAvailable
    circularBuffer fftData writePos hopCounter].
  - repeat split; try reflexivity; try discriminate.
    all: intros _; now rewrite length_map, length_seq.
  - rewrite Hflag. cbn [negb]. repeat split; try reflexivity; try assumption; discriminate.
Qed.
End AnalyzerBounds.

(** ** The curve cache: what a check leaves behind *)

Section CurveCacheSettles.
Context `{Juce}.
Import SpectrumComponent.

Lemma SFeqb_refl (x : spec_float) : is_nan x = false -> SFeqb x x = true.
Proof.
  intros Hx. unfold SFeqb.
  destruct x as [s|s| |s m e]; try discriminate; cbn [SFcompare];
    try (destruct s; reflexivity).
  rewrite Z.compare_refl.
  change (Pos.compare_cont Eq m m) with (Pos.compare m m). rewrite Pos.compare_refl.
  destruct s; reflexivity.
Qed.

(** [std::abs (g - g) > 0.05f] is false for every [g], finite or not *)
Lemma sub_self_within (g : float) : fgt (SFabs (F32.sub g g)) F32.c0_05 = false.
Proof.
  destruct g as [s|s| |s m e]; try (destruct s; reflexivity); try reflexivity.
  unfold F32.sub. cbn [SFsub]. rewrite Z.sub_diag. reflexivity.
Qed.

Lemma snapshotDiffers_refl (snap : BandSnapshot) :
  is_nan (freq snap) = false -> is_nan (gain snap) = false -> is_nan (q snap) = false ->
  snapshotDiffers snap snap = false.
Proof.
  intros Hf Hg Hq. unfold snapshotDiffers, fne.
  rewrite !SFeqb_refl, Z.eqb_refl, !eqb_reflx, sub_self_within by assumption.
  reflexivity.
Qed.

Lemma checkBand_changed (p : DynamicEQAudioProcessor.t) (idx : list nat)
    (changed : bool) (snaps : list BandSnapshot) :
  fst (fold_left (checkBand p) idx (changed, snaps)) = false -> changed = false.
Proof.
  revert changed snaps. induction idx as [|i idx IH]; intros changed snaps; [easy|].
  cbn [fold_left]. unfold checkBand at 2.
  destruct (snapshotDiffers _ _); intros Hf; apply IH in Hf; [discriminate | exact Hf].
Qed.

Lemma checkBand_loop_quiet (p : DynamicEQAudioProcessor.t)
    (snaps : list BandSnapshot) (changed : bool) (idx : list nat) :
  (forall i, i ∈ idx -> snapshotDiffers (readSnapshot p (Z.of_nat i)) (snaps !!! i) = false) ->
  fold_left (checkBand p) idx (changed, snaps) = (changed, snaps).
Proof.
  induction idx as [|i idx IH]; intros Hall; [reflexivity|].
  cbn [fold_left]. unfold checkBand at 2.
  rewrite (Hall i ltac:(left)). apply IH. intros j Hj. apply Hall. now right.
Qed.

(** the loop over the bands [k .. k + n - 1]: afterwards none of them
    differs from its snapshot *)
Lemma checkBand_loop_settles (p : DynamicEQAudioProcessor.t) (n k : nat)
    (changed : bool) (snaps : list BandSnapshot) :
  (k + n <= length snaps)%nat ->
  (forall i, (k <= i < k + n)%nat ->
     snapshotDiffers (readSnapshot p (Z.of_nat i)) (readSnapshot p (Z.of_nat i)) = false) ->
  let r := fold_left (checkBand p) (seq k n) (changed, snaps) in
  length (snd r) = length snaps
  /\ (forall j, (j < k)%nat -> snd r !!! j = snaps !!! j)
  /\ (forall i, (k <= i < k + n)%nat ->
      snapshotDiffers (readSnapshot p (Z.of_nat i)) (snd r !!! i) = false).
Proof.
  revert k changed snaps. induction n as [|n IH]; intros k changed snaps Hlen Hclean.
  - cbn. repeat split; try reflexivity. intros i Hi. lia.
  - cbn [seq fold_left]. cbn zeta.
    destruct (checkBand p (changed, snaps) k) as [ch1 sn1] eqn:Hstep.
    assert (Hsn1 : length sn1 = length snaps
                   /\ (forall j, (j < k)%nat -> sn1 !!! j = snaps !!! j)
                   /\ snapshotDiffers (readSnapshot p (Z.of_nat k)) (sn1 !!! k) = false).
    { unfold checkBand in Hstep.
      destruct (snapshotDiffers _ (snaps !!! k)) eqn:Hd; injection Hstep as <- <-.
      - rewrite length_insert. split; [reflexivity|]. split.
        + intros j Hj. apply list_lookup_total_insert_ne. lia.
        + rewrite list_lookup_total_insert_eq by lia. apply Hclean. lia.
      - repeat split. exact Hd. }
    destruct Hsn1 as (Hl1 & Hlow1 & Hk1).
    destruct (IH (S k) ch1 sn1 ltac:(lia) ltac:(intros i Hi; apply Hclean; lia))
      as (Hl2 & Hlow2 & Hset2). cbn zeta in Hl2, Hlow2, Hset2.
    split; [lia|]. split.
    + intros j Hj. rewrite Hlow2 by lia. apply Hlow1. exact Hj.
    + intros i Hi. destruct (decide (i = k)) as [->|Hne].
      * rewrite Hlow2 by lia. exact Hk1.
      * apply Hset2. lia.
Qed.

Lemma detectChange_frame (p : DynamicEQAudioProcessor.t) (c : SpectrumComponent.t) :
  let c' := snd (detectChange p c) in
  cachedBandMagnitudes c' = cachedBandMagnitudes c
  /\ cachedTotalMagnitude c' = cachedTotalMagnitude c
  /\ curveFrequencies c' = curveFrequencies c
  /\ curveNeedsUpdate c' = curveNeedsUpdate c
  /\ width c' = width c
  /\ lastActiveBandCount c' = DynamicEQAudioProcessor.getActiveBandCount p
  /\ (fst (detectChange p c) = false -> curveNeedsUpdate c = false).
Proof.
  cbn zeta. unfold detectChange.
  set (active := DynamicEQAudioProcessor.getActiveBandCount p).
  destruct (active =? lastActiveBandCount c) eqn:Heq; cbn [negb].
  - apply Z.eqb_eq in Heq.
    pose proof (checkBand_changed p (seq 0 (Z.to_nat active)) (curveNeedsUpdate c)
                  (lastSnapshots c)) as Hch.
    destruct (fold_left _ _ _) as [changed snaps]. cbn [fst snd] in *.
    repeat split; try reflexivity; [now symmetry | exact Hch].
  - pose proof (checkBand_changed p (seq 0 (Z.to_nat active)) true (lastSnapshots c)) as Hch.
    destruct (fold_left _ _ _) as [changed snaps]. cbn [fst snd] in *.
    repeat split; try reflexivity. intros Hf. apply Hch in Hf. discriminate.
Qed.

Lemma rebuildCurveCache_frame (p : DynamicEQAudioProcessor.t) (c : SpectrumComponent.t) :
  curveNeedsUpdate (rebuildCurveCache p c) = false
  /\ lastSnapshots (rebuildCurveCache p c) = lastSnapshots c
  /\ lastActiveBandCount (rebuildCurveCache p c) = lastActiveBandCount c
  /\ width (rebuildCurveCache p c) = width c.
Proof.
  unfold rebuildCurveCache.
  destruct (SFleb _ F64.zero); [cbn; tauto|].
  destruct (SFleb _ F32.zero); [cbn; tauto|].
  destruct (fold_left _ _ _) as [mags total]. cbn. tauto.
Qed.

(** without a positive sample rate and width nothing is computed *)
Lemma rebuildCurveCache_early (p : DynamicEQAudioProcessor.t) (c : SpectrumComponent.t) :
  SFleb (DynamicEQAudioProcessor.getCurrentSampleRate p) F64.zero = true
  \/ SFleb (F32.of_Z (width c)) F32.zero = true ->
  cachedBandMagnitudes (rebuildCurveCache p c) = cachedBandMagnitudes c
  /\ cachedTotalMagnitude (rebuildCurveCache p c) = cachedTotalMagnitude c
  /\ curveFrequencies (rebuildCurveCache p c) = curveFrequencies c.
Proof.
  intros Hearly. unfold rebuildCurveCache.
  destruct (SFleb _ F64.zero); [cbn; tauto|].
  destruct Hearly as [Hsr|Hw]; [discriminate|]. rewrite Hw. cbn. tauto.
Qed.

(** a check on a component that is up to date finds no change *)
Lemma detectChange_quiet (p : DynamicEQAudioProcessor.t) (c : SpectrumComponent.t) :
  curveNeedsUpdate c = false ->
  lastActiveBandCount c = DynamicEQAudioProcessor.getActiveBandCount p ->
  (forall i, (i < Z.to_nat (DynamicEQAudioProcessor.getActiveBandCount p))%nat ->
     snapshotDiffers (readSnapshot p (Z.of_nat i)) (lastSnapshots c !!! i) = false) ->
  detectChange p c = (false, c).
Proof.
  intros Hupd Hcount Hsnap. unfold detectChange.
  rewrite <- Hcount, Z.eqb_refl. cbn [negb]. rewrite Hupd, Hcount.
  rewrite checkBand_loop_quiet.
  - destruct c; cbn in Hupd, Hcount |- *. now rewrite Hupd, Hcount.
  - intros i Hi. apply Hsnap. apply elem_of_seq in Hi. lia.
Qed.

Lemma checkAndUpdateCurve_clears_aux (p : DynamicEQAudioProcessor.t)
    (c : SpectrumComponent.t) :
  curveNeedsUpdate (checkAndUpdateCurve p c) = false
  /\ lastActiveBandCount (checkAndUpdateCurve p c)
     = DynamicEQAudioProcessor.getActiveBandCount p
  /\ lastSnapshots (checkAndUpdateCurve p c) = lastSnapshots (snd (detectChange p c)).
Proof.
  unfold checkAndUpdateCurve.
  destruct (detectChange_frame p c) as (_ & _ & _ & Hu & _ & Ha & Hch).
  cbn zeta in *.
  destruct (detectChange p c) as [changed c'] eqn:Hdc. cbn [fst snd] in *.
  destruct changed.
  - destruct (rebuildCurveCache_frame p c') as (Hu' & Hs' & Ha' & _).
    rewrite Hu', Ha', Hs', Ha. repeat split; reflexivity.
  - rewrite Hu, Ha. repeat split; try reflexivity. now apply Hch.
Qed.

(** X17.  Every call of [checkAndUpdateCurve] leaves the component with no
    invalidation pending and with the current active band count
    recorded, and keeps its width; when no change is found, or when the
    sample rate or the width is not positive, the cached curves are
    those of before. *)
Theorem checkAndUpdateCurve_clears (p : DynamicEQAudioProcessor.t) (c : SpectrumComponent.t) :
  let c1 := checkAndUpdateCurve p c in
  curveNeedsUpdate c1 = false
  /\ lastActiveBandCount c1 = DynamicEQAudioProcessor.getActiveBandCount p
  /\ width c1 = width c
  /\ (fst (detectChange p c) = false
      \/ SFleb (DynamicEQAudioProcessor.getCurrentSampleRate p) F64.zero = true
      \/ SFleb (F32.of_Z (width c)) F32.zero = true ->
      cachedBandMagnitudes c1 = cachedBandMagnitudes c
      /\ cachedTotalMagnitude c1 = cachedTotalMagnitude c
      /\ curveFrequencies c1 = curveFrequencies c).
Proof.
  cbn zeta. unfold checkAndUpdateCurve.
  destruct (detectChange_frame p c) as (Hb & Ht & Hfr & Hu & Hw & Ha & Hch).
  cbn zeta in *.
  destruct (detectChange p c) as [changed c'] eqn:Hdc. cbn [fst snd] in *.
  destruct changed.
  - destruct (rebuildCurveCache_frame p c') as (Hu' & _ & Ha' & Hw').
    rewrite Hu', Ha', Hw', Ha, Hw.
    split; [reflexivity|]. split; [reflexivity|]. split; [reflexivity|].
    intros [Hf|Hearly]; [discriminate|].
    rewrite <- Hw in Hearly.
    destruct (rebuildCurveCache_early p c' Hearly) as (Hb' & Ht' & Hfr').
    rewrite Hb', Ht', Hfr'. tauto.
  - rewrite Hu, Ha, Hw. split; [now apply Hch|]. tauto.
Qed.

(** X18.  A check settles the cache: when the parameters of the active bands
    are no NaNs, a second check on the same processor state finds no
    change and rebuilds nothing. *)
Theorem checkAndUpdateCurve_settles (p : DynamicEQAudioProcessor.t) (c : SpectrumComponent.t) :
  (Z.to_nat (DynamicEQAudioProcessor.getActiveBandCount p) <= length (lastSnapshots c))%nat ->
  (forall i, (i < Z.to_nat (DynamicEQAudioProcessor.getActiveBandCount p))%nat ->
     is_nan (DynamicEQAudioProcessor.apvts p (Z.of_nat i) "freq") = false
     /\ is_nan (DynamicEQAudioProcessor.apvts p (Z.of_nat i) "gain") = false
     /\ is_nan (DynamicEQAudioProcessor.apvts p (Z.of_nat i) "q") = false) ->
  let c1 := checkAndUpdateCurve p c in
  fst (detectChange p c1) = false
  /\ checkAndUpdateCurve p c1 = c1.
Proof.
  intros Hlen Hclean c1.
  set (active := DynamicEQAudioProcessor.getActiveBandCount p) in *.
  assert (Hsettled : forall i, (i < Z.to_nat active)%nat ->
            snapshotDiffers (readSnapshot p (Z.of_nat i))
              (lastSnapshots (snd (detectChange p c)) !!! i) = false).
  { unfold detectChange. fold active.
    destruct (if negb (active =? lastActiveBandCount c) then _ else _) as [ch0 la].
    destruct (checkBand_loop_settles p (Z.to_nat active) 0 ch0 (lastSnapshots c)
                ltac:(lia)) as (_ & _ & Hs).
    { intros i Hi. destruct (Hclean i ltac:(lia)) as (Hf & Hg & Hq).
      now apply snapshotDiffers_refl. }
    cbn zeta in Hs.
    destruct (fold_left _ _ _) as [changed snaps]. cbn [fst snd lastSnapshots] in *.
    intros i Hi. apply Hs. lia. }
  destruct (checkAndUpdateCurve_clears_aux p c) as (Hu & Ha & Hsn).
  fold c1 in Hu, Ha, Hsn.
  assert (Hq : detectChange p c1 = (false, c1)).
  { apply detectChange_quiet; [exact Hu | exact Ha |].
    intros i Hi. rewrite Hsn. now apply Hsettled. }
  split; [now rewrite Hq|]. unfold checkAndUpdateCurve at 1. now rewrite Hq.
Qed.
End CurveCacheSettles.

(** ** The curve cache: disabled bands *)

Section CurveCacheDisabled.
Context `{Juce}.
Import SpectrumComponent.

Lemma map_replicate_points {A B} (g : A -> B) `{Inhabited A} (x : A) (n : nat) :
  map (fun i => g (replicate n x !!! i)) (seq 0 n) = replicate n (g x).
Proof.
  apply list_eq. intros i. rewrite list_lookup_fmap.
  destruct (decide (i < n)%nat) as [Hi|Hi].
  - rewrite lookup_seq_lt by exact Hi. cbn.
    rewrite lookup_total_replicate_2 by exact Hi.
    now rewrite lookup_replicate_2 by exact Hi.
  - rewrite lookup_seq_ge by lia. cbn. symmetry. apply lookup_replicate_None. lia.
Qed.

(** the band loop of [rebuildCurveCache] over disabled bands *)
Lemma rebuildBand_disabled (sr : double) (freqs : list double) (snaps : list BandSnapshot)
    (n k : nat) (mags : list (list float)) (total : list double) :
  (k + n <= length mags)%nat ->
  (forall i, (k <= i < k + n)%nat -> enabled (snaps !!! i) = false) ->
  let r := fold_left (rebuildBand sr freqs snaps) (seq k n) (mags, total) in
  snd r = total
  /\ length (fst r) = length mags
  /\ (forall i, (k <= i < k + n)%nat ->
      fst r !! i = Some (replicate (Z.to_nat curveNumPoints) F32.zero))
  /\ (forall j, (j < k \/ k + n <= j)%nat -> fst r !! j = mags !! j).
Proof.
  revert k mags. induction n as [|n IH]; intros k mags Hlen Hdis; cbn zeta.
  - cbn. repeat split. intros i Hi. lia.
  - cbn [seq fold_left].
    set (zeros := replicate (Z.to_nat curveNumPoints) F32.zero).
    assert (Hstep : rebuildBand sr freqs snaps (mags, total) k = (<[k := zeros]> mags, total)).
    { unfold rebuildBand. now rewrite (Hdis k ltac:(lia)). }
    rewrite Hstep.
    destruct (IH (S k) (<[k := zeros]> mags) ltac:(rewrite length_insert; lia)
                ltac:(intros i Hi; apply Hdis; lia)) as (Ht & Hl & Hz & Hout).
    cbn zeta in Ht, Hl, Hz, Hout. rewrite length_insert in Hl.
    split; [exact Ht|]. split; [exact Hl|]. split.
    + intros i Hi. destruct (decide (i = k)) as [->|Hne].
      * rewrite Hout by lia. apply list_lookup_insert_eq. lia.
      * apply Hz. lia.
    + intros j Hj. rewrite Hout by lia. apply list_lookup_insert_ne. lia.
Qed.

(** X19.  A disabled band contributes nothing to the curves: when every
    active band is disabled, a rebuild zero-fills the rows of the active
    bands, leaves the rows of the inactive bands as they were, and the
    total curve is flat at [gainToDecibels (1.0)]. *)
Theorem rebuildCurveCache_all_disabled
    (p : DynamicEQAudioProcessor.t) (c : SpectrumComponent.t) :
  SFleb (DynamicEQAudioProcessor.getCurrentSampleRate p) F64.zero = false ->
  SFleb (F32.of_Z (width c)) F32.zero = false ->
  (Z.to_nat (DynamicEQAudioProcessor.getActiveBandCount p)
   <= length (cachedBandMagnitudes c))%nat ->
  (forall i, (i < Z.to_nat (DynamicEQAudioProcessor.getActiveBandCount p))%nat ->
     enabled (lastSnapshots c !!! i) = false) ->
  let c1 := rebuildCurveCache p c in
  cachedTotalMagnitude c1
  = replicate (Z.to_nat curveNumPoints)
      (F32.of_double (gainToDecibels_double F64.one defaultMinusInfinitydB_double))
  /\ (forall i, (i < Z.to_nat (DynamicEQAudioProcessor.getActiveBandCount p))%nat ->
      cachedBandMagnitudes c1 !! i = Some (replicate (Z.to_nat curveNumPoints) F32.zero))
  /\ (forall j, (Z.to_nat (DynamicEQAudioProcessor.getActiveBandCount p) <= j)%nat ->
      cachedBandMagnitudes c1 !! j = cachedBandMagnitudes c !! j).
Proof.
  intros Hsr Hw Hlen Hdis. cbn zeta. unfold rebuildCurveCache. rewrite Hsr, Hw.
  set (freqs := map _ points).
  destruct (rebuildBand_disabled (DynamicEQAudioProcessor.getCurrentSampleRate p) freqs
              (lastSnapshots c)
              (Z.to_nat (DynamicEQAudioProcessor.getActiveBandCount p)) 0
              (cachedBandMagnitudes c)
              (replicate (Z.to_nat curveNumPoints) F64.one)
              ltac:(lia) ltac:(intros i Hi; apply Hdis; lia)) as (Ht & _ & Hz & Hout).
  cbn zeta in Ht, Hz, Hout.
  destruct (fold_left _ _ _) as [mags total]. cbn [fst snd] in *. subst total.
  cbn [cachedTotalMagnitude cachedBandMagnitudes].
  split; [|split].
  - unfold points.
    apply (map_replicate_points
             (fun m => F32.of_double (gainToDecibels_double m defaultMinusInfinitydB_double))).
  - intros i Hi. apply Hz. lia.
  - intros j Hj. apply Hout. lia.
Qed.
End CurveCacheDisabled.

(** ** [SpectrumComponent]: the nodes and the mouse *)

Section Nodes.
Context `{Juce} `{JuceFFT} `{JuceGraphics}.
Import SpectrumView.

Lemma hitTestFrom_seq (p : DynamicEQAudioProcessor.t) (width height : float)
    (pos : float * float) (n k : nat) :
  let r := hitTestFrom p width height pos (seq k n) in
  (r = -1 /\ forall i, Z.of_nat k <= i < Z.of_nat (k + n) ->
              nodeHit p width height pos i = false)
  \/ (Z.of_nat k <= r < Z.of_nat (k + n)
      /\ nodeHit p width height pos r = true
      /\ forall j, Z.of_nat k <= j < r -> nodeHit p width height pos j = false).
Proof.
  revert k. induction n as [|n IH]; intros k; cbn zeta.
  - left. split; [reflexivity|]. intros i Hi. lia.
  - cbn [seq hitTestFrom].
    assert (Hmiss : nodeHit p width height pos (Z.of_nat k) = false ->
              forall r,
                ((r = -1 /\ forall i, Z.of_nat (S k) <= i < Z.of_nat (S k + n) ->
                              nodeHit p width height pos i = false)
                 \/ (Z.of_nat (S k) <= r < Z.of_nat (S k + n)
                     /\ nodeHit p width height pos r = true
                     /\ forall j, Z.of_nat (S k) <= j < r ->
                          nodeHit p width height pos j = false)) ->
                (r = -1 /\ forall i, Z.of_nat k <= i < Z.of_nat (k + S n) ->
                             nodeHit p width height pos i = false)
                \/ (Z.of_nat k <= r < Z.of_nat (k + S n)
                    /\ nodeHit p width height pos r = true
                    /\ forall j, Z.of_nat k <= j < r ->
                         nodeHit p width height pos j = false)).
    { intros Hk r [[Hr Hall]|(Hr & Hhit & Hlow)].
      - left. split; [exact Hr|]. intros i Hi.
        destruct (Z.eq_dec i (Z.of_nat k)) as [->|Hne]; [exact Hk | apply Hall; lia].
      - right. split; [lia|]. split; [exact Hhit|]. intros j Hj.
        destruct (Z.eq_dec j (Z.of_nat k)) as [->|Hne]; [exact Hk | apply Hlow; lia]. }
    destruct (fgt (DynamicEQAudioProcessor.apvts p (Z.of_nat k) "enabled") F32.c0_5) eqn:Hen;
      cbn [negb].
    + destruct (SFleb (getDistanceFrom pos (nodePosition p (Z.of_nat k) width height))
                      glowRadius) eqn:Hd.
      * right. split; [lia|]. split; [|intros j Hj; lia].
        unfold nodeHit. now rewrite Hen, Hd.
      * apply Hmiss; [|apply IH]. unfold nodeHit. now rewrite Hen, Hd.
    + apply Hmiss; [|apply IH]. unfold nodeHit. now rewrite Hen.
Qed.

Lemma hitTestNode_range (p : DynamicEQAudioProcessor.t) (getWidth getHeight : Z)
    (pos : float * float) :
  hitTestNode p getWidth getHeight pos = -1
  \/ 0 <= hitTestNode p getWidth getHeight pos < DynamicEQAudioProcessor.getActiveBandCount p.
Proof.
  unfold hitTestNode.
  pose proof (hitTestFrom_seq p (F32.of_Z getWidth) (F32.of_Z getHeight) pos
                (Z.to_nat (DynamicEQAudioProcessor.getActiveBandCount p)) 0) as Hs.
  cbn zeta in Hs. cbn [Nat.add Z.of_nat] in Hs.
  destruct Hs as [[Hr _]|(Hr & _)]; [now left | right; lia].
Qed.

(** X20.  [hitTestNode] answers -1 exactly when the point is on no node of an
    enabled active band; otherwise it answers the lowest index of an
    enabled active band whose node is within [glowRadius] of the point.
    It never answers a disabled band or one beyond the active count. *)
Theorem hitTestNode_spec (p : DynamicEQAudioProcessor.t) (getWidth getHeight : Z)
    (pos : float * float) :
  let r := hitTestNode p getWidth getHeight pos in
  let hit := nodeHit p (F32.of_Z getWidth) (F32.of_Z getHeight) pos in
  (r = -1
   /\ forall i, 0 <= i < DynamicEQAudioProcessor.getActiveBandCount p -> hit i = false)
  \/ (0 <= r < DynamicEQAudioProcessor.getActiveBandCount p
      /\ hit r = true
      /\ forall j, 0 <= j < r -> hit j = false).
Proof.
  cbn zeta. unfold hitTestNode.
  pose proof (hitTestFrom_seq p (F32.of_Z getWidth) (F32.of_Z getHeight) pos
                (Z.to_nat (DynamicEQAudioProcessor.getActiveBandCount p)) 0) as Hs.
  cbn zeta in Hs. cbn [Nat.add Z.of_nat] in Hs.
  destruct Hs as [[Hr Hall]|(Hr & Hhit & Hlow)].
  - left. split; [exact Hr|]. intros i Hi. apply Hall. lia.
  - right. split; [lia|]. split; [exact Hhit|]. intros j Hj. apply Hlow. exact Hj.
Qed.

(** X21.  A drag moves the band whose node was under the pointer when the
    button went down, and no other: [mouseDrag] asks for changes only
    after a [mouseDown] on a node, always of that band, and [mouseUp]
    ends it. *)
Theorem mouseDrag_target (p p' : DynamicEQAudioProcessor.t) (getWidth getHeight : Z)
    (v : SpectrumView.t) (down at_ : float * float) :
  let held := mouseDown p getWidth getHeight v down in
  dragBandIndex held = hitTestNode p getWidth getHeight down
  /\ match mouseDrag p' getWidth getHeight held at_ with
     | Some (i, _) => i = hitTestNode p getWidth getHeight down
                      /\ 0 <= i < DynamicEQAudioProcessor.getActiveBandCount p
     | None => hitTestNode p getWidth getHeight down = -1
     end
  /\ mouseDrag p' getWidth getHeight (mouseUp held) at_ = None.
Proof.
  cbn zeta. unfold mouseDown, mouseDrag, mouseUp.
  set (r := hitTestNode p getWidth getHeight down).
  pose proof (hitTestNode_range p getWidth getHeight down) as Hr. fold r in Hr.
  cbn [setDragBandIndex dragBandIndex].
  destruct (0 <=? r) eqn:Hge; cbn [beginDrag setDragBandIndex dragBandIndex];
    rewrite Hge; change (0 <=? -1) with false.
  - apply Z.leb_le in Hge. repeat split; try reflexivity; lia.
  - apply Z.leb_gt in Hge. repeat split; try reflexivity. lia.
Qed.

Lemma limits_ordered :
  SFleb SpectrumComponent.minFreqHz SpectrumComponent.maxFreqHz = true
  /\ SFleb minDB maxDB = true.
Proof. split; reflexivity. Qed.

(** X22.  Whatever the pointer does, [performDrag] asks for a frequency
    within 20 Hz .. 20 kHz and, for the types with a gain (below 3), a
    gain within -24 dB .. 24 dB; for the other types it asks for no
    gain.  A NaN passes [jlimit] unchanged. *)
Theorem performDrag_limits (p : DynamicEQAudioProcessor.t) (getWidth getHeight : Z)
    (v : SpectrumView.t) (bandIndex : Z) (pos : float * float) :
  let request := performDrag p getWidth getHeight v bandIndex pos in
  let filterType := F32.to_int (DynamicEQAudioProcessor.apvts p bandIndex "type") in
  limited SpectrumComponent.minFreqHz SpectrumComponent.maxFreqHz (fst request)
  /\ match snd request with
     | Some gain => filterType < 3 /\ limited minDB maxDB gain
     | None => 3 <= filterType
     end.
Proof.
  cbn zeta. unfold performDrag. cbn [fst snd]. destruct limits_ordered as [Hf Hg].
  split.
  - unfold limited.
    destruct (jlimitf_range _ _ (SpectrumComponent.xToFreq
                (jlimitf F32.zero (F32.of_Z getWidth)
                   (F32.add (freqToX (dragStartFreq v) (F32.of_Z getWidth)
                               SpectrumComponent.minFreqHz SpectrumComponent.maxFreqHz)
                            (F32.sub (fst pos) (dragStartMouseX v))))
                (F32.of_Z getWidth) SpectrumComponent.minFreqHz SpectrumComponent.maxFreqHz)
                Hf) as [[Hn Heq]|Hin].
    + left. now rewrite Heq.
    + now right.
  - destruct (F32.to_int (DynamicEQAudioProcessor.apvts p bandIndex "type") <? 3) eqn:Hty.
    + apply Z.ltb_lt in Hty. split; [exact Hty|]. unfold limited.
      destruct (jlimitf_range _ _ (F32.add (yToDb (jlimitf F32.zero (F32.of_Z getHeight) (snd pos))
                                              (F32.of_Z getHeight) minDB maxDB)
                                           (dragGainBias v)) Hg) as [[Hn Heq]|Hin].
      * left. now rewrite Heq.
      * now right.
    + now apply Z.ltb_ge in Hty.
Qed.
End Nodes.

(** ** The editor: band buttons and control strips *)

Section Editor.
Context `{Juce}.
Import DynamicEQAudioProcessorEditor.

Lemma resized_buttons (p : DynamicEQAudioProcessor.t) (areaW contH : Z) (ed : t) :
  addBandBtnEnabled (resized p areaW contH ed) = addBandBtnEnabled ed
  /\ removeBandBtnEnabled (resized p areaW contH ed) = removeBandBtnEnabled ed
  /\ stripVisible (resized p areaW contH ed) = stripVisible ed.
Proof. unfold resized. destruct (negb (controlAreaCollapsed ed)); cbn; tauto. Qed.

Lemma jlimit_clamp (lo hi v : Z) : lo <= hi -> jlimit lo hi v = Z.max lo (Z.min v hi).
Proof.
  intros Hle. unfold jlimit.
  destruct (v <? lo) eqn:H1; [lia|]. destruct (hi <? v) eqn:H2; lia.
Qed.

Lemma addBandClicked_state (p : DynamicEQAudioProcessor.t) (ed : t) (areaW contH : Z) :
  let n := jlimit 1 DynamicEQAudioProcessor.numBands
             (DynamicEQAudioProcessor.getActiveBandCount p + 1) in
  DynamicEQAudioProcessor.getActiveBandCount (fst (addBandClicked areaW contH (p, ed))) = n
  /\ addBandBtnEnabled (snd (addBandClicked areaW contH (p, ed)))
     = (n <? DynamicEQAudioProcessor.numBands)
  /\ removeBandBtnEnabled (snd (addBandClicked areaW contH (p, ed))) = (1 <? n)
  /\ DynamicEQAudioProcessor.bands (fst (addBandClicked areaW contH (p, ed)))
     = DynamicEQAudioProcessor.bands p.
Proof.
  cbn zeta. unfold addBandClicked. cbn [fst snd].
  set (p1 := DynamicEQAudioProcessor.setActiveBandCount p _).
  destruct (resized_buttons p1 areaW contH (updateBandVisibility p1 ed)) as (Ha & Hr & _).
  rewrite Ha, Hr. repeat split; reflexivity.
Qed.

Lemma removeBandClicked_state (p : DynamicEQAudioProcessor.t) (ed : t) (areaW contH : Z) :
  let n := jlimit 1 DynamicEQAudioProcessor.numBands
             (DynamicEQAudioProcessor.getActiveBandCount p - 1) in
  DynamicEQAudioProcessor.getActiveBandCount (fst (removeBandClicked areaW contH (p, ed))) = n
  /\ addBandBtnEnabled (snd (removeBandClicked areaW contH (p, ed)))
     = (n <? DynamicEQAudioProcessor.numBands)
  /\ removeBandBtnEnabled (snd (removeBandClicked areaW contH (p, ed))) = (1 <? n)
  /\ DynamicEQAudioProcessor.bands (fst (removeBandClicked areaW contH (p, ed)))
     = DynamicEQAudioProcessor.bands p.
Proof.
  cbn zeta. unfold removeBandClicked. cbn [fst snd].
  set (p1 := DynamicEQAudioProcessor.setActiveBandCount p _).
  destruct (resized_buttons p1 areaW contH (updateBandVisibility p1 ed)) as (Ha & Hr & _).
  rewrite Ha, Hr. repeat split; reflexivity.
Qed.

(** X23.  The buttons + and - move the active band count by one within
    1 .. numBands and stop at the ends; a button is left enabled
    exactly when a further click would still change the count; the
    two undo each other away from the ends; the bands themselves are
    not touched. *)
Theorem bandButtons (p : DynamicEQAudioProcessor.t) (ed : t) (areaW contH : Z) :
  wellFormed p ->
  let count := DynamicEQAudioProcessor.getActiveBandCount in
  let up := addBandClicked areaW contH (p, ed) in
  let down := removeBandClicked areaW contH (p, ed) in
  count (fst up) = Z.min (count p + 1) DynamicEQAudioProcessor.numBands
  /\ count (fst down) = Z.max (count p - 1) 1
  /\ addBandBtnEnabled (snd up) = (count (fst up) <? DynamicEQAudioProcessor.numBands)
  /\ removeBandBtnEnabled (snd up) = true
  /\ removeBandBtnEnabled (snd down) = (1 <? count (fst down))
  /\ addBandBtnEnabled (snd down) = true
  /\ (count p < DynamicEQAudioProcessor.numBands ->
      count (fst (removeBandClicked areaW contH up)) = count p)
  /\ (1 < count p -> count (fst (addBandClicked areaW contH down)) = count p)
  /\ DynamicEQAudioProcessor.bands (fst up) = DynamicEQAudioProcessor.bands p
  /\ DynamicEQAudioProcessor.bands (fst down) = DynamicEQAudioProcessor.bands p.
Proof.
  intros [Hlen Hcount]. cbn zeta.
  destruct (addBandClicked_state p ed areaW contH) as (Hu & Hua & Hur & Hub).
  destruct (removeBandClicked_state p ed areaW contH) as (Hd & Hda & Hdr & Hdb).
  cbn zeta in *.
  destruct (addBandClicked areaW contH (p, ed)) as [pu edu] eqn:Eu.
  destruct (removeBandClicked areaW contH (p, ed)) as [pd edd] eqn:Ed.
  destruct (removeBandClicked_state pu edu areaW contH) as (Hud & _).
  destruct (addBandClicked_state pd edd areaW contH) as (Hdu & _).
  cbn zeta in *. cbn [fst snd] in *.
  change (DynamicEQAudioProcessor.getActiveBandCount p)
    with (DynamicEQAudioProcessor.activeBandCount p) in *.
  unfold DynamicEQAudioProcessor.numBands in *.
  rewrite jlimit_clamp in Hu, Hd, Hud, Hdu, Hua, Hur, Hda, Hdr by lia.
  rewrite Hud, Hdu, Hu, Hd, Hua, Hur, Hda, Hdr, Hub, Hdb.
  repeat split; try reflexivity; try lia.
  all: first [ apply Z.ltb_lt; lia | f_equal; lia ].
Qed.

Lemma stripWidth_range (active areaW : Z) :
  stripMinW <= stripWidth active areaW <= stripMaxW.
Proof.
  unfold stripWidth, jlimit, stripMinW, stripMaxW.
  destruct (_ <? 220) eqn:H1; [lia|]. destruct (250 <? _) eqn:H2; lia.
Qed.

(** the strips fill the visible width when it offers each of them at
    least [stripMinW] *)
Lemma stripWidth_fits (active areaW : Z) :
  0 < active -> 0 <= areaW ->
  stripWidth active areaW * active <= areaW <-> stripMinW * active <= areaW.
Proof.
  intros Ha Hw. unfold stripWidth, jlimit, stripMinW, stripMaxW.
  replace (0 <? active) with true by (symmetry; apply Z.ltb_lt; lia).
  rewrite Z.quot_div_nonneg by lia.
  pose proof (Z.mul_div_le areaW active Ha) as Hfloor.
  pose proof (Z.mod_pos_bound areaW active Ha) as Hmod.
  pose proof (Z.div_mod areaW active ltac:(lia)) as Hdm.
  destruct (areaW / active <? 220) eqn:H1.
  - apply Z.ltb_lt in H1. split; [lia|]. intros Hfit. nia.
  - apply Z.ltb_ge in H1. destruct (250 <? areaW / active) eqn:H2.
    + apply Z.ltb_lt in H2. split; intros _; nia.
    + split; intros _; nia.
Qed.

(** X24.  [resized()] with the control area shown: the strips of the active
    bands are [stripMinW .. stripMaxW] wide less a margin of 3 on each
    side, stand side by side without overlap in index order inside the
    container, and the strips of the inactive bands keep their bounds;
    the container is as wide as the visible area when that offers every
    strip [stripMinW], and wider (it scrolls) exactly when it does not. *)
Theorem resized_strips (p : DynamicEQAudioProcessor.t) (areaW contH : Z) (ed : t) :
  controlAreaCollapsed ed = false ->
  0 < DynamicEQAudioProcessor.getActiveBandCount p ->
  0 <= areaW ->
  let active := DynamicEQAudioProcessor.getActiveBandCount p in
  let stripW := stripWidth active areaW in
  let ed' := resized p areaW contH ed in
  let contW := Z.max (stripW * active) areaW in
  stripMinW <= stripW <= stripMaxW
  /\ containerBounds ed' = (0, 0, contW, contH)
  /\ areaW <= contW
  /\ (contW = areaW <-> stripMinW * active <= areaW)
  /\ length (stripBounds ed') = length (stripBounds ed)
  /\ (forall (i : nat) old, stripBounds ed !! i = Some old ->
      stripBounds ed' !! i
      = Some (if Z.of_nat i <? active
              then (Z.of_nat i * stripW + 3, 4, stripW - 6, contH - 8)
              else old))
  /\ (forall i, 0 <= i < active ->
      0 < i * stripW + 3
      /\ (i * stripW + 3) + (stripW - 6) + 3 <= contW
      /\ (i * stripW + 3) + (stripW - 6) + 6 = (i + 1) * stripW + 3).
Proof.
  intros Hcol Hact Hw. cbn zeta.
  set (active := DynamicEQAudioProcessor.getActiveBandCount p) in *.
  pose proof (stripWidth_range active areaW) as Hrange.
  pose proof (stripWidth_fits active areaW Hact Hw) as Hfit.
  set (stripW := stripWidth active areaW) in *.
  unfold resized. rewrite Hcol. cbn [negb containerBounds stripBounds]. fold active stripW.
  unfold stripMinW, stripMaxW in *.
  split; [exact Hrange|]. split; [reflexivity|]. split; [lia|]. split; [lia|].
  split; [apply length_imap|]. split.
  - intros i old Hi. rewrite list_lookup_imap. unfold Bounds in *. now rewrite Hi.
  - intros i Hi. nia.
Qed.
End Editor.

(** ** The reduction that is published is the one that is applied *)

Section AppliedReduction.
Context `{Juce}.
Import DynamicEQBand.

(** X25.  For an enabled band in dynamic mode with a positive sample rate and
    a type of the enumeration, every filter section leaves [process]
    with the coefficients synthesised at the static gain less the gain
    reduction that the call published, and the samples written are
    those of the sections run with these coefficients. *)
Theorem process_applies_published_reduction (b : DynamicEQBand.t) (buffer : AudioBuffer) :
  BandParams.enabled (params b) = true ->
  BandParams.dynamicOn (params b) = true ->
  SFleb (sampleRate b) F64.zero = false ->
  0 <= BandParams.type (params b) <= 6 ->
  let b' := fst (process b buffer) in
  exists c,
    synthesize (sampleRate b) (params b)
      (F32.sub (BandParams.gain (params b)) (getGainReductionDB b')) = Some c
    /\ map state (filters b') = map (fun _ => c) (filters b)
    /\ snd (process b buffer) = snd (runFilters (map (setState c) (filters b)) buffer).
Proof.
  intros Hen Hdyn Hsr Hty. cbn zeta.
  pose proof (process_gainReductionDB b buffer) as Hgr.
  rewrite Hen, Hdyn in Hgr. cbn [negb] in Hgr.
  unfold getGainReductionDB. rewrite Hgr.
  destruct (synthesize_known (sampleRate b) (params b)
              (F32.sub (BandParams.gain (params b))
                 (computeReduction (params b) (snd (detect b buffer)))) Hty) as [c Hc].
  exists c. split; [exact Hc|].
  unfold process. rewrite Hen, Hdyn. cbn [negb].
  destruct (detect b buffer) as [e envDB]. cbn [snd] in Hc.
  unfold updateFilterCoefficients.
  cbn [setGainReduction setEnvelopeFollower sampleRate params filters].
  rewrite Hsr, Hc. cbn [filters].
  pose proof (runFilters_state (map (setState c) (filters b)) buffer) as Hst.
  destruct (runFilters (map (setState c) (filters b)) buffer) as [fs out].
  cbn [fst snd setFilters filters] in *.
  split; [|reflexivity]. now rewrite Hst, map_state_setState.
Qed.
End AppliedReduction.

(** ** The flag of an analyzer that nobody reads *)

Section FreshAnalyzer.
Import SpectrumAnalyzer.

Lemma flag_tracks (data : list float) (s : SpectrumAnalyzer.t) (h : list float) :
  tracks s h ->
  newFFTDataAvailable s = (hopSize <=? Z.of_nat (length h)) ->
  newFFTDataAvailable (pushSamples s data)
  = (hopSize <=? Z.of_nat (length (h ++ data))).
Proof.
  revert s h. induction data as [|x data IH]; intros s h Htr Hflag.
  - now rewrite app_nil_r.
  - change (pushSamples s (x :: data)) with (pushSamples (pushSample s x) data).
    replace (h ++ x :: data) with ((h ++ [x]) ++ data) by (now rewrite <- app_assoc).
    destruct (pushSample_tracks s h x Htr) as [Htr1 Hstep].
    apply IH; [exact Htr1|].
    rewrite length_app. cbn [length].
    pose proof hopSize_pos as HH.
    replace (Z.of_nat (length h + 1)) with (Z.of_nat (length h) + 1) by lia.
    set (n := Z.of_nat (length h)) in *.
    assert (Hn : 0 <= n) by (unfold n; lia).
    destruct ((n + 1) mod hopSize =? 0) eqn:Hmod.
    + destruct Hstep as [_ ->]. symmetry. apply Z.leb_le.
      apply Z.eqb_eq in Hmod.
      pose proof (Z.div_mod (n + 1) hopSize ltac:(lia)) as Hdm.
      rewrite Hmod in Hdm.
      assert (0 < (n + 1) / hopSize) by nia. nia.
    + destruct Hstep as [_ ->]. rewrite Hflag.
      apply Z.eqb_neq in Hmod.
      destruct (hopSize <=? n) eqn:Hle.
      * apply Z.leb_le in Hle. symmetry. apply Z.leb_le. lia.
      * apply Z.leb_gt in Hle. symmetry. apply Z.leb_gt.
        destruct (Z.eq_dec (n + 1) hopSize) as [Heq|Hne]; [|lia].
        exfalso. apply Hmod. rewrite Heq. apply Z_mod_same_full.
Qed.

(** X26.  As long as the consumer does not call [processFFT], the flag of an
    analyzer tells whether a snapshot exists at all: after any sequence
    of samples pushed since construction it is raised exactly when at
    least [hopSize] samples have been pushed. *)
Theorem fresh_analyzer_flag (data : list float) :
  isNewDataAvailable (pushSamples SpectrumAnalyzer.init data)
  = (hopSize <=? Z.of_nat (length data)).
Proof.
  unfold isNewDataAvailable.
  exact (flag_tracks data SpectrumAnalyzer.init [] init_tracks eq_refl).
Qed.
End FreshAnalyzer.

(** ** [SpectrumComponent::timerCallback] *)

Section TimerTick.
Context `{Juce} `{JuceFFT} `{JuceGraphics}.
Import SpectrumView.

Lemma tick_analyzer (s : SpectrumAnalyzer.t) (data : list float) (minDB maxDB : float) :
  let r := if SpectrumAnalyzer.isNewDataAvailable s
           then SpectrumAnalyzer.processFFT s data minDB maxDB
           else (s, data) in
  SpectrumAnalyzer.isNewDataAvailable (fst r) = false
  /\ SpectrumAnalyzer.fftData (fst r) = SpectrumAnalyzer.fftData s
  /\ SpectrumAnalyzer.circularBuffer (fst r) = SpectrumAnalyzer.circularBuffer s
  /\ (SpectrumAnalyzer.isNewDataAvailable s = false -> snd r = data).
Proof.
  cbn zeta. unfold SpectrumAnalyzer.processFFT, SpectrumAnalyzer.isNewDataAvailable.
  destruct (SpectrumAnalyzer.newFFTDataAvailable s) eqn:Hflag; cbn.
  - repeat split; try reflexivity. discriminate.
  - repeat split; try reflexivity. exact Hflag.
Qed.

(** X27.  One timer tick consumes what is pending: afterwards neither
    analyzer has a snapshot waiting and the curve cache has no
    invalidation pending; the tick leaves the snapshots and rings of the
    analyzers, the bands, the active count and the drag state as they
    were, and without new data the raw spectra too. *)
Theorem timerCallback_consumes (p : DynamicEQAudioProcessor.t) (v : SpectrumView.t)
    (c : SpectrumComponent.t) :
  let p1 := fst (fst (timerCallback p v c)) in
  let v1 := snd (fst (timerCallback p v c)) in
  let c1 := snd (timerCallback p v c) in
  SpectrumAnalyzer.isNewDataAvailable (DynamicEQAudioProcessor.preSpectrum p1) = false
  /\ SpectrumAnalyzer.isNewDataAvailable (DynamicEQAudioProcessor.postSpectrum p1) = false
  /\ SpectrumAnalyzer.fftData (DynamicEQAudioProcessor.preSpectrum p1)
     = SpectrumAnalyzer.fftData (DynamicEQAudioProcessor.preSpectrum p)
  /\ SpectrumAnalyzer.fftData (DynamicEQAudioProcessor.postSpectrum p1)
     = SpectrumAnalyzer.fftData (DynamicEQAudioProcessor.postSpectrum p)
  /\ DynamicEQAudioProcessor.bands p1 = DynamicEQAudioProcessor.bands p
  /\ DynamicEQAudioProcessor.activeBandCount p1 = DynamicEQAudioProcessor.activeBandCount p
  /\ SpectrumComponent.curveNeedsUpdate c1 = false
  /\ dragBandIndex v1 = dragBandIndex v
  /\ (SpectrumAnalyzer.isNewDataAvailable (DynamicEQAudioProcessor.preSpectrum p) = false ->
      preSpectrumData v1 = preSpectrumData v)
  /\ (SpectrumAnalyzer.isNewDataAvailable (DynamicEQAudioProcessor.postSpectrum p) = false ->
      postSpectrumData v1 = postSpectrumData v).
Proof.
  cbn zeta. unfold timerCallback.
  pose proof (tick_analyzer (DynamicEQAudioProcessor.preSpectrum p) (preSpectrumData v)
                DynamicEQBand.minus100 F32.zero) as Hpre.
  pose proof (tick_analyzer (DynamicEQAudioProcessor.postSpectrum p) (postSpectrumData v)
                DynamicEQBand.minus100 F32.zero) as Hpost.
  cbn zeta in Hpre, Hpost.
  destruct (if SpectrumAnalyzer.isNewDataAvailable (DynamicEQAudioProcessor.preSpectrum p)
            then _ else _) as [preSA1 pre].
  destruct (if SpectrumAnalyzer.isNewDataAvailable (DynamicEQAudioProcessor.postSpectrum p)
            then _ else _) as [postSA1 post].
  cbn [fst snd] in *.
  destruct Hpre as (Hp1 & Hp2 & _ & Hp3). destruct Hpost as (Hq1 & Hq2 & _ & Hq3).
  set (p1 := DynamicEQAudioProcessor.setPostSpectrum _ _).
  destruct (checkAndUpdateCurve_clears_aux p1 c) as (Hu & _).
  cbn [DynamicEQAudioProcessor.setPostSpectrum DynamicEQAudioProcessor.setPreSpectrum
         DynamicEQAudioProcessor.preSpectrum DynamicEQAudioProcessor.postSpectrum
         DynamicEQAudioProcessor.bands DynamicEQAudioProcessor.activeBandCount
         dragBandIndex preSpectrumData postSpectrumData].
  repeat split; assumption || reflexivity.
Qed.
End TimerTick.

(** ** Examples *)

Lemma updateParams_last_wins_witness :
  0 <= BandParams.type BandParams.default <= 6
  /\ DynamicEQBand.updateParams (DynamicEQBand.updateParams freshBand attenuatingParams)
       BandParams.default
     = DynamicEQBand.updateParams freshBand BandParams.default.
Proof.
  assert (Hty : 0 <= BandParams.type BandParams.default <= 6) by (vm_compute; split; discriminate).
  split; [exact Hty|].
  exact (updateParams_last_wins freshBand attenuatingParams BandParams.default Hty).
Defined.

Lemma updateParams_unknown_type_witness :
  (BandParams.type strayTypeParams < 0 \/ 6 < BandParams.type strayTypeParams)
  /\ DynamicEQBand.params (DynamicEQBand.updateParams attenuatingBand strayTypeParams)
     = strayTypeParams
  /\ DynamicEQBand.filters (DynamicEQBand.updateParams attenuatingBand strayTypeParams)
     = DynamicEQBand.filters attenuatingBand.
Proof.
  assert (Hty : BandParams.type strayTypeParams < 0 \/ 6 < BandParams.type strayTypeParams)
    by (right; reflexivity).
  split; [exact Hty|].
  exact (updateParams_unknown_type attenuatingBand strayTypeParams Hty).
Defined.

Lemma process_applies_published_reduction_witness :
  BandParams.enabled (DynamicEQBand.params freshBand) = true
  /\ BandParams.dynamicOn (DynamicEQBand.params freshBand) = true
  /\ SFleb (DynamicEQBand.sampleRate freshBand) F64.zero = false
  /\ 0 <= BandParams.type (DynamicEQBand.params freshBand) <= 6
  /\ exists c,
       @DynamicEQBand.synthesize Stub.juce (DynamicEQBand.sampleRate freshBand)
         (DynamicEQBand.params freshBand)
         (F32.sub (BandParams.gain (DynamicEQBand.params freshBand))
            (DynamicEQBand.getGainReductionDB
               (fst (DynamicEQBand.process freshBand smallBlock)))) = Some c
       /\ map DynamicEQBand.state
            (DynamicEQBand.filters (fst (DynamicEQBand.process freshBand smallBlock)))
          = map (fun _ => c) (DynamicEQBand.filters freshBand)
       /\ snd (DynamicEQBand.process freshBand smallBlock)
          = snd (DynamicEQBand.runFilters
                   (map (DynamicEQBand.setState c) (DynamicEQBand.filters freshBand))
                   smallBlock).
Proof.
  assert (Hen : BandParams.enabled (DynamicEQBand.params freshBand) = true) by reflexivity.
  assert (Hdyn : BandParams.dynamicOn (DynamicEQBand.params freshBand) = true) by reflexivity.
  assert (Hsr : SFleb (DynamicEQBand.sampleRate freshBand) F64.zero = false) by reflexivity.
  assert (Hty : 0 <= BandParams.type (DynamicEQBand.params freshBand) <= 6)
    by (vm_compute; split; discriminate).
  split; [exact Hen|]. split; [exact Hdyn|]. split; [exact Hsr|]. split; [exact Hty|].
  exact (process_applies_published_reduction freshBand smallBlock Hen Hdyn Hsr Hty).
Defined.

Lemma blockPeak_upper_bound_witness :
  smallBlock !! 0%nat = Some [minus10dBPeak; F32.zero]
  /\ [minus10dBPeak; F32.zero] !! 0%nat = Some minus10dBPeak
  /\ is_nan minus10dBPeak = false
  /\ SFleb (SFabs minus10dBPeak) (DynamicEQBand.blockPeak smallBlock) = true.
Proof.
  split; [reflexivity|]. split; [reflexivity|]. split; [reflexivity|].
  exact (blockPeak_upper_bound smallBlock 0 0 [minus10dBPeak; F32.zero] minus10dBPeak
           eq_refl eq_refl eq_refl).
Defined.

Lemma envelope_process_nonneg_witness :
  let e := DynamicEQBand.envelopeFollower defaultBand in
  unitCoefficient (EnvelopeFollower.attackCoeff e) = true
  /\ unitCoefficient (EnvelopeFollower.releaseCoeff e) = true
  /\ isLevel (EnvelopeFollower.envelope e) = true
  /\ isLevel minus10dBPeak = true
  /\ fge (snd (EnvelopeFollower.process e minus10dBPeak)) F32.zero = true.
Proof.
  intros e.
  assert (Ha : unitCoefficient (EnvelopeFollower.attackCoeff e) = true) by (vm_compute; reflexivity).
  assert (Hr : unitCoefficient (EnvelopeFollower.releaseCoeff e) = true) by (vm_compute; reflexivity).
  assert (He : isLevel (EnvelopeFollower.envelope e) = true) by (vm_compute; reflexivity).
  assert (Hx : isLevel minus10dBPeak = true) by (vm_compute; reflexivity).
  split; [exact Ha|]. split; [exact Hr|]. split; [exact He|]. split; [exact Hx|].
  exact (proj1 (proj2 (envelope_process_nonneg e minus10dBPeak Ha Hr He Hx))).
Defined.

Lemma smoothBin_nonneg_witness :
  isLevel F32.zero = true
  /\ isLevel F32.one = true
  /\ fge (SpectrumView.smoothBin F32.zero F32.one) F32.zero = true.
Proof.
  split; [reflexivity|]. split; [reflexivity|].
  exact (proj2 (smoothBin_nonneg F32.zero F32.one eq_refl eq_refl)).
Defined.

Lemma prepareToPlay_bands_witness :
  let p' := DynamicEQAudioProcessor.prepareToPlay exampleProcessor (F64.of_Z 48000) 512 in
  length (DynamicEQAudioProcessor.bands exampleProcessor)
  = Z.to_nat DynamicEQAudioProcessor.numBands
  /\ DynamicEQAudioProcessor.lastSampleRate p' = F64.of_Z 48000
  /\ DynamicEQAudioProcessor.activeBandCount p'
     = DynamicEQAudioProcessor.activeBandCount exampleProcessor.
Proof.
  intros p'.
  assert (Hlen : length (DynamicEQAudioProcessor.bands exampleProcessor)
                 = Z.to_nat DynamicEQAudioProcessor.numBands) by reflexivity.
  split; [exact Hlen|].
  pose proof (prepareToPlay_bands exampleProcessor (F64.of_Z 48000) 512 Hlen) as (H1 & H2 & _).
  split; [exact H1 | exact H2].
Defined.

Lemma wellFormed_kept_witness :
  wellFormed exampleProcessor
  /\ wellFormed (DynamicEQAudioProcessor.setActiveBandCount exampleProcessor 12)
  /\ wellFormed (fst (DynamicEQAudioProcessor.processBlock exampleProcessor smallBlock)).
Proof.
  assert (Hwf : wellFormed exampleProcessor) by (split; [reflexivity | vm_compute; split; discriminate]).
  split; [exact Hwf|].
  pose proof (wellFormed_kept exampleProcessor 12 (F64.of_Z 48000) 512 smallBlock Hwf)
    as (H1 & _ & _ & H4).
  split; [exact H1 | exact H4].
Defined.

Lemma processBlock_spectra_witness :
  (Z.to_nat (DynamicEQAudioProcessor.activeBandCount exampleProcessor)
   <= length (DynamicEQAudioProcessor.bands exampleProcessor))%nat
  /\ DynamicEQAudioProcessor.preSpectrum
       (fst (DynamicEQAudioProcessor.processBlock exampleProcessor smallBlock))
     = SpectrumAnalyzer.pushSamples (DynamicEQAudioProcessor.preSpectrum exampleProcessor)
         (@DynamicEQAudioProcessor.monoMix Stub.juce
            (DynamicEQAudioProcessor.clearExtraChannels exampleProcessor smallBlock)).
Proof.
  assert (Hn : (Z.to_nat (DynamicEQAudioProcessor.activeBandCount exampleProcessor)
                <= length (DynamicEQAudioProcessor.bands exampleProcessor))%nat)
    by (vm_compute; lia).
  split; [exact Hn|].
  exact (proj1 (processBlock_spectra exampleProcessor smallBlock Hn)).
Defined.

Lemma setStateInformation_safe_witness :
  let p' := @ProcessorState.setStateInformation Stub.juce StubState.juceState
              exampleProcessor oversizedState in
  wellFormed exampleProcessor
  /\ wellFormed p'
  /\ DynamicEQAudioProcessor.activeBandCount p' = 8.
Proof.
  intros p'.
  assert (Hwf : wellFormed exampleProcessor) by (split; [reflexivity | vm_compute; split; discriminate]).
  split; [exact Hwf|].
  split; [|reflexivity].
  exact (proj1 (@setStateInformation_safe Stub.juce StubState.juceState
                  exampleProcessor oversizedState Hwf)).
Defined.

Lemma activeBandCount_round_trip_witness :
  1 <= DynamicEQAudioProcessor.activeBandCount exampleProcessor
       <= DynamicEQAudioProcessor.numBands
  /\ DynamicEQAudioProcessor.activeBandCount
       (@ProcessorState.setStateInformation Stub.juce StubState.juceState
          (DynamicEQAudioProcessor.setActiveBandCount exampleProcessor 2)
          (@ProcessorState.getStateInformation Stub.juce StubState.juceState exampleProcessor))
     = DynamicEQAudioProcessor.activeBandCount exampleProcessor.
Proof.
  assert (Hcount : 1 <= DynamicEQAudioProcessor.activeBandCount exampleProcessor
                        <= DynamicEQAudioProcessor.numBands)
    by (vm_compute; split; discriminate).
  split; [exact Hcount|].
  apply (@activeBandCount_round_trip Stub.juce StubState.juceState exampleProcessor
           (DynamicEQAudioProcessor.setActiveBandCount exampleProcessor 2)).
  - intros xml. reflexivity.
  - intros tree. reflexivity.
  - intros values name n. reflexivity.
  - intros tree name n. cbn. unfold StubState.hasProperty, StubState.findProperty.
    cbn. now rewrite String.eqb_refl.
  - intros tree name n. cbn. unfold StubState.getPropertyInt, StubState.findProperty.
    cbn. now rewrite String.eqb_refl.
  - exact Hcount.
Defined.

Lemma pushSamples_inBounds_witness :
  inBounds SpectrumAnalyzer.init
  /\ inBounds (SpectrumAnalyzer.pushSamples SpectrumAnalyzer.init hopBlock)
  /\ SpectrumAnalyzer.writePos (SpectrumAnalyzer.pushSamples SpectrumAnalyzer.init hopBlock)
     = (SpectrumAnalyzer.writePos SpectrumAnalyzer.init + Z.of_nat (length hopBlock))
       mod SpectrumAnalyzer.fftSize.
Proof.
  assert (Hin : inBounds SpectrumAnalyzer.init).
  { unfold inBounds. cbn. rewrite !length_replicate.
    repeat split; try reflexivity; discriminate. }
  split; [exact Hin|].
  pose proof (pushSamples_inBounds SpectrumAnalyzer.init hopBlock Hin) as (H1 & H2 & _).
  split; [exact H1 | exact H2].
Defined.

Lemma checkAndUpdateCurve_settles_witness :
  let c1 := @SpectrumComponent.checkAndUpdateCurve Stub.juce exampleProcessor
              SpectrumComponent.init in
  (Z.to_nat (DynamicEQAudioProcessor.getActiveBandCount exampleProcessor)
   <= length (SpectrumComponent.lastSnapshots SpectrumComponent.init))%nat
  /\ SpectrumComponent.checkAndUpdateCurve exampleProcessor c1 = c1.
Proof.
  intros c1.
  assert (Hlen : (Z.to_nat (DynamicEQAudioProcessor.getActiveBandCount exampleProcessor)
                  <= length (SpectrumComponent.lastSnapshots SpectrumComponent.init))%nat)
    by (vm_compute; lia).
  split; [exact Hlen|].
  refine (proj2 (checkAndUpdateCurve_settles exampleProcessor SpectrumComponent.init Hlen _)).
  intros i _. repeat split; reflexivity.
Defined.

Lemma rebuildCurveCache_all_disabled_witness :
  SFleb (DynamicEQAudioProcessor.getCurrentSampleRate exampleProcessor) F64.zero = false
  /\ SFleb (F32.of_Z (SpectrumComponent.width wideComponent)) F32.zero = false
  /\ SpectrumComponent.cachedTotalMagnitude
       (@SpectrumComponent.rebuildCurveCache Stub.juce exampleProcessor wideComponent)
     = replicate (Z.to_nat SpectrumComponent.curveNumPoints)
         (F32.of_double (@gainToDecibels_double Stub.juce F64.one
                           (@defaultMinusInfinitydB_double Stub.juce))).
Proof.
  assert (Hsr : SFleb (DynamicEQAudioProcessor.getCurrentSampleRate exampleProcessor)
                  F64.zero = false) by reflexivity.
  assert (Hw : SFleb (F32.of_Z (SpectrumComponent.width wideComponent)) F32.zero = false)
    by reflexivity.
  split; [exact Hsr|]. split; [exact Hw|].
  refine (proj1 (rebuildCurveCache_all_disabled exampleProcessor wideComponent Hsr Hw _ _)).
  - vm_compute. lia.
  - intros i Hi.
    assert (Hcases : i = 0%nat \/ i = 1%nat \/ i = 2%nat \/ i = 3%nat)
      by (vm_compute in Hi; lia).
    destruct Hcases as [-> | [-> | [-> | ->]]]; reflexivity.
Defined.

Lemma bandButtons_witness :
  wellFormed exampleProcessor
  /\ DynamicEQAudioProcessor.getActiveBandCount
       (fst (DynamicEQAudioProcessorEditor.addBandClicked 944 290
               (exampleProcessor, exampleEditor)))
     = Z.min (DynamicEQAudioProcessor.getActiveBandCount exampleProcessor + 1)
             DynamicEQAudioProcessor.numBands.
Proof.
  assert (Hwf : wellFormed exampleProcessor) by (split; [reflexivity | vm_compute; split; discriminate]).
  split; [exact Hwf|].
  exact (proj1 (bandButtons exampleProcessor exampleEditor 944 290 Hwf)).
Defined.

Lemma resized_strips_witness :
  DynamicEQAudioProcessorEditor.controlAreaCollapsed exampleEditor = false
  /\ 0 < DynamicEQAudioProcessor.getActiveBandCount exampleProcessor
  /\ 0 <= 944
  /\ DynamicEQAudioProcessorEditor.containerBounds
       (DynamicEQAudioProcessorEditor.resized exampleProcessor 944 290 exampleEditor)
     = (0, 0,
        Z.max (DynamicEQAudioProcessorEditor.stripWidth
                 (DynamicEQAudioProcessor.getActiveBandCount exampleProcessor) 944
               * DynamicEQAudioProcessor.getActiveBandCount exampleProcessor) 944,
        290).
Proof.
  assert (Hact : 0 < DynamicEQAudioProcessor.getActiveBandCount exampleProcessor) by reflexivity.
  assert (Hw : 0 <= 944) by lia.
  split; [reflexivity|]. split; [exact Hact|]. split; [exact Hw|].
  exact (proj1 (proj2 (resized_strips exampleProcessor 944 290 exampleEditor eq_refl Hact Hw))).
Defined.
